(** * yans: the SQLite article store (internal/backend/sqlite/sqlite.go)

    A shallow embedding of the storage backend of the yans news server.
    The relational store is modelled as four tables, each a list of rows in
    rowid (insertion) order.  Every SQL statement of sqlite.go becomes a pure
    function on the tables; every Go method becomes a function that threads
    a [World] (the store, the failures the store is going to report, the
    store's clock) and returns Go's [(value, error)] pair.

    Integers: SQLite INTEGER columns and Go's int/int64 are 64-bit.  The only
    arithmetic of the file is [max(article_number)+1]; article numbers are
    counted up from 1, and [Z] is exact for them below 2^63-1.

    [return v, sb.db.Get(&v, ...)]: the call runs before [v] is read (the gc
    compiler orders calls first), so the value returned is the one the call
    stored.

    Rows come back in rowid order where the query has no ORDER BY, and rows
    with equal sort keys keep that order. *)

From Stdlib Require Import ZArith List String Ascii Bool Lia.
From Stdlib Require Import Sorting.Sorted Sorting.Permutation.
Import ListNotations.
Open Scope string_scope.
Open Scope list_scope.
Open Scope Z_scope.

(** ** Rows of the four tables *)

(** Modelled from the spec: models.Group (internal/models is not among the
    sources): identifier, unique name, creation timestamp.  It is scanned
    from [SELECT * FROM groups], so it is also the row of [groups]. *)
Record Group := mkGroup {
  ID : Z;
  GroupName : string;
  GroupCreatedAt : Z
}.

(** Modelled from the spec: the schema (migrations/*.sql is not among the
    sources).  The columns are those the statements of sqlite.go name.
    A row of [articles]: id, created_at, header (JSON text), body, thread
    (NULL for a root article). *)
Record ArticleRow := mkArticleRow {
  art_id : Z;
  art_created_at : Z;
  art_header : string;
  art_body : string;
  art_thread : option string
}.

(** A row of [articles_to_groups]. *)
Record Membership := mkMembership {
  atg_article_id : Z;
  atg_article_number : Z;
  atg_group_id : Z
}.

(** A row of [attachments_articles_mapping]. *)
Record AttachmentRow := mkAttachmentRow {
  att_article_id : Z;
  att_content_type : string;
  att_attachment_id : string
}.

Record Store := mkStore {
  groups : list Group;
  articles : list ArticleRow;
  articles_to_groups : list Membership;
  attachments_articles_mapping : list AttachmentRow
}.

(** ** Go values *)

(** Modelled from the spec: the parsed header, an ordered mapping of header
    name to its values. *)
Definition Header := list (string * list string).

Record Attachment := mkAttachment {
  ContentType : string;
  FileName : string
}.

(** Modelled from the spec: models.Article (internal/models is not among
    the sources), with the fields sqlite.go reads and writes. *)
Record Article := mkArticle {
  ArticleID : Z;
  CreatedAt : Z;
  HeaderRaw : string;
  ArticleHeader : Header;
  Body : string;
  Thread : option string;
  ArticleNumber : Z;
  Attachments : list Attachment
}.

(** [var a models.Article]: Go's zero value. *)
Definition zero_Article : Article := mkArticle 0 0 "" [] "" None 0 [].
Definition zero_Group : Group := mkGroup 0 "" 0.

Inductive error :=
| ErrNoRows                      (* sql.ErrNoRows *)
| Errorf (msg : string)          (* fmt.Errorf(msg) *)
| StoreError (code : string)     (* any other failure reported by the store *)
| UnmarshalError                 (* json.Unmarshal failed *)
| ScanError.                     (* rows.Scan: converting NULL to string *)

Definition is_ErrNoRows (e : error) : bool :=
  match e with ErrNoRows => true | _ => false end.

(** ** The world: the store and what surrounds it *)

(** [faults] lists, call by call, whether the next statement sent to the
    store is going to fail there (busy, locked, disconnected, ...);
    when the list is exhausted the store answers every call. [now] is the
    store's clock, the default of the [created_at] columns. *)
Record World := mkWorld {
  store : Store;
  faults : list (option string);
  now : Z
}.

Definition healthy (s : Store) (t : Z) : World := mkWorld s [] t.

Definition next_fault (w : World) : option string * World :=
  match faults w with
  | [] => (None, w)
  | f :: fs => (f, mkWorld (store w) fs (now w))
  end.

(** [db.Select(&dest, query, args...)]: all rows, or the store's error with
    [dest] left as it was (nil). *)
Definition db_Select {R : Type} (q : Store -> list R) (w : World)
  : (list R * option error) * World :=
  let '(f, w1) := next_fault w in
  match f with
  | Some code => (([], Some (StoreError code)), w1)
  | None => ((q (store w1), None), w1)
  end.

(** [db.Get(&dest, query, args...)]: the first row is scanned into [dest];
    [sql.ErrNoRows] when there is none; on any error [dest] keeps its value. *)
Definition db_GetScan {R D : Type} (q : Store -> list R) (scan : R -> D -> D)
  (dest : D) (w : World) : (D * option error) * World :=
  let '(f, w1) := next_fault w in
  match f with
  | Some code => ((dest, Some (StoreError code)), w1)
  | None =>
      match q (store w1) with
      | [] => ((dest, Some ErrNoRows), w1)
      | r :: _ => ((scan r dest, None), w1)
      end
  end.

(** A statement that can fail while it runs (here: [json_extract] on text
    that is not JSON): [run s] gives the rows the statement delivers before
    it fails, and the failure.  [db.Select] appends each row delivered to
    [dest] and returns the failure at the end. *)
Definition db_SelectRun {R : Type} (run : Store -> list R * option error)
  (w : World) : (list R * option error) * World :=
  let '(f, w1) := next_fault w in
  match f with
  | Some code => (([], Some (StoreError code)), w1)
  | None => (run (store w1), w1)
  end.

(** [db.Get] on such a statement steps to the first row only: a row
    delivered before the failure is scanned and returned without error. *)
Definition db_GetScanRun {R D : Type} (run : Store -> list R * option error)
  (scan : R -> D -> D) (dest : D) (w : World) : (D * option error) * World :=
  let '(f, w1) := next_fault w in
  match f with
  | Some code => ((dest, Some (StoreError code)), w1)
  | None =>
      match run (store w1) with
      | (r :: _, _) => ((scan r dest, None), w1)
      | ([], Some e) => ((dest, Some e), w1)
      | ([], None) => ((dest, Some ErrNoRows), w1)
      end
  end.

(** [db.Get] into a scalar or a whole row. *)
Definition db_Get {R : Type} (q : Store -> list R) (dest : R) (w : World)
  : (R * option error) * World :=
  db_GetScan q (fun r _ => r) dest w.

(** sql.Result of the sqlite3 driver. *)
Record Result := mkResult { LastInsertId : Z }.

(** [db.Exec(stmt, args...)]: on failure the result is nil and the store is
    unchanged; otherwise the statement is applied. A statement maps the
    clock and the store to the new store and the rowid it inserted. *)
Definition db_Exec (stmt : Z -> Store -> Store * Z) (w : World)
  : (option Result * option error) * World :=
  let '(f, w1) := next_fault w in
  match f with
  | Some code => ((None, Some (StoreError code)), w1)
  | None =>
      let '(s', rowid) := stmt (now w1) (store w1) in
      ((Some (mkResult rowid), None), mkWorld s' (faults w1) (now w1))
  end.

(** ** SQL building blocks *)

(** SQL [max(...)] and [min(...)]: NULL over no rows. *)
Fixpoint sql_max (l : list Z) : option Z :=
  match l with
  | [] => None
  | x :: t => match sql_max t with
              | None => Some x
              | Some m => Some (Z.max x m)
              end
  end.

Fixpoint sql_min (l : list Z) : option Z :=
  match l with
  | [] => None
  | x :: t => match sql_min t with
              | None => Some x
              | Some m => Some (Z.min x m)
              end
  end.

Definition COALESCE (v : option Z) (d : Z) : Z :=
  match v with Some x => x | None => d end.

(** Rows of [articles_to_groups WHERE group_id = gid]. *)
Definition memberships_of (gid : Z) (s : Store) : list Membership :=
  filter (fun m => atg_group_id m =? gid) (articles_to_groups s).

(** [SELECT article_number FROM articles_to_groups WHERE group_id = gid]. *)
Definition group_numbers (gid : Z) (s : Store) : list Z :=
  map atg_article_number (memberships_of gid s).

(** ** Watermarks and count *)

Definition GetArticlesCount (g : Group) (w : World) : (Z * option error) * World :=
  db_Get (fun s => [Z.of_nat (List.length (memberships_of (ID g) s))]) 0 w.

Definition GetGroupHighWaterMark (g : Group) (w : World) : (Z * option error) * World :=
  db_Get (fun s => [COALESCE (sql_max (group_numbers (ID g) s)) 0]) 0 w.

Definition GetGroupLowWaterMark (g : Group) (w : World) : (Z * option error) * World :=
  db_Get (fun s => [COALESCE (sql_min (group_numbers (ID g) s)) 0]) 0 w.

(** [SELECT * FROM groups WHERE group_name = ?]. *)
Definition GetGroup (groupName : string) (w : World) : (Group * option error) * World :=
  db_Get (fun s => filter (fun g => String.eqb (GroupName g) groupName) (groups s))
         zero_Group w.

(** ** strings.TrimSpace

    Go trims the runes of [unicode.IsSpace] from both ends of the UTF-8 text.
    Their encodings are: one byte 09..0D and 20; two bytes C2 85 (U+0085) and
    C2 A0 (U+00A0); three bytes E1 9A 80 (U+1680), E2 80 80..8A
    (U+2000..U+200A), E2 80 A8, E2 80 A9, E2 80 AF, E2 81 9F and E3 80 80. *)

Definition space1 (a : ascii) : bool :=
  let n := N_of_ascii a in
  (((9 <=? n) && (n <=? 13)) || (n =? 32))%N.

Definition space2 (a b : ascii) : bool :=
  ((N_of_ascii a =? 194) &&
   ((N_of_ascii b =? 133) || (N_of_ascii b =? 160)))%N.

Definition space3 (a b c : ascii) : bool :=
  let x := N_of_ascii a in
  let y := N_of_ascii b in
  let z := N_of_ascii c in
  (((x =? 225) && (y =? 154) && (z =? 128)) ||
   ((x =? 226) && (y =? 128) &&
      (((128 <=? z) && (z <=? 138)) || (z =? 168) || (z =? 169) || (z =? 175))) ||
   ((x =? 226) && (y =? 129) && (z =? 159)) ||
   ((x =? 227) && (y =? 128) && (z =? 128)))%N.

(** Drop the white space at the front of the bytes. *)
Fixpoint trim_front (l : list ascii) : list ascii :=
  match l with
  | [] => []
  | a :: t =>
      if space1 a then trim_front t else
      match t with
      | b :: t2 =>
          if space2 a b then trim_front t2 else
          match t2 with
          | c :: t3 => if space3 a b c then trim_front t3 else l
          | [] => l
          end
      | [] => l
      end
  end.

(** The same from the back, on the reversed bytes: the last rune starts at
    the nearest lead byte, and the continuation bytes come first. *)
Fixpoint trim_back_rev (l : list ascii) : list ascii :=
  match l with
  | [] => []
  | a :: t =>
      if space1 a then trim_back_rev t else
      match t with
      | b :: t2 =>
          if space2 b a then trim_back_rev t2 else
          match t2 with
          | c :: t3 => if space3 c b a then trim_back_rev t3 else l
          | [] => l
          end
      | [] => l
      end
  end.

Definition TrimSpace (s : string) : string :=
  string_of_list_ascii
    (rev (trim_back_rev (rev (trim_front (list_ascii_of_string s))))).

(** ** SaveArticle *)

(** Modelled from the spec: the article ID is the rowid SQLite gives a new
    row, one more than the largest in use (1 in an empty table). *)
Definition next_rowid (ids : list Z) : Z :=
  match sql_max ids with
  | None => 1
  | Some m => m + 1
  end.

(** [INSERT INTO articles (header, body, thread) VALUES (?, ?, ?)];
    [created_at] takes its default, the store's clock. *)
Definition insert_article (header body : string) (thread : option string)
  (t : Z) (s : Store) : Store * Z :=
  let id := next_rowid (map art_id (articles s)) in
  (mkStore (groups s)
           (articles s ++ [mkArticleRow id t header body thread])
           (articles_to_groups s)
           (attachments_articles_mapping s),
   id).

Definition ifnull (v : option Z) (d : Z) : Z := COALESCE v d.

(** [(SELECT ifnull(max(article_number)+1, 1) FROM articles_to_groups
      WHERE group_id = gid)]. *)
Definition next_article_number (gid : Z) (s : Store) : Z :=
  ifnull (option_map (fun m => m + 1) (sql_max (group_numbers gid s))) 1.

(** [INSERT INTO articles_to_groups (article_id, article_number, group_id)
     VALUES (?, (SELECT ifnull(max(article_number)+1, 1) ...), ?)]. *)
Definition insert_membership (articleID gid : Z) (t : Z) (s : Store) : Store * Z :=
  (mkStore (groups s)
           (articles s)
           (articles_to_groups s ++
              [mkMembership articleID (next_article_number gid s) gid])
           (attachments_articles_mapping s),
   Z.of_nat (List.length (articles_to_groups s)) + 1).

(** [INSERT INTO attachments_articles_mapping
     (article_id, content_type, attachment_id) VALUES (?, ?, ?)]. *)
Definition insert_attachment (articleID : Z) (v : Attachment) (t : Z) (s : Store)
  : Store * Z :=
  (mkStore (groups s)
           (articles s)
           (articles_to_groups s)
           (attachments_articles_mapping s ++
              [mkAttachmentRow articleID (ContentType v) (FileName v)]),
   Z.of_nat (List.length (attachments_articles_mapping s)) + 1).

(** A Go call either returns or panics. *)
Inductive outcome (A : Type) :=
| Returns (a : A)
| Panics.
Arguments Returns {A} a.
Arguments Panics {A}.

(** The first loop: trim each name, resolve it, collect the group IDs. *)
Fixpoint resolve_groups (names : list string) (groupIDs : list Z) (w : World)
  : (list Z + error) * World :=
  match names with
  | [] => (inl groupIDs, w)
  | v :: rest =>
      let v := TrimSpace v in
      let '((g, err), w1) := GetGroup v w in
      match err with
      | Some e =>
          if is_ErrNoRows e
          then (inr (Errorf "no such newsgroup"), w1)
          else (inr e, w1)
      | None => resolve_groups rest (groupIDs ++ [ID g]) w1
      end
  end.

(** The second loop: one membership row per resolved group. *)
Fixpoint insert_memberships (articleID : Z) (groupIDs : list Z) (w : World)
  : option error * World :=
  match groupIDs with
  | [] => (None, w)
  | v :: rest =>
      let '((_, err), w1) := db_Exec (insert_membership articleID v) w in
      match err with
      | Some e => (Some e, w1)
      | None => insert_memberships articleID rest w1
      end
  end.

(** The third loop: one mapping row per attachment. *)
Fixpoint insert_attachments (articleID : Z) (atts : list Attachment) (w : World)
  : option error * World :=
  match atts with
  | [] => (None, w)
  | v :: rest =>
      let '((_, err), w1) := db_Exec (insert_attachment articleID v) w in
      match err with
      | Some e => (Some e, w1)
      | None => insert_attachments articleID rest w1
      end
  end.

(** [res.LastInsertId()] is called on whatever [Exec] returned: the error of
    [Exec] is overwritten before it is looked at, and a nil [res] panics. *)
Definition SaveArticle (a : Article) (names : list string) (w : World)
  : outcome (option error) * World :=
  let '((res, _), w1) :=
    db_Exec (insert_article (HeaderRaw a) (Body a) (Thread a)) w in
  match res with
  | None => (Panics, w1)
  | Some r =>
      let articleID := LastInsertId r in
      match resolve_groups names [] w1 with
      | (inr e, w2) => (Returns (Some e), w2)
      | (inl groupIDs, w2) =>
          match insert_memberships articleID groupIDs w2 with
          | (Some e, w3) => (Returns (Some e), w3)
          | (None, w3) =>
              match insert_attachments articleID (Attachments a) w3 with
              | (Some e, w4) => (Returns (Some e), w4)
              | (None, w4) => (Returns None, w4)
              end
          end
      end
  end.


(** ** Relational operators used by the queries *)

(** [articles INNER JOIN articles_to_groups atg ON atg.article_id = articles.id],
    scanned with [articles] as the outer table. *)
Definition joined (s : Store) : list (ArticleRow * Membership) :=
  flat_map
    (fun a => map (pair a)
                  (filter (fun m => atg_article_id m =? art_id a)
                          (articles_to_groups s)))
    (articles s).

(** [ORDER BY key]: a stable insertion sort; [le] is [Z.leb] for ascending
    and [Z.geb] for [DESC]. *)
Fixpoint insert_by {R : Type} (le : Z -> Z -> bool) (key : R -> Z) (x : R)
  (l : list R) : list R :=
  match l with
  | [] => [x]
  | y :: t => if le (key x) (key y) then x :: l
              else y :: insert_by le key x t
  end.

Definition order_by {R : Type} (le : Z -> Z -> bool) (key : R -> Z)
  (l : list R) : list R :=
  fold_right (insert_by le key) [] l.

(** [x] goes before [y] in the order of [ORDER BY key]. *)
Definition key_le {R : Type} (le : Z -> Z -> bool) (key : R -> Z) (x y : R)
  : Prop :=
  le (key x) (key y) = true.

(** SQL [=] on nullable text: NULL never compares equal. *)
Definition sql_eq (x y : option string) : bool :=
  match x, y with
  | Some a, Some b => String.eqb a b
  | _, _ => false
  end.

(** Scanning a row of [articles.*] into a models.Article: the columns
    overwrite their fields, the other fields keep their values. *)
Definition scan_article (r : ArticleRow) (a : Article) : Article :=
  mkArticle (art_id r) (art_created_at r) (art_header r) (ArticleHeader a)
            (art_body r) (art_thread r) (ArticleNumber a) (Attachments a).

Definition set_ArticleNumber (a : Article) (n : Z) : Article :=
  mkArticle (ArticleID a) (CreatedAt a) (HeaderRaw a) (ArticleHeader a)
            (Body a) (Thread a) n (Attachments a).

Definition set_Header (a : Article) (h : Header) : Article :=
  mkArticle (ArticleID a) (CreatedAt a) (HeaderRaw a) h
            (Body a) (Thread a) (ArticleNumber a) (Attachments a).

Definition set_Attachments (a : Article) (l : list Attachment) : Article :=
  mkArticle (ArticleID a) (CreatedAt a) (HeaderRaw a) (ArticleHeader a)
            (Body a) (Thread a) (ArticleNumber a) l.

(** [SELECT article_number FROM articles_to_groups WHERE article_id = ?]:
    no group in the condition. *)
Definition q_number_by_article (id : Z) (s : Store) : list Z :=
  map atg_article_number
      (filter (fun m => atg_article_id m =? id) (articles_to_groups s)).

(** [SELECT content_type, attachment_id FROM attachments_articles_mapping
     WHERE article_id = ?]. *)
Definition q_attachments (id : Z) (s : Store) : list Attachment :=
  map (fun r => mkAttachment (att_content_type r) (att_attachment_id r))
      (filter (fun r => att_article_id r =? id)
              (attachments_articles_mapping s)).

(** [... WHERE atg.article_number = ? AND atg.group_id = ?]. *)
Definition q_article_by_number (num gid : Z) (s : Store) : list ArticleRow :=
  map fst
      (filter (fun am => (atg_article_number (snd am) =? num) &&
                         (atg_group_id (snd am) =? gid))
              (joined s)).

(** [... WHERE atg.article_number < ? AND atg.group_id = ?
     ORDER BY atg.article_number DESC LIMIT 1]. *)
Definition q_last_article (num gid : Z) (s : Store) : list ArticleRow :=
  map fst
      (firstn 1
         (order_by Z.geb (fun am => atg_article_number (snd am))
            (filter (fun am => (atg_article_number (snd am) <? num) &&
                               (atg_group_id (snd am) =? gid))
                    (joined s)))).

(** [... WHERE atg.article_number > ? AND atg.group_id = ?
     ORDER BY atg.article_number LIMIT 1]. *)
Definition q_next_article (num gid : Z) (s : Store) : list ArticleRow :=
  map fst
      (firstn 1
         (order_by Z.leb (fun am => atg_article_number (snd am))
            (filter (fun am => (atg_article_number (snd am) >? num) &&
                               (atg_group_id (snd am) =? gid))
                    (joined s)))).

(** [... WHERE atg.article_number >= ? AND atg.article_number <= ?
     AND atg.group_id = ? ORDER BY atg.article_number]. *)
Definition q_articles_by_range (low high gid : Z) (s : Store) : list ArticleRow :=
  map fst
      (order_by Z.leb (fun am => atg_article_number (snd am))
         (filter (fun am => (atg_article_number (snd am) >=? low) &&
                            (atg_article_number (snd am) <=? high) &&
                            (atg_group_id (snd am) =? gid))
                 (joined s))).

(** ** GetArticleNumbers *)

Definition GetArticleNumbers (g : Group) (low high : Z) (w : World)
  : (list Z * option error) * World :=
  if (high =? 0) && (low =? 0) then
    db_Select (fun s =>
      map atg_article_number
          (filter (fun m => atg_group_id m =? ID g) (articles_to_groups s))) w
  else if (low =? -1) && negb (high =? 0) then
    db_Select (fun s =>
      map atg_article_number
          (filter (fun m => (atg_group_id m =? ID g) &&
                            (atg_article_number m =? high))
                  (articles_to_groups s))) w
  else if negb (low =? 0) && (high =? -1) then
    db_Select (fun s =>
      map atg_article_number
          (filter (fun m => (atg_group_id m =? ID g) &&
                            (atg_article_number m >? low))
                  (articles_to_groups s))) w
  else if (low =? -1) && (high =? -1) then
    (([], None), w)
  else
    db_Select (fun s =>
      map atg_article_number
          (filter (fun m => (atg_group_id m =? ID g) &&
                            (atg_article_number m >? low) &&
                            (atg_article_number m <? high))
                  (articles_to_groups s))) w.

(** ** Operations that read headers

    The header column holds the text SaveArticle was given, which nothing
    checks.  Its two decoders belong to the store and to Go's library and
    are taken as given: [json_extract_message_id raw] is SQLite's
    [json_extract(raw, '$.Message-Id[0]')] and [json_Unmarshal raw] is
    [json.Unmarshal] into the header mapping, [None] when it returns an
    error. *)

(** What [json_extract(raw, '$.Message-Id[0]')] does: on text that is not
    JSON it fails and the statement ends with the error "malformed JSON";
    otherwise it gives an SQL value, NULL ([None]) when the path leads to
    nothing and the text of the element when that is a string, as in the
    headers json.Marshal writes from a mapping of names to lists of
    strings. *)
Inductive extracted :=
| Malformed
| Extracted (v : option string).

(** The error of the sqlite3 driver for a statement that failed so. *)
Definition malformed_JSON : error := StoreError "malformed JSON".

Section HeaderCodec.

Variable json_extract_message_id : string -> extracted.
Variable json_Unmarshal : string -> option Header.

(** [return a, json.Unmarshal([]byte(a.HeaderRaw), &a.Header)]. *)
Definition unmarshal_header (a : Article) : Article * option error :=
  match json_Unmarshal (HeaderRaw a) with
  | Some h => (set_Header a h, None)
  | None => (a, Some UnmarshalError)
  end.

(** [SELECT * FROM articles
     WHERE json_extract(articles.header, '$.Message-Id[0]') = ?]: the table
    is read in rowid order and the condition evaluated row by row; a header
    that is not JSON ends the statement there. *)
Fixpoint q_article_by_message_id (messageID : string) (rows : list ArticleRow)
  : list ArticleRow * option error :=
  match rows with
  | [] => ([], None)
  | r :: rest =>
      match json_extract_message_id (art_header r) with
      | Malformed => ([], Some malformed_JSON)
      | Extracted v =>
          let '(l, err) := q_article_by_message_id messageID rest in
          if sql_eq v (Some messageID) then (r :: l, err) else (l, err)
      end
  end.

Definition GetArticle (messageID : string) (w : World)
  : (Article * option error) * World :=
  let '((a, err), w1) :=
    db_GetScanRun (fun s => q_article_by_message_id messageID (articles s))
                  scan_article zero_Article w in
  match err with
  | Some e => ((a, Some e), w1)
  | None =>
      let '((n, err), w2) :=
        db_Get (q_number_by_article (ArticleID a)) (ArticleNumber a) w1 in
      let a := set_ArticleNumber a n in
      match err with
      | Some e => ((a, Some e), w2)
      | None =>
          let '((atts, err), w3) := db_Select (q_attachments (ArticleID a)) w2 in
          match err with
          | Some e => ((a, Some e), w3)
          | None => (unmarshal_header (set_Attachments a atts), w3)
          end
      end
  end.

Definition GetArticleByNumber (g : Group) (num : Z) (w : World)
  : (Article * option error) * World :=
  let '((a, err), w1) :=
    db_GetScan (q_article_by_number num (ID g)) scan_article zero_Article w in
  match err with
  | Some e => ((a, Some e), w1)
  | None =>
      let a := set_ArticleNumber a num in
      let '((atts, err), w2) := db_Select (q_attachments (ArticleID a)) w1 in
      match err with
      | Some e => ((a, Some e), w2)
      | None => (unmarshal_header (set_Attachments a atts), w2)
      end
  end.

(** The tail shared by GetLastArticleByNum and GetNextArticleByNum: look the
    number up by article ID, then parse the header. *)
Definition number_and_header (found : (Article * option error) * World)
  : (Article * option error) * World :=
  let '((x, err), w1) := found in
  match err with
  | Some e => ((x, Some e), w1)
  | None =>
      let '((n, err), w2) :=
        db_Get (q_number_by_article (ArticleID x)) (ArticleNumber x) w1 in
      let x := set_ArticleNumber x n in
      match err with
      | Some e => ((x, Some e), w2)
      | None => (unmarshal_header x, w2)
      end
  end.

Definition GetLastArticleByNum (g : Group) (a : Article) (w : World)
  : (Article * option error) * World :=
  number_and_header
    (db_GetScan (q_last_article (ArticleNumber a) (ID g))
                scan_article zero_Article w).

Definition GetNextArticleByNum (g : Group) (a : Article) (w : World)
  : (Article * option error) * World :=
  number_and_header
    (db_GetScan (q_next_article (ArticleNumber a) (ID g))
                scan_article zero_Article w).

(** The loop of GetArticlesByRange over [articles[i]]; any error drops the
    whole result. *)
Fixpoint populate (l : list Article) (w : World)
  : (list Article * option error) * World :=
  match l with
  | [] => (([], None), w)
  | x :: rest =>
      let '((n, err), w1) :=
        db_Get (q_number_by_article (ArticleID x)) (ArticleNumber x) w in
      match err with
      | Some e => (([], Some e), w1)
      | None =>
          match unmarshal_header (set_ArticleNumber x n) with
          | (_, Some e) => (([], Some e), w1)
          | (x', None) =>
              let '((rest', err), w2) := populate rest w1 in
              match err with
              | Some e => (([], Some e), w2)
              | None => ((x' :: rest', None), w2)
              end
          end
      end
  end.

Definition GetArticlesByRange (g : Group) (low high : Z) (w : World)
  : (list Article * option error) * World :=
  let '((rows, err), w1) := db_Select (q_articles_by_range low high (ID g)) w in
  match err with
  | Some e => (([], Some e), w1)
  | None => populate (map (fun r => scan_article r zero_Article) rows) w1
  end.

(** The scalar subquery of GetThread: the header of the article numbered
    [threadNum] in the group, NULL when there is none. *)
Definition root_header (gid threadNum : Z) (s : Store) : option string :=
  hd_error
    (map (fun am => art_header (fst am))
         (filter (fun am => (atg_group_id (snd am) =? gid) &&
                            (atg_article_number (snd am) =? threadNum))
                 (joined s))).

(** [json_extract((SELECT ...), '$.Message-Id[0]')]: NULL when the subquery
    is NULL. *)
Definition root_message_id (gid threadNum : Z) (s : Store) : extracted :=
  match root_header gid threadNum s with
  | Some h => json_extract_message_id h
  | None => Extracted None
  end.

(** The rows of GetThread's query, before the projection to the number,
    for the Message-Id [mid] of the root. *)
Definition q_thread_rows (gid : Z) (mid : option string) (s : Store)
  : list (ArticleRow * Membership) :=
  order_by Z.leb (fun am => art_created_at (fst am))
    (filter (fun am => (atg_group_id (snd am) =? gid) &&
                       sql_eq (art_thread (fst am)) mid)
            (joined s)).

(** GetThread's statement.  The comparison with the root's Message-Id is
    evaluated on the rows of the join, of which the root is one: a root
    header that is not JSON fails the statement before any row is
    delivered (the rows are sorted first). *)
Definition q_thread (gid threadNum : Z) (s : Store) : list Z * option error :=
  match root_message_id gid threadNum s with
  | Malformed => ([], Some malformed_JSON)
  | Extracted mid =>
      (map (fun am => atg_article_number (snd am)) (q_thread_rows gid mid s),
       None)
  end.

Definition GetThread (g : Group) (threadNum : Z) (w : World)
  : (list Z * option error) * World :=
  db_SelectRun (q_thread (ID g) threadNum) w.

(** Scanning a text column into Go strings row by row: a NULL stops the
    scan with an error, the rows before it stay in the slice. *)
Fixpoint scan_strings (rows : list (option string))
  : list string * option error :=
  match rows with
  | [] => ([], None)
  | None :: _ => ([], Some ScanError)
  | Some x :: rest =>
      let '(l, err) := scan_strings rest in (x :: l, err)
  end.

(** The column [json_extract(articles.header, '$.Message-Id[0]')] over the
    rows read, in their order: the values before the first header that is
    not JSON, and the failure there. *)
Fixpoint extract_message_ids (rows : list ArticleRow)
  : list (option string) * option error :=
  match rows with
  | [] => ([], None)
  | r :: rest =>
      match json_extract_message_id (art_header r) with
      | Malformed => ([], Some malformed_JSON)
      | Extracted v =>
          let '(l, err) := extract_message_ids rest in (v :: l, err)
      end
  end.

(** [SELECT json_extract(articles.header, '$.Message-Id[0]') FROM articles
     WHERE created_at > datetime(?, 'unixepoch')].  Each value delivered is
    scanned as it comes; the error of the scan, or else the failure of the
    statement, comes back with the strings scanned before it. *)
Definition GetNewArticlesSince (timestamp : Z) (w : World)
  : (list string * option error) * World :=
  let '((vals, err), w1) :=
    db_SelectRun (fun s =>
      extract_message_ids
        (filter (fun r => art_created_at r >? timestamp) (articles s))) w in
  match scan_strings vals with
  | (l, Some e) => ((l, Some e), w1)
  | (l, None) => ((l, err), w1)
  end.

End HeaderCodec.

(** ** A codec for the examples

    It decodes the header texts of one shape, an object with the single
    field Message-Id holding one string without quotes or backslashes.
    The examples use no other JSON text: any other text is taken as not
    JSON. *)

Definition dq : string := String "034"%char EmptyString.

Definition header_text (mid : string) : string :=
  ("{" ++ dq ++ "Message-Id" ++ dq ++ ":[" ++ dq ++ mid ++ dq ++ "]}")%string.

Fixpoint plain (s : string) : bool :=
  match s with
  | EmptyString => true
  | String c t =>
      negb (Ascii.eqb c "034"%char) && negb (Ascii.eqb c "092"%char) &&
      (32 <=? N_of_ascii c)%N && plain t
  end.

Definition sample_message_id (raw : string) : extracted :=
  let p := ("{" ++ dq ++ "Message-Id" ++ dq ++ ":[" ++ dq)%string in
  let q := (dq ++ "]}")%string in
  let n := (String.length raw - String.length p - String.length q)%nat in
  let mid := substring (String.length p) n raw in
  if String.eqb raw (header_text mid) && plain mid
  then Extracted (Some mid) else Malformed.

Definition sample_Unmarshal (raw : string) : option Header :=
  match sample_message_id raw with
  | Extracted (Some mid) => Some [("Message-Id", [mid])]
  | _ => None
  end.

(** ** Worlds that answer *)

(** [quiet k w]: the store answers the next [k] calls. *)
Definition quiet (k : nat) (w : World) : Prop :=
  Forall (fun f => f = None) (firstn k (faults w)).

(** The world [k] calls later, with the store now [s]. *)
Definition later (k : nat) (s : Store) (w : World) : World :=
  mkWorld s (skipn k (faults w)) (now w).


(** ** What SaveArticle amounts to when the store answers *)

(** The group GetGroup finds for a name: the first row of that name. *)
Definition lookup_group (name : string) (s : Store) : option Group :=
  hd_error (filter (fun g => String.eqb (GroupName g) name) (groups s)).

(** The group IDs of the first loop, [None] when a trimmed name resolves to
    no group. *)
Fixpoint resolved_ids (names : list string) (s : Store) : option (list Z) :=
  match names with
  | [] => Some []
  | v :: rest =>
      match lookup_group (TrimSpace v) s with
      | None => None
      | Some g => option_map (cons (ID g)) (resolved_ids rest s)
      end
  end.

(** The membership inserts of the second loop, one after the other. *)
Definition add_memberships (articleID : Z) (gids : list Z) (t : Z) (s : Store)
  : Store :=
  fold_left (fun s v => fst (insert_membership articleID v t s)) gids s.

(** The attachment inserts of the third loop. *)
Definition add_attachments (articleID : Z) (atts : list Attachment) (t : Z)
  (s : Store) : Store :=
  fold_left (fun s v => fst (insert_attachment articleID v t s)) atts s.

(** The store after [SaveArticle a names] on a store that answers, at time [t]. *)
Definition saved (a : Article) (names : list string) (t : Z) (s : Store) : Store :=
  store (snd (SaveArticle a names (healthy s t))).

(** The numbering rule for one new membership row [m], given the rows
    [before] it: 1 in a group without rows, otherwise one more than the
    greatest number of its group. *)
Definition numbered_next (before : list Membership) (m : Membership) : Prop :=
  let ns := map atg_article_number
                (filter (fun x => atg_group_id x =? atg_group_id m) before) in
  (ns = [] -> atg_article_number m = 1) /\
  (forall mx, In mx ns -> Forall (fun x => x <= mx) ns ->
              atg_article_number m = mx + 1).

(** [k] consecutive numbers starting at [from]. *)
Fixpoint consecutive (from : Z) (k : nat) : list Z :=
  match k with
  | O => []
  | S k' => from :: consecutive (from + 1) k'
  end.

(** The rule for rows inserted one after the other. *)
Fixpoint numbered_in_turn (before news : list Membership) : Prop :=
  match news with
  | [] => True
  | m :: rest => numbered_next before m /\ numbered_in_turn (before ++ [m]) rest
  end.

(** ** A store for the examples *)

Definition go_group : Group := mkGroup 1 "comp.lang.go" 100.
Definition alt_group : Group := mkGroup 2 "alt.test" 101.

Definition sample_store : Store := mkStore [go_group; alt_group] [] [] [].

Definition sample_article (mid : string) (th : option string) : Article :=
  mkArticle 0 0 (header_text mid) [] "body" th 0 [].

(** Three saves: the first into comp.lang.go, the second cross-posted to
    both groups, the third a reply to the second. *)
Definition sample_store3 : Store :=
  saved (sample_article "<3@x>" (Some "<2@x>")) ["comp.lang.go"] 12
    (saved (sample_article "<2@x>" None) ["comp.lang.go"; " alt.test "] 11
       (saved (sample_article "<1@x>" None) ["comp.lang.go"] 10 sample_store)).

(** A fourth save, of an article whose header text is not JSON. *)
Definition sample_store4 : Store :=
  saved (mkArticle 0 0 "Message-Id: <4@x>" [] "body" None 0 [])
        ["comp.lang.go"] 13 sample_store3.

(** ** White space, for the statement about TrimSpace *)

(** A run of white-space runes, as bytes. *)
Inductive white : list ascii -> Prop :=
| white_nil : white []
| white_1 a l : space1 a = true -> white l -> white (a :: l)
| white_2 a b l : space2 a b = true -> white l -> white (a :: b :: l)
| white_3 a b c l : space3 a b c = true -> white l -> white (a :: b :: c :: l).

(** No white-space rune at the front, none at the back. *)
Definition clean_front (l : list ascii) : Prop := trim_front l = l.
Definition clean_back (l : list ascii) : Prop := trim_back_rev (rev l) = rev l.

(** [r] is [s] without the white space around it. *)
Definition trimmed_of (s r : string) : Prop :=
  exists pre post,
    white pre /\ white post /\
    list_ascii_of_string s = pre ++ list_ascii_of_string r ++ post /\
    clean_front (list_ascii_of_string r) /\
    clean_back (list_ascii_of_string r).

(** A save that names a group that does not exist. *)
Definition save_unknown_group : outcome (option error) * World :=
  SaveArticle (sample_article "<1@x>" None) ["comp.lang.go"; "no.such.group"]
              (healthy sample_store 10).

(** A save during which the store rejects the second membership insert:
    it answers the article insert, the two group lookups and the first
    membership insert. *)
Definition save_locked_store : outcome (option error) * World :=
  SaveArticle (sample_article "<1@x>" None) ["comp.lang.go"; "alt.test"]
              (mkWorld sample_store
                       [None; None; None; None; Some "database is locked"] 10).

(** ** The invariant of the data model *)

(** Article IDs are distinct, every membership is of a stored article, the
    numbers within a group are distinct and counted from 1. *)
Record wf_store (s : Store) : Prop := mk_wf {
  wf_article_ids : NoDup (map art_id (articles s));
  wf_memberships :
    forall m, In m (articles_to_groups s) ->
              exists r, In r (articles s) /\ art_id r = atg_article_id m;
  wf_numbers : forall gid, NoDup (group_numbers gid s);
  wf_positive : Forall (fun m => 1 <= atg_article_number m) (articles_to_groups s)
}.

(** The number and the header of one article of GetArticlesByRange's loop. *)
Definition populate1 (json_Unmarshal : string -> option Header) (s : Store)
  (x : Article) : Article + error :=
  match q_number_by_article (ArticleID x) s with
  | [] => inr ErrNoRows
  | n :: _ =>
      match json_Unmarshal (HeaderRaw x) with
      | Some h => inl (set_Header (set_ArticleNumber x n) h)
      | None => inr UnmarshalError
      end
  end.

Fixpoint populate_all (json_Unmarshal : string -> option Header) (s : Store)
  (l : list Article) : list Article + error :=
  match l with
  | [] => inl []
  | x :: rest =>
      match populate1 json_Unmarshal s x with
      | inr e => inr e
      | inl x' =>
          match populate_all json_Unmarshal s rest with
          | inr e => inr e
          | inl rest' => inl (x' :: rest')
          end
      end
  end.

(** The error of [json.Unmarshal] on a header text. *)
Definition unmarshal_error (json_Unmarshal : string -> option Header)
  (raw : string) : option error :=
  match json_Unmarshal raw with
  | Some _ => None
  | None => Some UnmarshalError
  end.

(** The Go article [x] holds the columns of the row [r]. *)
Definition holds_row (x : Article) (r : ArticleRow) : Prop :=
  ArticleID x = art_id r /\ CreatedAt x = art_created_at r /\
  HeaderRaw x = art_header r /\ Body x = art_body r /\
  Thread x = art_thread r.

(** ** The remaining queries of sqlite.go *)

(** [SELECT * FROM groups]. *)
Definition ListGroups (w : World) : (list Group * option error) * World :=
  db_Select (fun s => groups s) w.

(** [SELECT * FROM groups WHERE created_at > datetime(?, 'unixepoch')]. *)
Definition GetNewGroupsSince (timestamp : Z) (w : World)
  : (list Group * option error) * World :=
  db_Select (fun s => filter (fun g => GroupCreatedAt g >? timestamp) (groups s)) w.

(** The timestamps SQLite's [datetime] is defined on: the years 0000 to 9999. *)
Definition datetime_range (timestamp : Z) : Prop :=
  -62167219200 <= timestamp <= 253402300799.

(** Go's [int] on a 64-bit platform: arithmetic wraps around. *)
Definition wrap64 (z : Z) : Z := (z + 2 ^ 63) mod 2 ^ 64 - 2 ^ 63.

(** [LIMIT n OFFSET m]: a negative [m] skips nothing, a negative [n] is no
    limit. *)
Definition limit_offset {R : Type} (n m : Z) (l : list R) : list R :=
  let rest := skipn (Z.to_nat m) l in
  if n <? 0 then rest else firstn (Z.to_nat n) rest.

(** The rows of GetNewThreads' query before LIMIT and the projection:
    [... WHERE atg.group_id = ? AND articles.thread IS NULL
     ORDER BY articles.created_at DESC]. *)
Definition q_root_rows (gid : Z) (s : Store) : list (ArticleRow * Membership) :=
  order_by Z.geb (fun am => art_created_at (fst am))
    (filter (fun am => (atg_group_id (snd am) =? gid) &&
                       match art_thread (fst am) with
                       | None => true
                       | Some _ => false
                       end)
            (joined s)).

Definition GetNewThreads (g : Group) (perPage pageNum : Z) (w : World)
  : (list Z * option error) * World :=
  db_Select (fun s =>
    map (fun am => atg_article_number (snd am))
        (limit_offset perPage (wrap64 (perPage * pageNum))
                      (q_root_rows (ID g) s))) w.

(** ** Stores and what SaveArticle does to them *)

(** [s'] is [s] with rows added at the end of its tables, the memberships
    and attachments added being those of the article [id]. *)
Definition appended (id : Z) (s s' : Store) : Prop :=
  groups s' = groups s /\
  (exists ra, articles s' = articles s ++ ra) /\
  (exists rm, articles_to_groups s' = articles_to_groups s ++ rm /\
              Forall (fun m => atg_article_id m = id) rm) /\
  (exists rt, attachments_articles_mapping s' =
                attachments_articles_mapping s ++ rt /\
              Forall (fun r => att_article_id r = id) rt).

(** The stores SaveArticle can build, whatever the store answers, from
    tables that hold groups only. *)
Inductive reachable : Store -> Prop :=
| reach_groups (gs : list Group) : reachable (mkStore gs [] [] [])
| reach_save (a : Article) (names : list string) (w : World) :
    reachable (store w) -> reachable (store (snd (SaveArticle a names w))).

(** The numbers of every group are 1, 2, ..., in the order of insertion. *)
Definition dense (atg : list Membership) : Prop :=
  forall gid,
    map atg_article_number (filter (fun m => atg_group_id m =? gid) atg) =
    consecutive 1 (List.length (filter (fun m => atg_group_id m =? gid) atg)).

(** Every attachment row is of a stored article. *)
Definition attachments_of_articles (s : Store) : Prop :=
  forall r, In r (attachments_articles_mapping s) ->
            In (att_article_id r) (map art_id (articles s)).

(** The attachment a row of [attachments_articles_mapping] is scanned into. *)
Definition attachment_of_row (r : AttachmentRow) : Attachment :=
  mkAttachment (att_content_type r) (att_attachment_id r).

(** What GetNewArticlesSince returns for the rows its statement reads, on a
    store that answers: the strings scanned before the first NULL or the
    first header that is not JSON, and the error met there. *)
Definition message_ids_of (json_extract_message_id : string -> extracted)
  (rows : list ArticleRow) : list string * option error :=
  let '(vals, err) := extract_message_ids json_extract_message_id rows in
  match scan_strings vals with
  | (l, Some e) => (l, Some e)
  | (l, None) => (l, err)
  end.

(** ** Facts about the SQL building blocks *)

Lemma sql_max_spec (l : list Z) (m : Z) :
  sql_max l = Some m -> In m l /\ Forall (fun x => x <= m) l.
Proof.
  revert m. induction l as [|x t IH]; simpl; intros m H; [discriminate|].
  destruct (sql_max t) as [m'|] eqn:E.
  - inversion H; subst; clear H.
    destruct (IH m' eq_refl) as [Hin Hall]. split.
    + destruct (Z.max_spec x m') as [[_ ->]|[_ ->]]; auto.
    + constructor; [lia|].
      eapply Forall_impl; [|exact Hall]. simpl; intros; lia.
  - inversion H; subst; clear H. destruct t; [|simpl in E; destruct (sql_max t); discriminate].
    split; [now left|]. constructor; [lia|constructor].
Qed.

Lemma sql_min_spec (l : list Z) (m : Z) :
  sql_min l = Some m -> In m l /\ Forall (fun x => m <= x) l.
Proof.
  revert m. induction l as [|x t IH]; simpl; intros m H; [discriminate|].
  destruct (sql_min t) as [m'|] eqn:E.
  - inversion H; subst; clear H.
    destruct (IH m' eq_refl) as [Hin Hall]. split.
    + destruct (Z.min_spec x m') as [[_ ->]|[_ ->]]; auto.
    + constructor; [lia|].
      eapply Forall_impl; [|exact Hall]. simpl; intros; lia.
  - inversion H; subst; clear H. destruct t; [|simpl in E; destruct (sql_min t); discriminate].
    split; [now left|]. constructor; [lia|constructor].
Qed.

Lemma sql_max_None (l : list Z) : sql_max l = None <-> l = [].
Proof.
  split; [|intros ->; reflexivity].
  destruct l as [|x t]; [reflexivity|]. simpl. destruct (sql_max t); discriminate.
Qed.

Lemma sql_min_None (l : list Z) : sql_min l = None <-> l = [].
Proof.
  split; [|intros ->; reflexivity].
  destruct l as [|x t]; [reflexivity|]. simpl. destruct (sql_min t); discriminate.
Qed.

(** ** C4: watermarks *)

(** C4. On a store that answers, GetGroupHighWaterMark returns the greatest
    and GetGroupLowWaterMark the least article number of the group; for a
    group without articles both return 0 with no error; hence low <= high
    when GetArticlesCount is positive and both are 0 when it is 0. *)
Theorem C4_watermarks (g : Group) (s : Store) (t : Z) :
  let w := healthy s t in
  let ns := group_numbers (ID g) s in
  exists hi lo n,
    GetGroupHighWaterMark g w = ((hi, None), w) /\
    GetGroupLowWaterMark g w = ((lo, None), w) /\
    GetArticlesCount g w = ((n, None), w) /\
    n = Z.of_nat (List.length ns) /\
    (ns <> [] -> In hi ns /\ In lo ns /\ Forall (fun x => lo <= x <= hi) ns) /\
    (ns = [] -> hi = 0 /\ lo = 0) /\
    (n > 0 -> lo <= hi) /\
    (n = 0 -> hi = 0 /\ lo = 0).
Proof.
  intros w ns.
  exists (COALESCE (sql_max ns) 0), (COALESCE (sql_min ns) 0),
         (Z.of_nat (List.length ns)).
  assert (Hlen : List.length ns = List.length (memberships_of (ID g) s))
    by (unfold ns, group_numbers; apply length_map).
  assert (Hhi : GetGroupHighWaterMark g w = ((COALESCE (sql_max ns) 0, None), w))
    by reflexivity.
  assert (Hlo : GetGroupLowWaterMark g w = ((COALESCE (sql_min ns) 0, None), w))
    by reflexivity.
  clearbody ns.
  assert (Hne : ns <> [] ->
          In (COALESCE (sql_max ns) 0) ns /\ In (COALESCE (sql_min ns) 0) ns /\
          Forall (fun x => COALESCE (sql_min ns) 0 <= x <= COALESCE (sql_max ns) 0) ns).
  { intros Hn.
    destruct (sql_max ns) as [hi|] eqn:Ehi; [|apply sql_max_None in Ehi; contradiction].
    destruct (sql_min ns) as [lo|] eqn:Elo; [|apply sql_min_None in Elo; contradiction].
    destruct (sql_max_spec _ _ Ehi) as [H1 H2].
    destruct (sql_min_spec _ _ Elo) as [H3 H4]. simpl.
    repeat split; auto.
    rewrite Forall_forall in *. intros x Hx.
    specialize (H2 x Hx). specialize (H4 x Hx). simpl in *. lia. }
  assert (He : ns = [] -> COALESCE (sql_max ns) 0 = 0 /\ COALESCE (sql_min ns) 0 = 0)
    by (intros ->; split; reflexivity).
  split; [exact Hhi|]. split; [exact Hlo|]. clear Hhi Hlo.
  repeat split.
  - unfold GetArticlesCount, db_Get, db_GetScan, w, healthy; simpl.
    now rewrite <- Hlen.
  - exact (proj1 (Hne H)).
  - exact (proj1 (proj2 (Hne H))).
  - exact (proj2 (proj2 (Hne H))).
  - exact (proj1 (He H)).
  - exact (proj2 (He H)).
  - intros Hpos. destruct ns as [|x r]; [simpl in Hpos; lia|].
    destruct Hne as (_ & Hin & Hall); [discriminate|].
    rewrite Forall_forall in Hall. specialize (Hall _ Hin). cbv beta in Hall. lia.
  - apply He. destruct ns; [reflexivity|simpl in H; lia].
  - apply He. destruct ns; [reflexivity|simpl in H; lia].
Qed.

(** ** C2: the sentinel table of GetArticleNumbers *)

Lemma map_filter_and {A : Type} (f : A -> Z) (c : A -> bool) (p : Z -> bool)
  (l : list A) :
  map f (filter (fun m => c m && p (f m)) l) = filter p (map f (filter c l)).
Proof.
  induction l as [|x r IH]; simpl; [reflexivity|].
  destruct (c x); simpl; [|exact IH].
  destruct (p (f x)); simpl; now rewrite IH.
Qed.

Lemma filter_eq_NoDup (h : Z) (l : list Z) :
  NoDup l ->
  filter (fun n => n =? h) l = if in_dec Z.eq_dec h l then [h] else [].
Proof.
  induction l as [|x r IH]; intros Hl; simpl; [reflexivity|].
  apply NoDup_cons_iff in Hl. destruct Hl as [Hx Hnd]. specialize (IH Hnd).
  destruct (Z.eqb_spec x h) as [E|Hne]; [subst x|].
  - destruct (Z.eq_dec h h) as [E|C]; [|contradiction].
    rewrite IH. destruct (in_dec Z.eq_dec h r); [contradiction|reflexivity].
  - destruct (Z.eq_dec x h) as [C|E]; [contradiction|].
    rewrite IH. destruct (in_dec Z.eq_dec h r); reflexivity.
Qed.

Lemma db_Select_healthy {R : Type} (q : Store -> list R) (s : Store) (t : Z) :
  db_Select q (healthy s t) = ((q s, None), healthy s t).
Proof. reflexivity. Qed.

(** C2. With the numbers of the group distinct and counted from 1 (the
    invariant of the data model), GetArticleNumbers answers, on a store that
    answers: (0,0) all numbers of the group; (-1,h), h <> 0, [h] when h is
    present and nothing otherwise; (l,-1), l a bound (neither 0 nor -1), the
    numbers above l; (-1,-1) nothing; (l,h), both bounds, the numbers
    strictly between l and h. *)
Theorem C2_GetArticleNumbers (g : Group) (s : Store) (t : Z) :
  NoDup (group_numbers (ID g) s) ->
  Forall (fun n => 1 <= n) (group_numbers (ID g) s) ->
  let w := healthy s t in
  let ns := group_numbers (ID g) s in
  GetArticleNumbers g 0 0 w = ((ns, None), w) /\
  (forall h, h <> 0 ->
     GetArticleNumbers g (-1) h w =
       ((if in_dec Z.eq_dec h ns then [h] else [], None), w)) /\
  (forall l, l <> 0 -> l <> -1 ->
     GetArticleNumbers g l (-1) w = ((filter (fun n => l <? n) ns, None), w)) /\
  GetArticleNumbers g (-1) (-1) w = (([], None), w) /\
  (forall l h, l <> 0 -> l <> -1 -> h <> 0 -> h <> -1 ->
     GetArticleNumbers g l h w =
       ((filter (fun n => (l <? n) && (n <? h)) ns, None), w)).
Proof.
  intros Hnd Hpos w ns.
  assert (Hrow2 : forall h, h <> 0 ->
     GetArticleNumbers g (-1) h w =
       ((if in_dec Z.eq_dec h ns then [h] else [], None), w)).
  { intros h Hh. unfold GetArticleNumbers.
    destruct (Z.eqb_spec h 0) as [C|_]; [contradiction|]. simpl.
    unfold w. rewrite db_Select_healthy.
    rewrite (map_filter_and atg_article_number
               (fun m => atg_group_id m =? ID g) (fun n => n =? h)).
    fold (memberships_of (ID g) s). fold (group_numbers (ID g) s).
    now rewrite (filter_eq_NoDup h _ Hnd). }
  split; [reflexivity|]. split; [exact Hrow2|]. split; [|split].
  - intros l Hl Hl1. unfold GetArticleNumbers.
    destruct (Z.eqb_spec l 0) as [C|_]; [contradiction|].
    destruct (Z.eqb_spec l (-1)) as [C|_]; [contradiction|]. simpl.
    unfold w. rewrite db_Select_healthy.
    rewrite (map_filter_and atg_article_number
               (fun m => atg_group_id m =? ID g) (fun n => n >? l)).
    fold (memberships_of (ID g) s). fold (group_numbers (ID g) s).
    do 2 f_equal. apply filter_ext. intros n. apply Z.gtb_ltb.
  - rewrite Hrow2 by lia.
    destruct (in_dec Z.eq_dec (-1) ns) as [Hin|_]; [|reflexivity].
    rewrite Forall_forall in Hpos. specialize (Hpos _ Hin). simpl in Hpos. lia.
  - intros l h Hl Hl1 Hh Hh1. unfold GetArticleNumbers.
    destruct (Z.eqb_spec l 0) as [C|_]; [contradiction|].
    destruct (Z.eqb_spec l (-1)) as [C|_]; [contradiction|].
    destruct (Z.eqb_spec h 0) as [C|_]; [contradiction|].
    destruct (Z.eqb_spec h (-1)) as [C|_]; [contradiction|]. simpl.
    unfold w. rewrite db_Select_healthy.
    assert (E : forall l0, filter (fun m => (atg_group_id m =? ID g) &&
                         (atg_article_number m >? l) && (atg_article_number m <? h)) l0
              = filter (fun m => (atg_group_id m =? ID g) &&
                         ((l <? atg_article_number m) && (atg_article_number m <? h))) l0).
    { intros l0. apply filter_ext. intros m. rewrite Z.gtb_ltb.
      now rewrite andb_assoc. }
    rewrite E.
    rewrite (map_filter_and atg_article_number
               (fun m => atg_group_id m =? ID g) (fun n => (l <? n) && (n <? h))).
    reflexivity.
Qed.

(** ** SaveArticle, statement by statement *)

Lemma quiet_healthy (k : nat) (s : Store) (t : Z) : quiet k (healthy s t).
Proof. unfold quiet, healthy; simpl. rewrite firstn_nil. constructor. Qed.

Lemma later_healthy (k : nat) (s s' : Store) (t : Z) :
  later k s' (healthy s t) = healthy s' t.
Proof. unfold later, healthy; simpl. now rewrite skipn_nil. Qed.

Lemma later_0 (w : World) : later 0 (store w) w = w.
Proof. destruct w; reflexivity. Qed.

Lemma later_later (j k : nat) (s1 s2 : Store) (w : World) :
  later j s2 (later k s1 w) = later (k + j) s2 w.
Proof.
  unfold later; simpl. f_equal. rewrite skipn_skipn. f_equal. lia.
Qed.

Lemma quiet_S (k : nat) (w : World) :
  quiet (S k) w ->
  next_fault w = (None, later 1 (store w) w) /\
  forall s, quiet k (later 1 s w).
Proof.
  unfold quiet, next_fault, later. destruct w as [s0 fs t0]; simpl.
  destruct fs as [|f fs]; simpl; intros H.
  - split; [reflexivity|]. intros s. rewrite firstn_nil. constructor.
  - inversion H; subst. split; [reflexivity|]. intros s. assumption.
Qed.

Lemma quiet_add (j k : nat) (w : World) :
  quiet (j + k) w -> quiet j w /\ forall s, quiet k (later j s w).
Proof.
  revert w. induction j as [|j IH]; intros w H.
  - split; [constructor|]. intros s. unfold later, quiet in *; simpl in *. exact H.
  - simpl in H. destruct (quiet_S _ _ H) as [_ Hq].
    destruct w as [s0 fs t0]. unfold quiet, later in *; simpl in *.
    destruct fs as [|f fs]; simpl in *.
    + split; [constructor|]. intros s. rewrite firstn_nil. constructor.
    + inversion H; subst. specialize (IH (mkWorld s0 fs t0) H3); simpl in IH.
      destruct IH as [IH1 IH2]. split; [constructor; auto|exact IH2].
Qed.

Lemma db_Exec_quiet (stmt : Z -> Store -> Store * Z) (w : World) :
  quiet 1 w ->
  db_Exec stmt w =
    ((Some (mkResult (snd (stmt (now w) (store w)))), None),
     later 1 (fst (stmt (now w) (store w))) w).
Proof.
  intros H. unfold db_Exec. rewrite (proj1 (quiet_S _ _ H)). simpl.
  destruct (stmt (now w) (store w)); reflexivity.
Qed.

Lemma db_Exec_fault (stmt : Z -> Store -> Store * Z) (w : World) (code : string) :
  hd_error (faults w) = Some (Some code) ->
  db_Exec stmt w = ((None, Some (StoreError code)), later 1 (store w) w).
Proof.
  destruct w as [s fs t]; unfold db_Exec, next_fault, later; simpl.
  destruct fs as [|f fs]; simpl; intros H; inversion H; subst. reflexivity.
Qed.

Lemma db_GetScan_quiet {R D : Type} (q : Store -> list R) (scan : R -> D -> D)
  (dest : D) (w : World) :
  quiet 1 w ->
  db_GetScan q scan dest w =
    (match q (store w) with
     | [] => (dest, Some ErrNoRows)
     | r :: _ => (scan r dest, None)
     end, later 1 (store w) w).
Proof.
  intros H. unfold db_GetScan. rewrite (proj1 (quiet_S _ _ H)). simpl.
  destruct (q (store w)); reflexivity.
Qed.

(** ** C9: the unchecked error of the article insert *)

(** C9. When the store rejects the article insert, SaveArticle does not
    return the error: it panics, for every article and every list of names. *)
Theorem C9_SaveArticle_panics (a : Article) (names : list string)
  (s : Store) (code : string) (fs : list (option string)) (t : Z) :
  SaveArticle a names (mkWorld s (Some code :: fs) t) = (Panics, mkWorld s fs t).
Proof. reflexivity. Qed.

(** ** SaveArticle on a store that answers *)

Lemma GetGroup_quiet (name : string) (w : World) :
  quiet 1 w ->
  GetGroup name w =
    (match lookup_group name (store w) with
     | Some g => (g, None)
     | None => (zero_Group, Some ErrNoRows)
     end, later 1 (store w) w).
Proof.
  intros H. unfold GetGroup, db_Get. rewrite (db_GetScan_quiet _ _ _ _ H).
  unfold lookup_group.
  destruct (filter (fun g => (GroupName g =? name)%string) (groups (store w)));
    reflexivity.
Qed.

Lemma resolve_groups_ok (names : list string) :
  forall (acc ids : list Z) (w : World),
    quiet (List.length names) w ->
    resolved_ids names (store w) = Some ids ->
    resolve_groups names acc w =
      (inl (acc ++ ids), later (List.length names) (store w) w).
Proof.
  induction names as [|v rest IH]; intros acc ids w Hq Hr; simpl in *.
  - inversion Hr; subst. rewrite app_nil_r, later_0. reflexivity.
  - change (S (List.length rest)) with (1 + List.length rest)%nat in Hq.
    destruct (quiet_add _ _ _ Hq) as [Hq1 Hq2].
    rewrite (GetGroup_quiet _ _ Hq1).
    destruct (lookup_group (TrimSpace v) (store w)) as [g|]; [|discriminate].
    destruct (resolved_ids rest (store w)) as [ids'|] eqn:E; [|discriminate].
    simpl in Hr. inversion Hr; subst.
    rewrite (IH (acc ++ [ID g]) ids' (later 1 (store w) w) (Hq2 _) E).
    rewrite <- app_assoc. simpl. now rewrite later_later.
Qed.

Lemma resolve_groups_unknown (names : list string) :
  forall (acc : list Z) (w : World),
    quiet (List.length names) w ->
    resolved_ids names (store w) = None ->
    exists k, (k <= List.length names)%nat /\
      resolve_groups names acc w =
        (inr (Errorf "no such newsgroup"), later k (store w) w).
Proof.
  induction names as [|v rest IH]; intros acc w Hq Hr; simpl in *; [discriminate|].
  change (S (List.length rest)) with (1 + List.length rest)%nat in Hq.
  destruct (quiet_add _ _ _ Hq) as [Hq1 Hq2].
  rewrite (GetGroup_quiet _ _ Hq1).
  destruct (lookup_group (TrimSpace v) (store w)) as [g|].
  - destruct (resolved_ids rest (store w)) as [ids'|] eqn:E; [discriminate|].
    destruct (IH (acc ++ [ID g]) (later 1 (store w) w) (Hq2 _) E) as (k & Hk & Hres).
    exists (1 + k)%nat. split; [simpl; lia|].
    rewrite Hres. now rewrite later_later.
  - exists 1%nat. split; [lia|reflexivity].
Qed.

Lemma insert_memberships_ok (articleID : Z) (gids : list Z) :
  forall w, quiet (List.length gids) w ->
    insert_memberships articleID gids w =
      (None, later (List.length gids)
                   (add_memberships articleID gids (now w) (store w)) w).
Proof.
  induction gids as [|v rest IH]; intros w Hq; simpl in *.
  - now rewrite later_0.
  - change (S (List.length rest)) with (1 + List.length rest)%nat in Hq.
    destruct (quiet_add _ _ _ Hq) as [Hq1 Hq2].
    rewrite (db_Exec_quiet _ _ Hq1). simpl.
    rewrite (IH _ (Hq2 _)). simpl. now rewrite later_later.
Qed.

Lemma insert_memberships_fault (articleID : Z) (pre : list Z) (v : Z)
  (post : list Z) (code : string) :
  forall w, quiet (List.length pre) w ->
    nth_error (faults w) (List.length pre) = Some (Some code) ->
    insert_memberships articleID (pre ++ v :: post) w =
      (Some (StoreError code),
       later (S (List.length pre))
             (add_memberships articleID pre (now w) (store w)) w).
Proof.
  induction pre as [|u pre IH]; intros w Hq Hf; simpl in *.
  - rewrite (db_Exec_fault (insert_membership articleID v) w code).
    + reflexivity.
    + destruct (faults w); simpl in *; [discriminate|assumption].
  - change (S (List.length pre)) with (1 + List.length pre)%nat in Hq.
    destruct (quiet_add _ _ _ Hq) as [Hq1 Hq2].
    rewrite (db_Exec_quiet _ _ Hq1). simpl.
    rewrite (IH _ (Hq2 _)).
    + simpl. rewrite later_later. reflexivity.
    + simpl. destruct (faults w); simpl in *; [discriminate|assumption].
Qed.

Lemma insert_attachments_ok (articleID : Z) (atts : list Attachment) :
  forall w, quiet (List.length atts) w ->
    insert_attachments articleID atts w =
      (None, later (List.length atts)
                   (add_attachments articleID atts (now w) (store w)) w).
Proof.
  induction atts as [|v rest IH]; intros w Hq; simpl in *.
  - now rewrite later_0.
  - change (S (List.length rest)) with (1 + List.length rest)%nat in Hq.
    destruct (quiet_add _ _ _ Hq) as [Hq1 Hq2].
    rewrite (db_Exec_quiet _ _ Hq1). simpl.
    rewrite (IH _ (Hq2 _)). simpl. now rewrite later_later.
Qed.

Lemma resolved_ids_groups (names : list string) (s s' : Store) :
  groups s' = groups s -> resolved_ids names s' = resolved_ids names s.
Proof.
  intros E. induction names as [|v rest IH]; simpl; [reflexivity|].
  unfold lookup_group. rewrite E, IH. reflexivity.
Qed.

(** The store and the outcome of a save in which every name resolves. *)
Lemma SaveArticle_healthy_ok (a : Article) (names : list string) (ids : list Z)
  (s : Store) (t : Z) :
  resolved_ids names s = Some ids ->
  let s1 := fst (insert_article (HeaderRaw a) (Body a) (Thread a) t s) in
  let id := next_rowid (map art_id (articles s)) in
  SaveArticle a names (healthy s t) =
    (Returns None,
     healthy (add_attachments id (Attachments a) t (add_memberships id ids t s1)) t).
Proof.
  intros Hr s1 id. unfold SaveArticle.
  rewrite (db_Exec_quiet _ _ (quiet_healthy 1 s t)). simpl fst. simpl snd.
  cbv beta iota. simpl LastInsertId.
  rewrite later_healthy.
  rewrite (resolve_groups_ok names [] ids _ (quiet_healthy _ _ _))
    by (rewrite <- Hr; now apply resolved_ids_groups).
  simpl app. rewrite later_healthy.
  rewrite (insert_memberships_ok _ _ _ (quiet_healthy _ _ _)).
  rewrite later_healthy.
  rewrite (insert_attachments_ok _ _ _ (quiet_healthy _ _ _)).
  rewrite later_healthy. reflexivity.
Qed.

(** The same when some name does not resolve. *)
Lemma SaveArticle_healthy_unknown (a : Article) (names : list string)
  (s : Store) (t : Z) :
  resolved_ids names s = None ->
  SaveArticle a names (healthy s t) =
    (Returns (Some (Errorf "no such newsgroup")),
     healthy (fst (insert_article (HeaderRaw a) (Body a) (Thread a) t s)) t).
Proof.
  intros Hr. unfold SaveArticle.
  rewrite (db_Exec_quiet _ _ (quiet_healthy 1 s t)).
  cbv beta iota. rewrite later_healthy.
  change (store (healthy s t)) with s. change (now (healthy s t)) with t.
  destruct (resolve_groups_unknown names []
              (healthy (fst (insert_article (HeaderRaw a) (Body a) (Thread a) t s)) t)
              (quiet_healthy _ _ _))
    as (k & _ & Hres); [rewrite <- Hr; now apply resolved_ids_groups|].
  rewrite Hres. now rewrite later_healthy.
Qed.

(** ** strings.TrimSpace removes the white space around a name *)

Lemma white_app (l1 l2 : list ascii) : white l1 -> white l2 -> white (l1 ++ l2).
Proof.
  induction 1; simpl; intros; auto using white.
Qed.

(** Induction three bytes at a time, the way the trimming functions recurse. *)
Lemma list_ind3 {A : Type} (P : list A -> Prop) :
  (forall l, (forall l', (List.length l' < List.length l)%nat -> P l') -> P l) ->
  forall l, P l.
Proof.
  intros H l.
  assert (G : forall n l, (List.length l < n)%nat -> P l).
  { induction n as [|n IH]; intros l0 Hl; [lia|].
    apply H. intros l' Hl'. apply IH. lia. }
  apply (G (S (List.length l))). lia.
Qed.

Lemma trim_front_split (l : list ascii) :
  exists pre, white pre /\ l = pre ++ trim_front l /\ clean_front (trim_front l).
Proof.
  induction l as [l IH] using list_ind3. unfold clean_front in *.
  destruct l as [|a t]; simpl.
  - exists []. repeat split; constructor.
  - destruct (space1 a) eqn:E1.
    { destruct (IH t) as (pre & Hw & He & Hc); [simpl; lia|].
      exists (a :: pre). repeat split; [now apply white_1| |exact Hc].
      simpl. now rewrite <- He. }
    destruct t as [|b t2].
    { exists []. repeat split; [constructor|]. simpl. now rewrite E1. }
    destruct (space2 a b) eqn:E2.
    { destruct (IH t2) as (pre & Hw & He & Hc); [simpl; lia|].
      exists (a :: b :: pre). repeat split; [now apply white_2| |exact Hc].
      simpl. now rewrite <- He. }
    destruct t2 as [|c t3].
    { exists []. repeat split; [constructor|]. simpl. now rewrite E1, E2. }
    destruct (space3 a b c) eqn:E3.
    { destruct (IH t3) as (pre & Hw & He & Hc); [simpl; lia|].
      exists (a :: b :: c :: pre). repeat split; [now apply white_3| |exact Hc].
      simpl. now rewrite <- He. }
    exists []. repeat split; [constructor|]. simpl. now rewrite E1, E2, E3.
Qed.

Lemma trim_back_rev_split (l : list ascii) :
  exists post, white post /\ rev l = rev (trim_back_rev l) ++ post /\
               trim_back_rev (trim_back_rev l) = trim_back_rev l.
Proof.
  induction l as [l IH] using list_ind3.
  destruct l as [|a t]; simpl.
  - exists []. split; [constructor|]. split; reflexivity.
  - destruct (space1 a) eqn:E1.
    { destruct (IH t) as (post & Hw & He & Hc); [simpl; lia|].
      exists (post ++ [a]). split; [|split]; [|simpl; rewrite He; now rewrite app_assoc|exact Hc].
      apply white_app; [exact Hw|]. apply white_1; [exact E1|constructor]. }
    destruct t as [|b t2].
    { exists []. split; [constructor|]; split; [now rewrite app_nil_r|]. simpl. now rewrite E1. }
    destruct (space2 b a) eqn:E2.
    { destruct (IH t2) as (post & Hw & He & Hc); [simpl; lia|].
      exists (post ++ [b; a]). split; [|split]; [| |exact Hc].
      - apply white_app; [exact Hw|]. apply white_2; [exact E2|constructor].
      - simpl. rewrite He. rewrite <- !app_assoc. reflexivity. }
    destruct t2 as [|c t3].
    { exists []. split; [constructor|]; split; [now rewrite app_nil_r|]. simpl. now rewrite E1, E2. }
    destruct (space3 c b a) eqn:E3.
    { destruct (IH t3) as (post & Hw & He & Hc); [simpl; lia|].
      exists (post ++ [c; b; a]). split; [|split]; [| |exact Hc].
      - apply white_app; [exact Hw|]. apply white_3; [exact E3|constructor].
      - simpl. rewrite He. rewrite <- !app_assoc. reflexivity. }
    exists []. split; [constructor|]; split; [now rewrite app_nil_r|].
    simpl. now rewrite E1, E2, E3.
Qed.

Lemma trim_front_length (l : list ascii) :
  (List.length (trim_front l) <= List.length l)%nat.
Proof.
  destruct (trim_front_split l) as (pre & _ & He & _).
  rewrite He at 2. rewrite length_app. lia.
Qed.

Lemma trim_front_shorter (l l' : list ascii) :
  (List.length l < List.length l')%nat -> trim_front l <> l'.
Proof.
  intros H E. pose proof (trim_front_length l) as L. rewrite E in L. lia.
Qed.

Lemma trim_front_cons (a : ascii) (t : list ascii) :
  trim_front (a :: t) =
    if space1 a then trim_front t else
    match t with
    | b :: t2 =>
        if space2 a b then trim_front t2 else
        match t2 with
        | c :: t3 => if space3 a b c then trim_front t3 else a :: t
        | [] => a :: t
        end
    | [] => a :: t
    end.
Proof. reflexivity. Qed.

(** Trimming at the back leaves the front clean. *)
Lemma clean_front_prefix (r post : list ascii) :
  clean_front (r ++ post) -> clean_front r.
Proof.
  unfold clean_front.
  destruct r as [|a [|b [|c r]]]; [reflexivity|..];
    cbn [app]; intros H; rewrite trim_front_cons in H; rewrite trim_front_cons;
    cbv iota in *.
  - destruct (space1 a); [|reflexivity].
    exfalso. revert H. apply trim_front_shorter. simpl; lia.
  - destruct (space1 a).
    { exfalso. revert H. apply trim_front_shorter. simpl; lia. }
    destruct (space2 a b); [|reflexivity].
    exfalso. revert H. apply trim_front_shorter. simpl; lia.
  - destruct (space1 a).
    { exfalso. revert H. apply trim_front_shorter. simpl. rewrite length_app. lia. }
    destruct (space2 a b).
    { exfalso. revert H. apply trim_front_shorter. simpl. rewrite length_app. lia. }
    destruct (space3 a b c); [|reflexivity].
    exfalso. revert H. apply trim_front_shorter. simpl. rewrite length_app. lia.
Qed.

Lemma TrimSpace_trimmed (s : string) : trimmed_of s (TrimSpace s).
Proof.
  unfold trimmed_of, TrimSpace.
  rewrite list_ascii_of_string_of_list_ascii.
  destruct (trim_front_split (list_ascii_of_string s)) as (pre & Hpre & He & Hcf).
  destruct (trim_back_rev_split (rev (trim_front (list_ascii_of_string s))))
    as (post & Hpost & Hb & Hcb).
  rewrite rev_involutive in Hb.
  exists pre, post. split; [exact Hpre|]. split; [exact Hpost|].
  split; [|split].
  - rewrite <- Hb. exact He.
  - apply clean_front_prefix with (post := post). now rewrite <- Hb.
  - unfold clean_back. now rewrite rev_involutive.
Qed.

(** ** C6: names are trimmed and resolved; an unknown name is NoSuchGroup *)

Lemma lookup_group_None (name : string) (s : Store) :
  lookup_group name s = None <->
  forall g, In g (groups s) -> GroupName g <> name.
Proof.
  unfold lookup_group. induction (groups s) as [|g r IH]; simpl.
  - split; [intros _ g []|reflexivity].
  - destruct (String.eqb_spec (GroupName g) name) as [E|N]; simpl.
    + split; [discriminate|]. intros H. exfalso. apply (H g); auto.
    + rewrite IH. split.
      * intros H g' [<-|Hin]; auto.
      * intros H g' Hin. apply H. now right.
Qed.

Lemma resolved_ids_None (names : list string) (s : Store) :
  resolved_ids names s = None <->
  exists v, In v names /\ lookup_group (TrimSpace v) s = None.
Proof.
  induction names as [|v rest IH]; simpl.
  - split; [discriminate|]. intros (v & [] & _).
  - destruct (lookup_group (TrimSpace v) s) as [g|] eqn:E.
    + destruct (resolved_ids rest s) as [ids|]; simpl.
      * split; [discriminate|]. intros (u & [<-|Hin] & Hu); [congruence|].
        assert (C : Some ids = None) by (apply IH; eauto).
        discriminate C.
      * split; [|reflexivity]. intros _.
        destruct IH as [IH1 _]. destruct (IH1 eq_refl) as (u & Hin & Hu). eauto.
    + split; [|reflexivity]. intros _. exists v. auto.
Qed.

Lemma resolved_ids_Some (names : list string) (s : Store) (ids : list Z) :
  resolved_ids names s = Some ids <->
  Forall2 (fun v id => exists g, lookup_group (TrimSpace v) s = Some g /\ ID g = id)
          names ids.
Proof.
  revert ids. induction names as [|v rest IH]; intros ids; simpl.
  - split; intros H; inversion H; subst; [constructor|reflexivity].
  - split.
    + destruct (lookup_group (TrimSpace v) s) as [g|] eqn:E; [|discriminate].
      destruct (resolved_ids rest s) as [ids'|]; [|discriminate].
      simpl. intros H; inversion H; subst. constructor; [eauto|]. now apply IH.
    + intros H; inversion H as [|? id ? ids' (g & Hg & Hid) Hrest]; subst.
      rewrite Hg. apply IH in Hrest. rewrite Hrest. reflexivity.
Qed.

Lemma numbered_next_insert (articleID v : Z) (s : Store) :
  numbered_next (articles_to_groups s)
    (mkMembership articleID (next_article_number v s) v).
Proof.
  unfold numbered_next; simpl.
  unfold next_article_number, group_numbers, memberships_of.
  set (ns := map atg_article_number
               (filter (fun x => atg_group_id x =? v) (articles_to_groups s))).
  destruct (sql_max ns) as [m|] eqn:E; simpl.
  - destruct (sql_max_spec _ _ E) as [Hin Hall]. split.
    + intros Hnil. rewrite Hnil in Hin. destruct Hin.
    + intros mx Hmx Hub. rewrite Forall_forall in Hall, Hub.
      specialize (Hall _ Hmx). specialize (Hub _ Hin). simpl in *. lia.
  - apply sql_max_None in E. split; [reflexivity|].
    intros mx Hmx. rewrite E in Hmx. destruct Hmx.
Qed.

Lemma add_memberships_tables (articleID : Z) (gids : list Z) (t : Z) :
  forall s,
    groups (add_memberships articleID gids t s) = groups s /\
    articles (add_memberships articleID gids t s) = articles s /\
    attachments_articles_mapping (add_memberships articleID gids t s) =
      attachments_articles_mapping s /\
    exists news,
      articles_to_groups (add_memberships articleID gids t s) =
        articles_to_groups s ++ news /\
      map atg_group_id news = gids /\
      Forall (fun m => atg_article_id m = articleID) news /\
      numbered_in_turn (articles_to_groups s) news.
Proof.
  unfold add_memberships.
  induction gids as [|v rest IH]; intros s; simpl.
  - repeat split. exists []. rewrite app_nil_r. repeat split. constructor.
  - destruct (IH (fst (insert_membership articleID v t s)))
      as (Hg & Ha & Hatt & news & Hn & Hm & Hid & Hturn).
    simpl in *. repeat split; try assumption.
    exists (mkMembership articleID (next_article_number v s) v :: news).
    split; [rewrite Hn, <- app_assoc; reflexivity|].
    split; [simpl; now rewrite Hm|].
    split; [constructor; [reflexivity|assumption]|].
    simpl. split; [apply numbered_next_insert|exact Hturn].
Qed.

Lemma add_attachments_tables (articleID : Z) (atts : list Attachment) (t : Z) :
  forall s,
    groups (add_attachments articleID atts t s) = groups s /\
    articles (add_attachments articleID atts t s) = articles s /\
    articles_to_groups (add_attachments articleID atts t s) =
      articles_to_groups s /\
    attachments_articles_mapping (add_attachments articleID atts t s) =
      attachments_articles_mapping s ++
      map (fun v => mkAttachmentRow articleID (ContentType v) (FileName v)) atts.
Proof.
  unfold add_attachments.
  induction atts as [|v rest IH]; intros s; simpl.
  - now rewrite app_nil_r.
  - destruct (IH (fst (insert_attachment articleID v t s))) as (Hg & Ha & Hm & Hatt).
    simpl in *. repeat split; try assumption.
    rewrite Hatt, <- app_assoc. reflexivity.
Qed.

(** C6. Every name is used trimmed of the white space around it; on a store
    that answers, a trimmed name that is the name of no group makes
    SaveArticle fail with the error "no such newsgroup" (not sql.ErrNoRows),
    and when every trimmed name is the name of a group the save succeeds and
    adds one membership per name, in the group found for the trimmed name. *)
Theorem C6_SaveArticle_NoSuchGroup (a : Article) (names : list string)
  (s : Store) (t : Z) :
  (forall v, In v names -> trimmed_of v (TrimSpace v)) /\
  ((exists v, In v names /\
              forall g, In g (groups s) -> GroupName g <> TrimSpace v) ->
   fst (SaveArticle a names (healthy s t)) =
     Returns (Some (Errorf "no such newsgroup")) /\
   fst (SaveArticle a names (healthy s t)) <> Returns (Some ErrNoRows)) /\
  (forall ids,
     Forall2 (fun v id => exists g, GetGroup (TrimSpace v) (healthy s t) =
                                      ((g, None), healthy s t) /\ ID g = id)
             names ids ->
     fst (SaveArticle a names (healthy s t)) = Returns None /\
     exists news,
       articles_to_groups (saved a names t s) = articles_to_groups s ++ news /\
       map atg_group_id news = ids).
Proof.
  split; [intros v _; apply TrimSpace_trimmed|]. split.
  - intros (v & Hin & Hv).
    assert (Hr : resolved_ids names s = None).
    { apply resolved_ids_None. exists v. split; [exact Hin|].
      now apply lookup_group_None. }
    rewrite (SaveArticle_healthy_unknown a names s t Hr). simpl.
    split; [reflexivity|discriminate].
  - intros ids Hall.
    assert (Hr : resolved_ids names s = Some ids).
    { apply resolved_ids_Some. eapply Forall2_impl; [|exact Hall].
      intros v id (g & Hg & Hid). exists g. split; [|exact Hid].
      rewrite (GetGroup_quiet _ _ (quiet_healthy 1 s t)) in Hg.
      change (store (healthy s t)) with s in Hg.
      destruct (lookup_group (TrimSpace v) s); inversion Hg; subst; reflexivity. }
    unfold saved. rewrite (SaveArticle_healthy_ok a names ids s t Hr).
    cbn [fst snd store healthy]. split; [reflexivity|].
    destruct (add_attachments_tables (next_rowid (map art_id (articles s)))
                (Attachments a) t
                (add_memberships (next_rowid (map art_id (articles s))) ids t
                   (fst (insert_article (HeaderRaw a) (Body a) (Thread a) t s))))
      as (_ & _ & Hm & _).
    rewrite Hm.
    destruct (add_memberships_tables (next_rowid (map art_id (articles s))) ids t
                (fst (insert_article (HeaderRaw a) (Body a) (Thread a) t s)))
      as (_ & _ & _ & news & Hn & Hg & _).
    exists news. split; [exact Hn|exact Hg].
Qed.

(** ** C1: the numbering rule *)

Lemma next_article_number_gt (gid : Z) (s : Store) :
  Forall (fun o => o < next_article_number gid s) (group_numbers gid s).
Proof.
  unfold next_article_number.
  destruct (sql_max (group_numbers gid s)) as [m|] eqn:E; simpl.
  - destruct (sql_max_spec _ _ E) as [_ Hall].
    eapply Forall_impl; [|exact Hall]. simpl; intros; lia.
  - apply sql_max_None in E. rewrite E. constructor.
Qed.

Lemma group_numbers_insert (articleID v gid t : Z) (s : Store) :
  group_numbers gid (fst (insert_membership articleID v t s)) =
    group_numbers gid s ++
    (if v =? gid then [next_article_number v s] else []).
Proof.
  unfold group_numbers, memberships_of; simpl.
  rewrite filter_app, map_app. simpl.
  destruct (v =? gid); reflexivity.
Qed.

Lemma StronglySorted_lt_NoDup (l : list Z) : StronglySorted Z.lt l -> NoDup l.
Proof.
  induction 1 as [|x l Hs IH Hx]; constructor; [|exact IH].
  intros Hin. rewrite Forall_forall in Hx. specialize (Hx _ Hin). lia.
Qed.

Lemma NoDup_app_above (old added : list Z) :
  NoDup old -> StronglySorted Z.lt added ->
  Forall (fun n => Forall (fun o => o < n) old) added ->
  NoDup (old ++ added).
Proof.
  intros Hold Hs Hab. induction old as [|o old IH]; simpl.
  - now apply StronglySorted_lt_NoDup.
  - apply NoDup_cons_iff in Hold. destruct Hold as [Ho Hold]. constructor.
    + intros Hin. apply in_app_or in Hin. destruct Hin as [Hin|Hin]; [auto|].
      rewrite Forall_forall in Hab. specialize (Hab _ Hin).
      inversion Hab; subst. lia.
    + apply IH; [exact Hold|].
      eapply Forall_impl; [|exact Hab]. intros n Hn. now inversion Hn.
Qed.

Lemma consecutive_from (from : Z) (k : nat) :
  StronglySorted Z.lt (consecutive from k) /\
  Forall (fun n => from <= n) (consecutive from k).
Proof.
  revert from. induction k as [|k IH]; intros from; simpl.
  - split; constructor.
  - destruct (IH (from + 1)) as [Hs Hge]. split.
    + constructor; [exact Hs|].
      eapply Forall_impl; [|exact Hge]. simpl; intros; lia.
    + constructor; [lia|].
      eapply Forall_impl; [|exact Hge]. simpl; intros; lia.
Qed.

Lemma sql_max_snoc (l : list Z) (n : Z) :
  Forall (fun o => o < n) l -> sql_max (l ++ [n]) = Some n.
Proof.
  induction l as [|x r IH]; simpl; intros H; [reflexivity|].
  inversion H; subst. rewrite (IH H3). f_equal. lia.
Qed.

Lemma next_article_number_insert (articleID v gid t : Z) (s : Store) :
  next_article_number gid (fst (insert_membership articleID v t s)) =
    if v =? gid then next_article_number gid s + 1
    else next_article_number gid s.
Proof.
  unfold next_article_number at 1. rewrite group_numbers_insert.
  destruct (Z.eqb_spec v gid) as [E|Hne].
  - subst v. rewrite (sql_max_snoc _ _ (next_article_number_gt gid s)). reflexivity.
  - now rewrite app_nil_r.
Qed.

(** The numbers a save adds to a group are consecutive from the next one. *)
Lemma group_numbers_add (articleID : Z) (gids : list Z) (t gid : Z) :
  forall s,
    group_numbers gid (add_memberships articleID gids t s) =
      group_numbers gid s ++
      consecutive (next_article_number gid s)
                  (List.length (filter (fun v => v =? gid) gids)).
Proof.
  unfold add_memberships.
  induction gids as [|v rest IH]; intros s; cbn [fold_left filter].
  - simpl. now rewrite app_nil_r.
  - rewrite IH, group_numbers_insert, next_article_number_insert.
    destruct (Z.eqb_spec v gid) as [E|Hne]; cbn [List.length consecutive].
    + subst v. rewrite <- app_assoc. reflexivity.
    + rewrite app_nil_r. reflexivity.
Qed.

Lemma group_numbers_saved (a : Article) (names : list string) (ids : list Z)
  (s : Store) (t gid : Z) :
  resolved_ids names s = Some ids ->
  group_numbers gid (saved a names t s) =
    group_numbers gid s ++
    consecutive (next_article_number gid s)
                (List.length (filter (fun v => v =? gid) ids)).
Proof.
  intros Hr. unfold saved.
  rewrite (SaveArticle_healthy_ok a names ids s t Hr).
  cbn [snd store healthy].
  set (id := next_rowid (map art_id (articles s))).
  set (s1 := fst (insert_article (HeaderRaw a) (Body a) (Thread a) t s)).
  destruct (add_attachments_tables id (Attachments a) t (add_memberships id ids t s1))
    as (_ & _ & Hm & _).
  unfold group_numbers at 1, memberships_of. rewrite Hm.
  fold (memberships_of gid (add_memberships id ids t s1)).
  fold (group_numbers gid (add_memberships id ids t s1)).
  rewrite group_numbers_add. reflexivity.
Qed.

Lemma saved_tables (a : Article) (names : list string) (ids : list Z)
  (s : Store) (t : Z) :
  resolved_ids names s = Some ids ->
  groups (saved a names t s) = groups s /\
  exists news,
    articles_to_groups (saved a names t s) = articles_to_groups s ++ news /\
    map atg_group_id news = ids /\
    Forall (fun m => atg_article_id m = next_rowid (map art_id (articles s))) news /\
    numbered_in_turn (articles_to_groups s) news.
Proof.
  intros Hr. unfold saved.
  rewrite (SaveArticle_healthy_ok a names ids s t Hr).
  cbn [snd store healthy].
  set (id := next_rowid (map art_id (articles s))).
  set (s1 := fst (insert_article (HeaderRaw a) (Body a) (Thread a) t s)).
  destruct (add_attachments_tables id (Attachments a) t (add_memberships id ids t s1))
    as (Hg & _ & Hm & _).
  destruct (add_memberships_tables id ids t s1) as (Hg1 & _ & _ & news & Hn & Hrest).
  rewrite Hg, Hg1, Hm. split; [reflexivity|]. exists news. split; [exact Hn|exact Hrest].
Qed.

Lemma all_resolve (names : list string) (s : Store) :
  (forall v, In v names ->
     exists g, In g (groups s) /\ GroupName g = TrimSpace v) ->
  exists ids, resolved_ids names s = Some ids.
Proof.
  intros H. destruct (resolved_ids names s) as [ids|] eqn:E; [eauto|].
  apply resolved_ids_None in E. destruct E as (v & Hin & Hv).
  destruct (H v Hin) as (g & Hg & Hname).
  exfalso. exact (proj1 (lookup_group_None _ _) Hv g Hg Hname).
Qed.

(** A call to the store leaves it as it was or applies the statement. *)
Lemma db_Exec_store (stmt : Z -> Store -> Store * Z) (w : World) :
  (fst (fst (db_Exec stmt w)) = None /\ snd (fst (db_Exec stmt w)) <> None /\
   store (snd (db_Exec stmt w)) = store w) \/
  (exists id, fst (fst (db_Exec stmt w)) = Some (mkResult id) /\
   id = snd (stmt (now w) (store w)) /\
   snd (fst (db_Exec stmt w)) = None /\
   store (snd (db_Exec stmt w)) = fst (stmt (now w) (store w))).
Proof.
  unfold db_Exec, next_fault. destruct w as [s fs t]; simpl.
  destruct fs as [|[code|] fs]; simpl.
  - right. destruct (stmt t s) as [s' id]. simpl. eauto.
  - left. repeat split. discriminate.
  - right. destruct (stmt t s) as [s' id]. simpl. eauto.
Qed.

Lemma db_GetScan_store {R D : Type} (q : Store -> list R) (scan : R -> D -> D)
  (dest : D) (w : World) :
  store (snd (db_GetScan q scan dest w)) = store w.
Proof.
  unfold db_GetScan, next_fault. destruct w as [s fs t]; simpl.
  destruct fs as [|[code|] fs]; simpl; try reflexivity;
    destruct (q s); reflexivity.
Qed.

Lemma resolve_groups_store (names : list string) :
  forall acc w, store (snd (resolve_groups names acc w)) = store w.
Proof.
  induction names as [|v rest IH]; intros acc w; simpl; [reflexivity|].
  pose proof (db_GetScan_store
                (fun s => filter (fun g => String.eqb (GroupName g) (TrimSpace v))
                                 (groups s))
                (fun r _ => r) zero_Group w) as Hs.
  unfold GetGroup, db_Get.
  destruct (db_GetScan _ _ zero_Group w) as [[g err] w1]. simpl in Hs.
  destruct err as [e|].
  - destruct (is_ErrNoRows e); exact Hs.
  - rewrite IH. exact Hs.
Qed.

(** Whatever the store answers, the rows the second loop adds follow the
    numbering rule. *)
Lemma insert_memberships_rows (articleID : Z) (gids : list Z) :
  forall w, exists news,
    articles_to_groups (store (snd (insert_memberships articleID gids w))) =
      articles_to_groups (store w) ++ news /\
    numbered_in_turn (articles_to_groups (store w)) news.
Proof.
  induction gids as [|v rest IH]; intros w; simpl.
  - exists []. now rewrite app_nil_r.
  - destruct (db_Exec_store (insert_membership articleID v) w)
      as [(_ & Herr & Hs)|(id & _ & _ & Herr & Hs)];
      destruct (db_Exec (insert_membership articleID v) w) as [[res err] w1];
      simpl in *.
    + destruct err as [e|]; [|contradiction]. simpl. rewrite Hs.
      exists []. now rewrite app_nil_r.
    + subst err. destruct (IH w1) as (news & Hn & Hturn).
      rewrite Hs in Hn, Hturn. simpl in Hn, Hturn.
      exists (mkMembership articleID (next_article_number v (store w)) v :: news).
      split; [rewrite Hn, <- app_assoc; reflexivity|].
      simpl. split; [apply numbered_next_insert|exact Hturn].
Qed.

Lemma insert_attachments_memberships (articleID : Z) (atts : list Attachment) :
  forall w,
    articles_to_groups (store (snd (insert_attachments articleID atts w))) =
      articles_to_groups (store w).
Proof.
  induction atts as [|v rest IH]; intros w; simpl; [reflexivity|].
  destruct (db_Exec_store (insert_attachment articleID v) w)
    as [(_ & Herr & Hs)|(id & _ & _ & Herr & Hs)];
    destruct (db_Exec (insert_attachment articleID v) w) as [[res err] w1];
    simpl in *.
  - destruct err as [e|]; [|contradiction]. simpl. now rewrite Hs.
  - subst err. rewrite IH, Hs. reflexivity.
Qed.

Lemma SaveArticle_rows (a : Article) (names : list string) (w : World) :
  exists news,
    articles_to_groups (store (snd (SaveArticle a names w))) =
      articles_to_groups (store w) ++ news /\
    numbered_in_turn (articles_to_groups (store w)) news.
Proof.
  unfold SaveArticle.
  destruct (db_Exec_store (insert_article (HeaderRaw a) (Body a) (Thread a)) w)
    as [(Hres & _ & Hs)|(id & Hres & Hid & _ & Hs)];
    destruct (db_Exec (insert_article (HeaderRaw a) (Body a) (Thread a)) w)
      as [[res err] w1]; simpl in Hres, Hs; subst res.
  - simpl. rewrite Hs. exists []. now rewrite app_nil_r.
  - cbn [LastInsertId].
    assert (Ha : articles_to_groups (store w1) = articles_to_groups (store w))
      by (rewrite Hs; reflexivity).
    pose proof (resolve_groups_store names [] w1) as Hr.
    destruct (resolve_groups names [] w1) as [[gids|e] w2]; simpl in Hr.
    + destruct (insert_memberships_rows id gids w2) as (news & Hn & Hturn).
      rewrite Hr, Ha in Hn, Hturn.
      pose proof (insert_attachments_memberships id (Attachments a)
                    (snd (insert_memberships id gids w2))) as Hatt.
      destruct (insert_memberships id gids w2) as [[e|] w3]; simpl in *.
      * exists news. auto.
      * destruct (insert_attachments id (Attachments a) w3) as [[e|] w4];
          simpl in *; exists news; rewrite Hatt; auto.
    + simpl. rewrite Hr, Ha. exists []. now rewrite app_nil_r.
Qed.

(** C1. Whatever the store answers, each membership row SaveArticle inserts
    gets the number 1 if its group has no row so far and otherwise the
    greatest number of the group plus 1.  On a store that answers, when
    every name resolves, the save succeeds; the numbers it adds to a group
    are increasing and above all earlier numbers of the group, so distinct
    numbers stay distinct; and three saves in a row into a group without
    articles number them 1, 2, 3. *)
Theorem C1_numbering (a : Article) (names : list string) (s : Store) (t : Z) :
  (forall w, exists news,
     articles_to_groups (store (snd (SaveArticle a names w))) =
       articles_to_groups (store w) ++ news /\
     numbered_in_turn (articles_to_groups (store w)) news) /\
  ((forall v, In v names ->
      exists g, In g (groups s) /\ GroupName g = TrimSpace v) ->
   fst (SaveArticle a names (healthy s t)) = Returns None /\
   (forall gid, exists added,
      group_numbers gid (saved a names t s) = group_numbers gid s ++ added /\
      StronglySorted Z.lt added /\
      Forall (fun n => Forall (fun o => o < n) (group_numbers gid s)) added /\
      (NoDup (group_numbers gid s) ->
       NoDup (group_numbers gid (saved a names t s)))) /\
   (forall (g : Group) (name : string) (a2 a3 : Article) (t2 t3 : Z),
      names = [name] ->
      lookup_group (TrimSpace name) s = Some g ->
      group_numbers (ID g) s = [] ->
      group_numbers (ID g) (saved a names t s) = [1] /\
      group_numbers (ID g) (saved a2 names t2 (saved a names t s)) = [1; 2] /\
      group_numbers (ID g)
        (saved a3 names t3 (saved a2 names t2 (saved a names t s))) = [1; 2; 3])).
Proof.
  split; [intros w; apply SaveArticle_rows|].
  intros Hall. destruct (all_resolve names s Hall) as (ids & Hr).
  split; [|split].
  - now rewrite (SaveArticle_healthy_ok a names ids s t Hr).
  - intros gid.
    set (k := List.length (filter (fun v => v =? gid) ids)).
    exists (consecutive (next_article_number gid s) k).
    destruct (consecutive_from (next_article_number gid s) k) as [Hs Hge].
    assert (Hab : Forall (fun n => Forall (fun o => o < n) (group_numbers gid s))
                   (consecutive (next_article_number gid s) k)).
    { eapply Forall_impl; [|exact Hge]. intros n Hn.
      eapply Forall_impl; [|apply next_article_number_gt].
      cbv beta in *. intros o Ho. lia. }
    rewrite (group_numbers_saved a names ids s t gid Hr).
    split; [reflexivity|]. split; [exact Hs|]. split; [exact Hab|].
    intros Hnd. now apply NoDup_app_above.
  - intros g name a2 a3 t2 t3 -> Hg Hfresh.
    simpl in Hr. rewrite Hg in Hr. simpl in Hr. inversion Hr; subst ids; clear Hr.
    assert (R : forall s', groups s' = groups s ->
                           resolved_ids [name] s' = Some [ID g]).
    { intros s' E. rewrite (resolved_ids_groups [name] s s' E). simpl. now rewrite Hg. }
    assert (Step : forall b u s', groups s' = groups s ->
              groups (saved b [name] u s') = groups s /\
              group_numbers (ID g) (saved b [name] u s') =
                group_numbers (ID g) s' ++ [next_article_number (ID g) s']).
    { intros b u s' E. split.
      - rewrite (proj1 (saved_tables b [name] [ID g] s' u (R s' E))). exact E.
      - rewrite (group_numbers_saved b [name] [ID g] s' u (ID g) (R s' E)). simpl.
        now rewrite Z.eqb_refl. }
    destruct (Step a t s eq_refl) as [G1 N1].
    destruct (Step a2 t2 _ G1) as [G2 N2].
    destruct (Step a3 t3 _ G2) as [G3 N3].
    unfold next_article_number in N1, N2, N3.
    rewrite Hfresh in N1. simpl in N1.
    rewrite N1 in N2. simpl in N2.
    rewrite N2 in N3. simpl in N3. auto.
Qed.

(** ** C5: the writes of SaveArticle are not one unit *)

(** C5, refuted as stated. A save naming an unknown group fails and leaves
    its article row in the store, where GetNewArticlesSince reports it; a
    save whose second membership insert is rejected fails and leaves the
    article row and the first membership, which GetArticleNumbers and
    GetArticleByNumber report. *)
Lemma C5_partial_state_remains :
  fst save_unknown_group = Returns (Some (Errorf "no such newsgroup")) /\
  articles (store (snd save_unknown_group)) =
    [mkArticleRow 1 10 (header_text "<1@x>") "body" None] /\
  fst (GetNewArticlesSince sample_message_id 0 (snd save_unknown_group)) =
    (["<1@x>"], None) /\
  fst save_locked_store = Returns (Some (StoreError "database is locked")) /\
  articles_to_groups (store (snd save_locked_store)) = [mkMembership 1 1 1] /\
  fst (GetArticleNumbers (mkGroup 1 "comp.lang.go" 100) 0 0
         (snd save_locked_store)) = ([1], None) /\
  ArticleID (fst (fst (GetArticleByNumber sample_Unmarshal
                         (mkGroup 1 "comp.lang.go" 100) 1
                         (snd save_locked_store)))) = 1.
Proof. vm_compute. repeat split. Qed.

Lemma quiet_repeat (k : nat) (rest : list (option string)) (s : Store) (t : Z) :
  quiet k (mkWorld s (repeat None k ++ rest) t).
Proof.
  unfold quiet; simpl. rewrite firstn_app, repeat_length, Nat.sub_diag.
  simpl. rewrite app_nil_r. rewrite firstn_all2 by (rewrite repeat_length; lia).
  apply Forall_forall. intros x Hx. now apply repeat_spec in Hx.
Qed.

(** A save whose membership insert number [length pre] is rejected. *)
Lemma SaveArticle_membership_fault (a : Article) (names : list string)
  (pre : list Z) (v : Z) (post : list Z) (code : string) (w : World) :
  resolved_ids names (store w) = Some (pre ++ v :: post) ->
  quiet (1 + List.length names + List.length pre) w ->
  nth_error (faults w) (1 + List.length names + List.length pre) =
    Some (Some code) ->
  SaveArticle a names w =
    (Returns (Some (StoreError code)),
     later (S (1 + List.length names + List.length pre))
       (add_memberships (next_rowid (map art_id (articles (store w)))) pre (now w)
          (fst (insert_article (HeaderRaw a) (Body a) (Thread a) (now w) (store w))))
       w).
Proof.
  intros Hr Hq Hf. unfold SaveArticle.
  rewrite <- Nat.add_assoc in Hq.
  destruct (quiet_add _ _ _ Hq) as [Hq1 Hq2].
  rewrite (db_Exec_quiet _ _ Hq1). cbv beta iota.
  set (s1 := fst (insert_article (HeaderRaw a) (Body a) (Thread a) (now w) (store w))).
  specialize (Hq2 s1).
  destruct (quiet_add _ _ _ Hq2) as [Hq3 Hq4].
  rewrite (resolve_groups_ok names [] (pre ++ v :: post) _ Hq3)
    by (rewrite <- Hr; now apply resolved_ids_groups).
  cbn [app]. rewrite later_later.
  cbn [store later].
  specialize (Hq4 s1). rewrite later_later in Hq4.
  rewrite (insert_memberships_fault _ pre v post code _ Hq4).
  - rewrite later_later. cbn [now store later].
    do 2 f_equal. lia.
  - cbn [faults later]. rewrite nth_error_skipn. rewrite <- Hf. f_equal; lia.
Qed.

(** C5, as the code has it. The writes are separate statements with nothing
    undone on failure. On a store that answers, a name that resolves to no
    group makes the save fail after the article row is inserted and before
    any membership or attachment insert: the article row stays, no other
    row is added. When the store rejects a membership insert, the article
    row and the memberships inserted before it stay. *)
Theorem C5_SaveArticle_keeps_earlier_writes (a : Article) (names : list string)
  (s : Store) (t : Z) :
  let id := next_rowid (map art_id (articles s)) in
  let s1 := mkStore (groups s)
              (articles s ++ [mkArticleRow id t (HeaderRaw a) (Body a) (Thread a)])
              (articles_to_groups s) (attachments_articles_mapping s) in
  ((exists v, In v names /\
              forall g, In g (groups s) -> GroupName g <> TrimSpace v) ->
   SaveArticle a names (healthy s t) =
     (Returns (Some (Errorf "no such newsgroup")), healthy s1 t)) /\
  (forall pre v post code rest,
     resolved_ids names s = Some (pre ++ v :: post) ->
     SaveArticle a names
       (mkWorld s (repeat None (1 + List.length names + List.length pre) ++
                   Some code :: rest) t) =
       (Returns (Some (StoreError code)),
        mkWorld (add_memberships id pre t s1) rest t) /\
     articles (add_memberships id pre t s1) = articles s1 /\
     exists news,
       articles_to_groups (add_memberships id pre t s1) =
         articles_to_groups s ++ news /\
       map atg_group_id news = pre).
Proof.
  intros id s1. split.
  - intros (v & Hin & Hv).
    apply SaveArticle_healthy_unknown.
    apply resolved_ids_None. exists v. split; [exact Hin|].
    now apply lookup_group_None.
  - intros pre v post code rest Hr.
    destruct (add_memberships_tables id pre t s1)
      as (_ & Ha & _ & news & Hn & Hg & _).
    split; [|split; [exact Ha|exists news; split; [exact Hn|exact Hg]]].
    set (k := (1 + List.length names + List.length pre)%nat).
    rewrite (SaveArticle_membership_fault a names pre v post code).
    + cbn [store now]. fold id. fold k. f_equal.
      unfold later; cbn [faults now]. f_equal.
      rewrite skipn_app, repeat_length.
      rewrite skipn_all2 by (rewrite repeat_length; lia).
      replace (S k - k)%nat with 1%nat by lia. reflexivity.
    + exact Hr.
    + apply quiet_repeat.
    + cbn [faults]. rewrite nth_error_app2 by (rewrite repeat_length; fold k; lia).
      rewrite repeat_length. fold k. rewrite Nat.sub_diag. reflexivity.
Qed.

(** ** ORDER BY and the join *)

Section OrderBy.

Variable R : Type.
Variable le : Z -> Z -> bool.
Variable key : R -> Z.
Hypothesis le_refl : forall a, le a a = true.
Hypothesis le_trans : forall a b c, le a b = true -> le b c = true -> le a c = true.
Hypothesis le_total : forall a b, le a b = false -> le b a = true.

Lemma insert_by_perm (x : R) (l : list R) :
  Permutation (insert_by le key x l) (x :: l).
Proof.
  induction l as [|y t IH]; simpl; [reflexivity|].
  destruct (le (key x) (key y)); [reflexivity|].
  rewrite IH. apply perm_swap.
Qed.

Lemma order_by_perm (l : list R) : Permutation (order_by le key l) l.
Proof.
  induction l as [|x t IH]; simpl; [reflexivity|].
  rewrite insert_by_perm. now constructor.
Qed.

Lemma order_by_In (l : list R) (x : R) : In x (order_by le key l) <-> In x l.
Proof.
  split; apply Permutation_in; [|symmetry]; apply order_by_perm.
Qed.

Lemma insert_by_sorted (x : R) (l : list R) :
  StronglySorted (key_le le key) l -> StronglySorted (key_le le key) (insert_by le key x l).
Proof.
  induction 1 as [|y t Hs IH Hy]; simpl.
  - constructor; constructor.
  - destruct (le (key x) (key y)) eqn:E.
    + constructor; [constructor; assumption|].
      constructor; [exact E|].
      eapply Forall_impl; [|exact Hy]. intros z Hz. unfold key_le in *. eauto.
    + constructor; [exact IH|].
      apply Forall_forall. intros z Hz.
      apply (Permutation_in _ (insert_by_perm x t)) in Hz.
      destruct Hz as [<-|Hz].
      * unfold key_le. now apply le_total.
      * rewrite Forall_forall in Hy. now apply Hy.
Qed.

Lemma order_by_sorted (l : list R) : StronglySorted (key_le le key) (order_by le key l).
Proof.
  induction l as [|x t IH]; simpl; [constructor|].
  now apply insert_by_sorted.
Qed.

(** The first row of [ORDER BY ... LIMIT 1]. *)
Lemma order_by_first (l : list R) (x0 : R) :
  In x0 l ->
  exists x, firstn 1 (order_by le key l) = [x] /\ In x l /\
            forall y, In y l -> le (key x) (key y) = true.
Proof.
  intros Hin. pose proof (order_by_sorted l) as Hs.
  pose proof (order_by_In l) as HIn.
  destruct (order_by le key l) as [|x t].
  - exfalso. now apply (HIn x0).
  - exists x. split; [reflexivity|]. split; [apply HIn; now left|].
    intros y Hy. apply HIn in Hy. inversion Hs as [|? ? _ Hx]; subst.
    destruct Hy as [<-|Hy]; [apply le_refl|].
    rewrite Forall_forall in Hx. now apply Hx.
Qed.

End OrderBy.

Lemma In_joined (s : Store) (r : ArticleRow) (m : Membership) :
  In (r, m) (joined s) <->
  In r (articles s) /\ In m (articles_to_groups s) /\
  atg_article_id m = art_id r.
Proof.
  unfold joined. rewrite in_flat_map. split.
  - intros (r' & Hr & Hin). apply in_map_iff in Hin.
    destruct Hin as (m' & E & Hm). inversion E; subst.
    apply filter_In in Hm. destruct Hm as [Hm Hid].
    apply Z.eqb_eq in Hid. auto.
  - intros (Hr & Hm & Hid). exists r. split; [exact Hr|].
    apply in_map. apply filter_In. split; [exact Hm|]. now apply Z.eqb_eq.
Qed.

Lemma In_memberships_of (gid : Z) (s : Store) (m : Membership) :
  In m (memberships_of gid s) <->
  In m (articles_to_groups s) /\ atg_group_id m = gid.
Proof.
  unfold memberships_of. rewrite filter_In. now rewrite Z.eqb_eq.
Qed.

Lemma NoDup_map_eq {A : Type} (f : A -> Z) (l : list A) (x y : A) :
  NoDup (map f l) -> In x l -> In y l -> f x = f y -> x = y.
Proof.
  induction l as [|z t IH]; simpl; intros Hnd Hx Hy E; [destruct Hx|].
  apply NoDup_cons_iff in Hnd. destruct Hnd as [Hz Hnd].
  destruct Hx as [<-|Hx], Hy as [<-|Hy]; auto.
  - exfalso. apply Hz. rewrite E. now apply in_map.
  - exfalso. apply Hz. rewrite <- E. now apply in_map.
Qed.

(** In a well-formed store a number names one article of a group. *)
Lemma same_number_same_row (s : Store) (gid : Z) (r r' : ArticleRow)
  (m m' : Membership) :
  wf_store s ->
  In (r, m) (joined s) -> In (r', m') (joined s) ->
  atg_group_id m = gid -> atg_group_id m' = gid ->
  atg_article_number m = atg_article_number m' ->
  r = r' /\ m = m'.
Proof.
  intros Hwf H1 H2 G1 G2 E.
  apply In_joined in H1. destruct H1 as (Hr & Hm & Hid).
  apply In_joined in H2. destruct H2 as (Hr' & Hm' & Hid').
  assert (Em : m = m').
  { apply (NoDup_map_eq atg_article_number (memberships_of gid s));
      [apply (wf_numbers s Hwf gid)| | |exact E];
      apply In_memberships_of; auto. }
  subst m'. split; [|reflexivity].
  apply (NoDup_map_eq art_id (articles s)); auto using wf_article_ids.
  congruence.
Qed.

(** ** C7: the neighbours of an article *)

Lemma filter_nil {A : Type} (f : A -> bool) (l : list A) :
  (forall x, In x l -> f x = false) -> filter f l = [].
Proof.
  induction l as [|x t IH]; simpl; intros H; [reflexivity|].
  rewrite (H x (or_introl eq_refl)). apply IH. intros y Hy. apply H. now right.
Qed.

Lemma geb_refl (a : Z) : (a >=? a) = true.
Proof. rewrite Z.geb_leb. apply Z.leb_refl. Qed.

Lemma geb_trans (a b c : Z) : (a >=? b) = true -> (b >=? c) = true -> (a >=? c) = true.
Proof. rewrite !Z.geb_leb, !Z.leb_le. lia. Qed.

Lemma geb_total (a b : Z) : (a >=? b) = false -> (b >=? a) = true.
Proof. rewrite !Z.geb_leb, Z.leb_gt, Z.leb_le. lia. Qed.

Lemma leb_trans (a b c : Z) : (a <=? b) = true -> (b <=? c) = true -> (a <=? c) = true.
Proof. rewrite !Z.leb_le. lia. Qed.

Lemma leb_total (a b : Z) : (a <=? b) = false -> (b <=? a) = true.
Proof. rewrite Z.leb_gt, Z.leb_le. lia. Qed.

(** The row that [WHERE p(number) AND group_id = gid ORDER BY number LIMIT 1]
    selects, for either direction of the order. *)
Lemma first_row (le : Z -> Z -> bool) (p : Z -> bool) (s : Store) (gid : Z)
  (r : ArticleRow) (m : Membership) :
  (forall a, le a a = true) ->
  (forall a b c, le a b = true -> le b c = true -> le a c = true) ->
  (forall a b, le a b = false -> le b a = true) ->
  (forall a b, le a b = true -> le b a = true -> a = b) ->
  wf_store s ->
  In (r, m) (joined s) -> atg_group_id m = gid ->
  p (atg_article_number m) = true ->
  (forall m', In m' (memberships_of gid s) -> p (atg_article_number m') = true ->
              le (atg_article_number m) (atg_article_number m') = true) ->
  map fst
    (firstn 1
       (order_by le (fun am => atg_article_number (snd am))
          (filter (fun am => p (atg_article_number (snd am)) &&
                             (atg_group_id (snd am) =? gid))
                  (joined s)))) = [r].
Proof.
  intros Hrefl Htrans Htotal Hanti Hwf Hj Hg Hp Hbest.
  set (F := filter (fun am => p (atg_article_number (snd am)) &&
                              (atg_group_id (snd am) =? gid)) (joined s)).
  assert (HF : forall r' m', In (r', m') F <->
             In (r', m') (joined s) /\ p (atg_article_number m') = true /\
             atg_group_id m' = gid).
  { intros r' m'. unfold F. rewrite filter_In. simpl.
    rewrite andb_true_iff, Z.eqb_eq. tauto. }
  assert (Hin : In (r, m) F) by (apply HF; auto).
  destruct (order_by_first _ le (fun am => atg_article_number (snd am))
              Hrefl Htrans Htotal F (r, m) Hin) as ([r' m'] & Hfirst & Hin' & Hmin).
  rewrite Hfirst. simpl. f_equal.
  apply HF in Hin'. destruct Hin' as (Hj' & Hp' & Hg').
  assert (E : atg_article_number m' = atg_article_number m).
  { apply Hanti.
    - exact (Hmin (r, m) Hin).
    - apply Hbest; [|exact Hp'].
      apply In_memberships_of. apply In_joined in Hj'. tauto. }
  destruct (same_number_same_row s gid r' r m' m Hwf Hj' Hj Hg' Hg E) as [Er _].
  exact Er.
Qed.

Lemma number_lookup_found (s : Store) (m : Membership) :
  In m (articles_to_groups s) ->
  exists n rest, q_number_by_article (atg_article_id m) s = n :: rest.
Proof.
  intros Hin. unfold q_number_by_article.
  assert (H : In m (filter (fun m0 => atg_article_id m0 =? atg_article_id m)
                           (articles_to_groups s)))
    by (apply filter_In; split; [exact Hin|apply Z.eqb_refl]).
  destruct (filter (fun m0 => atg_article_id m0 =? atg_article_id m)
                   (articles_to_groups s)) as [|m0 t]; [destruct H|].
  simpl. eauto.
Qed.

(** What GetLastArticleByNum and GetNextArticleByNum return once their first
    query has selected the row [r]. *)
Lemma number_and_header_row (json_Unmarshal : string -> option Header)
  (q : Store -> list ArticleRow) (s : Store) (t : Z) (r : ArticleRow)
  (m : Membership) :
  q s = [r] -> In m (articles_to_groups s) -> atg_article_id m = art_id r ->
  exists x,
    number_and_header json_Unmarshal
      (db_GetScan q scan_article zero_Article (healthy s t)) =
      ((x, unmarshal_error json_Unmarshal (art_header r)), healthy s t) /\
    holds_row x r /\
    hd_error (q_number_by_article (ArticleID x) s) = Some (ArticleNumber x) /\
    (forall h, json_Unmarshal (art_header r) = Some h -> ArticleHeader x = h).
Proof.
  intros Hq Hm Hid.
  rewrite (db_GetScan_quiet _ _ _ _ (quiet_healthy 1 s t)).
  rewrite later_healthy. change (store (healthy s t)) with s. rewrite Hq.
  destruct (number_lookup_found s m Hm) as (n & rest & Hn). rewrite Hid in Hn.
  unfold number_and_header.
  unfold db_Get. rewrite (db_GetScan_quiet _ _ _ _ (quiet_healthy 1 s t)).
  rewrite later_healthy. change (store (healthy s t)) with s.
  cbn [ArticleID scan_article]. rewrite Hn.
  unfold unmarshal_header, unmarshal_error. cbn [HeaderRaw set_ArticleNumber scan_article].
  destruct (json_Unmarshal (art_header r)) as [h|] eqn:E.
  - eexists. split; [reflexivity|]. unfold holds_row. cbn.
    rewrite Hn. repeat split. intros h' Hh'. now inversion Hh'.
  - eexists. split; [reflexivity|]. unfold holds_row. cbn.
    rewrite Hn. repeat split. intros h' Hh'. discriminate.
Qed.




(** ** C10 and C3: the number put on a returned article *)

Lemma populate_healthy (json_Unmarshal : string -> option Header)
  (l : list Article) (s : Store) (t : Z) :
  populate json_Unmarshal l (healthy s t) =
    (match populate_all json_Unmarshal s l with
     | inl xs => (xs, None)
     | inr e => ([], Some e)
     end, healthy s t).
Proof.
  induction l as [|x rest IH]; simpl; [reflexivity|].
  unfold db_Get. rewrite (db_GetScan_quiet _ _ _ _ (quiet_healthy 1 s t)).
  rewrite later_healthy. change (store (healthy s t)) with s.
  unfold populate1.
  destruct (q_number_by_article (ArticleID x) s) as [|n ns]; [reflexivity|].
  unfold unmarshal_header. cbn [HeaderRaw set_ArticleNumber].
  destruct (json_Unmarshal (HeaderRaw x)) as [h|]; [|reflexivity].
  rewrite IH.
  destruct (populate_all json_Unmarshal s rest); reflexivity.
Qed.

Lemma GetArticlesByRange_healthy (json_Unmarshal : string -> option Header)
  (g : Group) (low high : Z) (s : Store) (t : Z) :
  GetArticlesByRange json_Unmarshal g low high (healthy s t) =
    (match populate_all json_Unmarshal s
             (map (fun r => scan_article r zero_Article)
                  (q_articles_by_range low high (ID g) s)) with
     | inl xs => (xs, None)
     | inr e => ([], Some e)
     end, healthy s t).
Proof.
  unfold GetArticlesByRange. rewrite db_Select_healthy.
  apply populate_healthy.
Qed.

(** Each article of a successful loop is its input with the number of the
    first membership of its ID and with the parsed header. *)
Lemma populate_all_spec (json_Unmarshal : string -> option Header) (s : Store)
  (l xs : list Article) :
  populate_all json_Unmarshal s l = inl xs ->
  Forall2 (fun x0 x =>
             ArticleID x = ArticleID x0 /\ CreatedAt x = CreatedAt x0 /\
             HeaderRaw x = HeaderRaw x0 /\ Body x = Body x0 /\
             Thread x = Thread x0 /\
             json_Unmarshal (HeaderRaw x0) = Some (ArticleHeader x) /\
             hd_error (q_number_by_article (ArticleID x0) s) =
               Some (ArticleNumber x))
          l xs.
Proof.
  revert xs. induction l as [|x0 rest IH]; simpl; intros xs H.
  - inversion H; subst. constructor.
  - unfold populate1 in H.
    destruct (q_number_by_article (ArticleID x0) s) as [|n ns] eqn:En;
      [discriminate|].
    destruct (json_Unmarshal (HeaderRaw x0)) as [h|] eqn:Eh; [|discriminate].
    destruct (populate_all json_Unmarshal s rest) as [rest'|]; [|discriminate].
    inversion H; subst. constructor; [|now apply IH].
    cbn. rewrite En, Eh. repeat split.
Qed.

Lemma number_and_header_number (json_Unmarshal : string -> option Header)
  (q : Store -> list ArticleRow) (s : Store) (t : Z) (x : Article) :
  fst (number_and_header json_Unmarshal
         (db_GetScan q scan_article zero_Article (healthy s t))) = (x, None) ->
  hd_error (q_number_by_article (ArticleID x) s) = Some (ArticleNumber x).
Proof.
  rewrite (db_GetScan_quiet _ _ _ _ (quiet_healthy 1 s t)).
  rewrite later_healthy. change (store (healthy s t)) with s.
  destruct (q s) as [|r rs]; [simpl; discriminate|].
  unfold number_and_header.
  unfold db_Get. rewrite (db_GetScan_quiet _ _ _ _ (quiet_healthy 1 s t)).
  rewrite later_healthy. change (store (healthy s t)) with s.
  cbn [ArticleID scan_article].
  destruct (q_number_by_article (art_id r) s) as [|n ns] eqn:En;
    [simpl; discriminate|].
  unfold unmarshal_header. cbn [HeaderRaw set_ArticleNumber scan_article].
  destruct (json_Unmarshal (art_header r)) as [h|]; [|simpl; discriminate].
  cbn. intros H. inversion H; subst. cbn. now rewrite En.
Qed.

(** C10. GetArticlesByRange, GetLastArticleByNum and GetNextArticleByNum put
    on each article they return the number of the first membership row of
    that article ID, whatever its group; and for an article in two groups
    this can be its number in the other group: article 2 of the sample
    store, number 1 in alt.test, comes back from the three calls on
    alt.test with the number 2 it has in comp.lang.go. *)
Theorem C10_number_ignores_group :
  (forall (json_Unmarshal : string -> option Header) (g : Group) (a : Article)
          (low high : Z) (s : Store) (t : Z),
     (forall xs, fst (GetArticlesByRange json_Unmarshal g low high (healthy s t)) =
                   (xs, None) ->
        Forall (fun x => hd_error (q_number_by_article (ArticleID x) s) =
                           Some (ArticleNumber x)) xs) /\
     (forall x, fst (GetLastArticleByNum json_Unmarshal g a (healthy s t)) =
                  (x, None) ->
        hd_error (q_number_by_article (ArticleID x) s) = Some (ArticleNumber x)) /\
     (forall x, fst (GetNextArticleByNum json_Unmarshal g a (healthy s t)) =
                  (x, None) ->
        hd_error (q_number_by_article (ArticleID x) s) = Some (ArticleNumber x))) /\
  (let alt := mkGroup 2 "alt.test" 101 in
   let w := healthy sample_store3 20 in
   let found := mkArticle 2 11 (header_text "<2@x>") [("Message-Id", ["<2@x>"])]
                          "body" None 2 [] in
   articles_to_groups sample_store3 =
     [mkMembership 1 1 1; mkMembership 2 2 1; mkMembership 2 1 2;
      mkMembership 3 3 1] /\
   fst (GetArticlesByRange sample_Unmarshal alt 1 1 w) = ([found], None) /\
   fst (GetLastArticleByNum sample_Unmarshal alt (set_ArticleNumber zero_Article 5) w) =
     (found, None) /\
   fst (GetNextArticleByNum sample_Unmarshal alt (set_ArticleNumber zero_Article 0) w) =
     (found, None)).
Proof.
  split.
  - intros json_Unmarshal g a low high s t. split; [|split].
    + intros xs H. rewrite GetArticlesByRange_healthy in H. cbn [fst] in H.
      destruct (populate_all json_Unmarshal s _) as [ys|] eqn:E;
        [|discriminate].
      inversion H; subst ys. apply populate_all_spec in E.
      remember (map (fun r => scan_article r zero_Article)
                    (q_articles_by_range low high (ID g) s)) as l eqn:El.
      clear El H. induction E as [|x0 x l xs Hx _ IH]; constructor; [|exact IH].
      destruct Hx as (Hid & _ & _ & _ & _ & _ & Hn). now rewrite Hid.
    + intros x. apply number_and_header_number.
    + intros x. apply number_and_header_number.
  - vm_compute. repeat split.
Qed.

(** C3, at an article posted to two groups. GetArticlesByRange on alt.test
    returns article 2 with ArticleNumber 2, its number in comp.lang.go; in
    alt.test, where it was asked for, it is number 1, and GetArticleByNumber
    on alt.test returns the same article with ArticleNumber 1. *)
Theorem C3_range_number_of_other_group :
  memberships_of 2 sample_store3 = [mkMembership 2 1 2] /\
  fst (GetArticlesByRange sample_Unmarshal (mkGroup 2 "alt.test" 101) 1 1
         (healthy sample_store3 20)) =
    ([mkArticle 2 11 (header_text "<2@x>") [("Message-Id", ["<2@x>"])]
                "body" None 2 []], None) /\
  fst (GetArticleByNumber sample_Unmarshal (mkGroup 2 "alt.test" 101) 1
         (healthy sample_store3 20)) =
    (mkArticle 2 11 (header_text "<2@x>") [("Message-Id", ["<2@x>"])]
               "body" None 1 [], None).
Proof. vm_compute. repeat split. Qed.

(** ** The part of GetArticlesByRange that is about the range and the order *)

Lemma Forall2_map_left {A B C : Type} (f : A -> B) (P : B -> C -> Prop)
  (l : list A) (l' : list C) :
  Forall2 P (map f l) l' -> Forall2 (fun a c => P (f a) c) l l'.
Proof.
  revert l'. induction l as [|a t IH]; simpl; intros l' H;
    inversion H; subst; constructor; auto.
Qed.

(** A successful GetArticlesByRange returns, in ascending order of their
    number in the group, the articles of the memberships of the group
    numbered within [low, high], each with the columns of its row and
    its parsed header. *)
Lemma GetArticlesByRange_rows (json_Unmarshal : string -> option Header)
  (g : Group) (low high : Z) (s : Store) (t : Z) (xs : list Article) :
  fst (GetArticlesByRange json_Unmarshal g low high (healthy s t)) = (xs, None) ->
  exists rows : list (ArticleRow * Membership),
    Forall2 (fun rm x => holds_row x (fst rm) /\
                         json_Unmarshal (art_header (fst rm)) =
                           Some (ArticleHeader x)) rows xs /\
    StronglySorted
      (fun p q => atg_article_number (snd p) <= atg_article_number (snd q)) rows /\
    (forall r m,
       In (r, m) rows <->
       In r (articles s) /\ In m (memberships_of (ID g) s) /\
       atg_article_id m = art_id r /\ low <= atg_article_number m <= high).
Proof.
  intros H. rewrite GetArticlesByRange_healthy in H. cbn [fst] in H.
  destruct (populate_all json_Unmarshal s _) as [ys|] eqn:E; [|discriminate].
  inversion H; subst ys. apply populate_all_spec in E.
  unfold q_articles_by_range in E.
  set (F := filter (fun am => (atg_article_number (snd am) >=? low) &&
                              (atg_article_number (snd am) <=? high) &&
                              (atg_group_id (snd am) =? ID g)) (joined s)) in *.
  exists (order_by Z.leb (fun am => atg_article_number (snd am)) F).
  split; [|split].
  - rewrite map_map in E. apply Forall2_map_left in E.
    eapply Forall2_impl; [|exact E].
    intros [r m] x (H1 & H2 & H3 & H4 & H5 & H6 & _). cbn in *.
    unfold holds_row. repeat split; assumption.
  - pose proof (order_by_sorted _ Z.leb (fun am => atg_article_number (snd am))
                  leb_trans leb_total F) as Hs.
    clear - Hs. induction Hs as [|x l Hs IH Hx]; constructor; [exact IH|].
    eapply Forall_impl; [|exact Hx]. intros y Hy.
    unfold key_le in Hy. now apply Z.leb_le.
  - intros r m. rewrite order_by_In. unfold F.
    rewrite filter_In, In_joined, In_memberships_of. simpl.
    rewrite !andb_true_iff, Z.geb_leb, !Z.leb_le, Z.eqb_eq. tauto.
Qed.

(** ** C8: GetThread *)

Lemma NoDup_map_NoDup {A : Type} (f : A -> Z) (l : list A) :
  NoDup (map f l) -> NoDup l.
Proof.
  induction l as [|x t IH]; simpl; intros H; [constructor|].
  apply NoDup_cons_iff in H. destruct H as [Hx Ht].
  constructor; [|now apply IH]. intros Hin. apply Hx. now apply in_map.
Qed.

Lemma wf_memberships_NoDup (s : Store) :
  wf_store s -> NoDup (articles_to_groups s).
Proof.
  intros Hwf. pose proof (wf_numbers s Hwf) as Hn.
  unfold group_numbers, memberships_of in Hn.
  induction (articles_to_groups s) as [|m t IH]; [constructor|].
  constructor.
  - intros Hin. specialize (Hn (atg_group_id m)). simpl in Hn.
    rewrite Z.eqb_refl in Hn. simpl in Hn.
    apply NoDup_cons_iff in Hn. apply (proj1 Hn).
    apply in_map. apply filter_In. split; [exact Hin|apply Z.eqb_refl].
  - apply IH. intros gid. specialize (Hn gid). simpl in Hn.
    destruct (atg_group_id m =? gid); [simpl in Hn; now apply NoDup_cons_iff in Hn|exact Hn].
Qed.

Lemma NoDup_filter {A : Type} (f : A -> bool) (l : list A) :
  NoDup l -> NoDup (filter f l).
Proof.
  induction 1 as [|x t Hx Ht IH]; simpl; [constructor|].
  destruct (f x); [|exact IH].
  constructor; [|exact IH]. intros Hin. apply filter_In in Hin. tauto.
Qed.

Lemma NoDup_map_pair {A B : Type} (a : A) (l : list B) :
  NoDup l -> NoDup (map (pair a) l).
Proof.
  induction 1 as [|x t Hx Ht IH]; simpl; constructor; [|exact IH].
  intros Hin. apply in_map_iff in Hin. destruct Hin as (y & E & Hy).
  inversion E; subst. contradiction.
Qed.

Lemma wf_joined_NoDup (s : Store) : wf_store s -> NoDup (joined s).
Proof.
  intros Hwf. pose proof (wf_memberships_NoDup s Hwf) as Hm.
  pose proof (NoDup_map_NoDup art_id _ (wf_article_ids s Hwf)) as Ha.
  unfold joined. induction Ha as [|a t Hat Ht IH]; simpl; [constructor|].
  apply NoDup_app; [apply NoDup_map_pair; now apply NoDup_filter|exact IH|].
  intros [a' m] H1 H2.
  apply in_map_iff in H1. destruct H1 as (m1 & E1 & _). inversion E1; subst.
  apply in_flat_map in H2. destruct H2 as (a0 & Ha0 & H2).
  apply in_map_iff in H2. destruct H2 as (m2 & E2 & _). inversion E2; subst.
  contradiction.
Qed.

Lemma hd_error_const {A B : Type} (f : A -> B) (l : list A) (x : A) :
  In x l -> (forall y, In y l -> f y = f x) ->
  hd_error (map f l) = Some (f x).
Proof.
  destruct l as [|y t]; simpl; intros Hin H; [destruct Hin|].
  f_equal. apply H. now left.
Qed.

(** The header the subquery of GetThread finds for a root that exists. *)
Lemma root_header_found (s : Store) (gid threadNum : Z) (ra : ArticleRow)
  (rm : Membership) :
  wf_store s ->
  In (ra, rm) (joined s) -> atg_group_id rm = gid ->
  atg_article_number rm = threadNum ->
  root_header gid threadNum s = Some (art_header ra).
Proof.
  intros Hwf Hj Hg Hn. unfold root_header.
  apply (hd_error_const (fun am => art_header (fst am)) _ (ra, rm)).
  - apply filter_In. split; [exact Hj|]. simpl.
    rewrite Hg, Hn, !Z.eqb_refl. reflexivity.
  - intros [r m] Hin. apply filter_In in Hin. destruct Hin as [Hin Hc].
    simpl in Hc. apply andb_true_iff in Hc. destruct Hc as [Hc1 Hc2].
    apply Z.eqb_eq in Hc1, Hc2. simpl.
    destruct (same_number_same_row s gid r ra m rm Hwf Hin Hj Hc1 Hg) as [-> _];
      [congruence|reflexivity].
Qed.

Lemma root_header_none (s : Store) (gid threadNum : Z) :
  (forall m, In m (memberships_of gid s) -> atg_article_number m <> threadNum) ->
  root_header gid threadNum s = None.
Proof.
  intros H. unfold root_header. rewrite filter_nil; [reflexivity|].
  intros [r m] Hin. simpl. apply In_joined in Hin.
  destruct (Z.eqb_spec (atg_group_id m) gid) as [E|N]; [|reflexivity].
  destruct (Z.eqb_spec (atg_article_number m) threadNum) as [E'|N'];
    [|reflexivity].
  exfalso. apply (H m); [|exact E']. apply In_memberships_of. tauto.
Qed.

Lemma sql_eq_Some (x : option string) (mid : string) :
  sql_eq x (Some mid) = true <-> x = Some mid.
Proof.
  destruct x as [y|]; simpl; [|split; discriminate].
  rewrite String.eqb_eq. split; [now intros ->|now intros [= ->]].
Qed.

Lemma db_SelectRun_healthy {R : Type} (run : Store -> list R * option error)
  (s : Store) (t : Z) :
  db_SelectRun run (healthy s t) = (run s, healthy s t).
Proof. reflexivity. Qed.

(** C8. In a well-formed store that answers, when the article numbered r
    exists in the group and its header is JSON, GetThread returns the
    numbers of exactly the memberships of the group whose article has as
    thread the Message-Id of that article, each once, in ascending order of
    creation time; when no article of the group has the number r, and also
    when the root exists and nothing refers to it, the result is the empty
    list with no error.  When the header of the root is not JSON the call
    fails with the store's error "malformed JSON" and returns no number. *)
Theorem C8_GetThread (json_extract_message_id : string -> extracted)
  (g : Group) (threadNum : Z) (s : Store) (t : Z) :
  wf_store s ->
  let w := healthy s t in
  let G := memberships_of (ID g) s in
  (forall rm ra,
     In rm G -> atg_article_number rm = threadNum ->
     In ra (articles s) -> art_id ra = atg_article_id rm ->
     (forall v,
        json_extract_message_id (art_header ra) = Extracted v ->
        exists rows,
          GetThread json_extract_message_id g threadNum w =
            ((map (fun am => atg_article_number (snd am)) rows, None), w) /\
          StronglySorted
            (fun p q => art_created_at (fst p) <= art_created_at (fst q)) rows /\
          NoDup rows /\
          (forall r m,
             In (r, m) rows <->
             In r (articles s) /\ In m G /\ atg_article_id m = art_id r /\
             exists mid, v = Some mid /\ art_thread r = Some mid) /\
          ((forall r m, In r (articles s) -> In m G ->
                        atg_article_id m = art_id r ->
                        art_thread r <> v \/ art_thread r = None) ->
           GetThread json_extract_message_id g threadNum w = (([], None), w))) /\
     (json_extract_message_id (art_header ra) = Malformed ->
      GetThread json_extract_message_id g threadNum w =
        (([], Some malformed_JSON), w))) /\
  ((forall m, In m G -> atg_article_number m <> threadNum) ->
   GetThread json_extract_message_id g threadNum w = (([], None), w)).
Proof.
  intros Hwf w G. split.
  - intros rm ra Hrm Hnum Hra Hid.
    apply In_memberships_of in Hrm. destruct Hrm as [Hrm Hg].
    assert (Hj : In (ra, rm) (joined s)) by (apply In_joined; auto).
    pose proof (root_header_found s (ID g) threadNum ra rm Hwf Hj Hg Hnum) as Hroot.
    assert (Hmid : root_message_id json_extract_message_id (ID g) threadNum s =
                   json_extract_message_id (art_header ra))
      by (unfold root_message_id; now rewrite Hroot).
    split.
    2:{ intros Hbad. unfold GetThread, w. rewrite db_SelectRun_healthy.
        unfold q_thread. now rewrite Hmid, Hbad. }
    intros mid Hv.
    assert (Hres : GetThread json_extract_message_id g threadNum w =
                   ((map (fun am => atg_article_number (snd am))
                         (q_thread_rows (ID g) mid s), None), w)).
    { unfold GetThread, w. rewrite db_SelectRun_healthy.
      unfold q_thread. now rewrite Hmid, Hv. }
    set (F := filter (fun am => (atg_group_id (snd am) =? ID g) &&
                                sql_eq (art_thread (fst am)) mid) (joined s)).
    assert (Hrows : q_thread_rows (ID g) mid s =
                    order_by Z.leb (fun am => art_created_at (fst am)) F)
      by reflexivity.
    assert (HF : forall r m, In (r, m) F <->
              In r (articles s) /\ In m G /\ atg_article_id m = art_id r /\
              exists x, mid = Some x /\ art_thread r = Some x).
    { intros r m. unfold F. rewrite filter_In, In_joined. simpl.
      rewrite andb_true_iff, Z.eqb_eq. unfold G. rewrite In_memberships_of.
      split.
      - intros ((H1 & H2 & H3) & H4 & H5).
        destruct mid as [x|]; [|destruct (art_thread r); discriminate].
        apply sql_eq_Some in H5. repeat split; auto. eauto.
      - intros (H1 & (H2 & H3) & H4 & x & H5 & H6). rewrite H5.
        repeat split; auto. now apply sql_eq_Some. }
    exists (order_by Z.leb (fun am => art_created_at (fst am)) F).
    split; [|split; [|split; [|split]]].
    + now rewrite Hres, Hrows.
    + pose proof (order_by_sorted _ Z.leb (fun am => art_created_at (fst am))
                    leb_trans leb_total F) as Hs.
      clear - Hs. induction Hs as [|x l Hs IH Hx]; constructor; [exact IH|].
      eapply Forall_impl; [|exact Hx]. intros y Hy.
      unfold key_le in Hy. now apply Z.leb_le.
    + apply (Permutation_NoDup
               (Permutation_sym (order_by_perm _ Z.leb _ F))).
      apply NoDup_filter. now apply wf_joined_NoDup.
    + intros r m. rewrite order_by_In. apply HF.
    + intros Hno. rewrite Hres, Hrows.
      replace F with (@nil (ArticleRow * Membership)); [reflexivity|].
      symmetry. unfold F. apply filter_nil. intros [r m] Hin. simpl.
      apply In_joined in Hin. destruct Hin as (H1 & H2 & H3).
      destruct (Z.eqb_spec (atg_group_id m) (ID g)) as [E|N]; [|reflexivity].
      simpl. destruct (sql_eq (art_thread r) mid) eqn:Es; [|reflexivity].
      exfalso.
      assert (Hm : In m G) by (apply In_memberships_of; auto).
      destruct mid as [x|] eqn:Em; [|destruct (art_thread r); discriminate].
      apply sql_eq_Some in Es.
      destruct (Hno r m H1 Hm H3) as [C|C]; congruence.
  - intros Hnone. unfold GetThread, w. rewrite db_SelectRun_healthy.
    unfold q_thread, root_message_id.
    rewrite (root_header_none s (ID g) threadNum Hnone).
    unfold q_thread_rows. rewrite filter_nil; [reflexivity|].
    intros [r m] _. simpl. destruct (art_thread r); simpl;
      now rewrite andb_false_r.
Qed.

(** ** SaveArticle keeps the store well-formed *)

Lemma next_rowid_fresh (ids : list Z) : ~ In (next_rowid ids) ids.
Proof.
  unfold next_rowid. destruct (sql_max ids) as [m|] eqn:E.
  - destruct (sql_max_spec _ _ E) as [_ Hall]. intros Hin.
    rewrite Forall_forall in Hall. specialize (Hall _ Hin). simpl in Hall. lia.
  - apply sql_max_None in E. rewrite E. intros [].
Qed.

Lemma NoDup_snoc {A : Type} (l : list A) (x : A) :
  NoDup l -> ~ In x l -> NoDup (l ++ [x]).
Proof.
  intros Hl Hx. apply NoDup_app; [exact Hl|repeat constructor; intros []|].
  intros a Ha [<-|[]]. contradiction.
Qed.

Lemma wf_empty_groups (gs : list Group) : wf_store (mkStore gs [] [] []).
Proof.
  constructor; simpl; try constructor. intros m [].
Qed.

Lemma wf_insert_article (header body : string) (thread : option string)
  (t : Z) (s : Store) :
  wf_store s -> wf_store (fst (insert_article header body thread t s)).
Proof.
  intros [H1 H2 H3 H4]. constructor; simpl.
  - rewrite map_app. simpl. apply NoDup_snoc; [exact H1|apply next_rowid_fresh].
  - intros m Hm. destruct (H2 m Hm) as (r & Hr & Hid).
    exists r. split; [apply in_or_app; now left|exact Hid].
  - exact H3.
  - exact H4.
Qed.

Lemma next_article_number_pos (gid : Z) (s : Store) :
  Forall (fun m => 1 <= atg_article_number m) (articles_to_groups s) ->
  1 <= next_article_number gid s.
Proof.
  intros Hpos. unfold next_article_number.
  destruct (sql_max (group_numbers gid s)) as [m|] eqn:E; simpl; [|lia].
  destruct (sql_max_spec _ _ E) as [Hin _].
  unfold group_numbers in Hin. apply in_map_iff in Hin.
  destruct Hin as (x & <- & Hx). apply In_memberships_of in Hx.
  rewrite Forall_forall in Hpos. specialize (Hpos x (proj1 Hx)). simpl in Hpos. lia.
Qed.

Lemma wf_insert_membership (articleID gid t : Z) (s : Store) :
  wf_store s -> In articleID (map art_id (articles s)) ->
  wf_store (fst (insert_membership articleID gid t s)).
Proof.
  intros Hwf Hid. constructor.
  - exact (wf_article_ids s Hwf).
  - simpl. intros m Hm. apply in_app_or in Hm. destruct Hm as [Hm|[<-|[]]].
    + exact (wf_memberships s Hwf m Hm).
    + simpl. apply in_map_iff in Hid. destruct Hid as (r & E & Hr). eauto.
  - intros g. rewrite group_numbers_insert.
    destruct (gid =? g) eqn:E; [|rewrite app_nil_r; apply (wf_numbers s Hwf)].
    apply Z.eqb_eq in E. subst g.
    apply NoDup_snoc; [apply (wf_numbers s Hwf)|].
    intros Hin. pose proof (next_article_number_gt gid s) as Hgt.
    rewrite Forall_forall in Hgt. specialize (Hgt _ Hin). simpl in Hgt. lia.
  - simpl. apply Forall_app. split; [exact (wf_positive s Hwf)|].
    constructor; [|constructor]. simpl.
    apply next_article_number_pos. exact (wf_positive s Hwf).
Qed.

Lemma wf_insert_attachment (articleID : Z) (v : Attachment) (t : Z) (s : Store) :
  wf_store s -> wf_store (fst (insert_attachment articleID v t s)).
Proof. intros [H1 H2 H3 H4]. constructor; assumption. Qed.

Lemma insert_memberships_wf (articleID : Z) (gids : list Z) :
  forall w, wf_store (store w) ->
            In articleID (map art_id (articles (store w))) ->
            wf_store (store (snd (insert_memberships articleID gids w))) /\
            articles (store (snd (insert_memberships articleID gids w))) =
              articles (store w).
Proof.
  induction gids as [|v rest IH]; intros w Hwf Hid; simpl; [auto|].
  destruct (db_Exec_store (insert_membership articleID v) w)
    as [(_ & Herr & Hs)|(id & _ & _ & Herr & Hs)];
    destruct (db_Exec (insert_membership articleID v) w) as [[res err] w1];
    simpl in *.
  - destruct err as [e|]; [|contradiction]. simpl. rewrite Hs. auto.
  - subst err.
    assert (Hwf1 : wf_store (store w1))
      by (rewrite Hs; now apply (wf_insert_membership articleID v (now w))).
    assert (Ha : articles (store w1) = articles (store w))
      by (rewrite Hs; reflexivity).
    destruct (IH w1 Hwf1) as [H1 H2]; [now rewrite Ha|].
    split; [exact H1|]. now rewrite H2.
Qed.

Lemma insert_attachments_wf (articleID : Z) (atts : list Attachment) :
  forall w, wf_store (store w) ->
            wf_store (store (snd (insert_attachments articleID atts w))).
Proof.
  induction atts as [|v rest IH]; intros w Hwf; simpl; [auto|].
  destruct (db_Exec_store (insert_attachment articleID v) w)
    as [(_ & Herr & Hs)|(id & _ & _ & Herr & Hs)];
    destruct (db_Exec (insert_attachment articleID v) w) as [[res err] w1];
    simpl in *.
  - destruct err as [e|]; [|contradiction]. simpl. now rewrite Hs.
  - subst err. apply IH. rewrite Hs.
    now apply (wf_insert_attachment articleID v (now w)).
Qed.

(** Whatever the store answers, a well-formed store stays well-formed. *)
Lemma SaveArticle_wf (a : Article) (names : list string) (w : World) :
  wf_store (store w) -> wf_store (store (snd (SaveArticle a names w))).
Proof.
  intros Hwf. unfold SaveArticle.
  destruct (db_Exec_store (insert_article (HeaderRaw a) (Body a) (Thread a)) w)
    as [(Hres & _ & Hs)|(id & Hres & Hid & _ & Hs)];
    destruct (db_Exec (insert_article (HeaderRaw a) (Body a) (Thread a)) w)
      as [[res err] w1]; simpl in Hres, Hs; subst res.
  - simpl. now rewrite Hs.
  - cbn [LastInsertId].
    assert (Hwf1 : wf_store (store w1))
      by (rewrite Hs;
          now apply (wf_insert_article (HeaderRaw a) (Body a) (Thread a) (now w))).
    assert (Hin : In id (map art_id (articles (store w1)))).
    { rewrite Hs, Hid. simpl. rewrite map_app. apply in_or_app. right.
      now left. }
    pose proof (resolve_groups_store names [] w1) as Hr.
    destruct (resolve_groups names [] w1) as [[gids|e] w2]; simpl in Hr.
    + rewrite <- Hr in Hwf1, Hin.
      destruct (insert_memberships_wf id gids w2 Hwf1 Hin) as [Hwf3 _].
      destruct (insert_memberships id gids w2) as [[e|] w3]; simpl in *;
        [exact Hwf3|].
      pose proof (insert_attachments_wf id (Attachments a) w3 Hwf3) as Hwf4.
      destruct (insert_attachments id (Attachments a) w3) as [[e|] w4];
        exact Hwf4.
    + simpl. now rewrite Hr.
Qed.

Lemma saved_wf (a : Article) (names : list string) (t : Z) (s : Store) :
  wf_store s -> wf_store (saved a names t s).
Proof. intros H. unfold saved. now apply SaveArticle_wf. Qed.

Lemma sample_store3_wf : wf_store sample_store3.
Proof.
  unfold sample_store3. do 3 apply saved_wf. apply wf_empty_groups.
Qed.

(** ** The theorems at the sample store *)

Example sample_store3_tables :
  articles_to_groups sample_store3 =
    [mkMembership 1 1 1; mkMembership 2 2 1; mkMembership 2 1 2;
     mkMembership 3 3 1] /\
  map art_id (articles sample_store3) = [1; 2; 3] /\
  fst (GetThread sample_message_id go_group 2 (healthy sample_store3 20)) =
    ([3], None) /\
  fst (GetThread sample_message_id go_group 3 (healthy sample_store3 20)) =
    ([], None) /\
  fst (GetThread sample_message_id go_group 9 (healthy sample_store3 20)) =
    ([], None).
Proof. vm_compute. repeat split. Qed.

(** The scenario of the specification: three saves into comp.lang.go. *)
Example scenario_three_saves :
  fst (GetGroupHighWaterMark go_group (healthy sample_store3 20)) = (3, None) /\
  fst (GetGroupLowWaterMark go_group (healthy sample_store3 20)) = (1, None) /\
  fst (GetArticlesCount go_group (healthy sample_store3 20)) = (3, None) /\
  fst (GetArticleByNumber sample_Unmarshal go_group 2 (healthy sample_store3 20)) =
    (mkArticle 2 11 (header_text "<2@x>") [("Message-Id", ["<2@x>"])]
               "body" None 2 [], None) /\
  fst (GetGroupHighWaterMark alt_group (healthy sample_store 20)) = (0, None) /\
  fst (GetGroupLowWaterMark alt_group (healthy sample_store 20)) = (0, None).
Proof. vm_compute. repeat split. Qed.

(** C1 at the sample store: a name with white space around it, three saves. *)
Lemma C1_numbering_witness :
  fst (SaveArticle (sample_article "<1@x>" None) [" comp.lang.go "]
         (healthy sample_store 10)) = Returns None /\
  group_numbers 1
    (saved (sample_article "<3@x>" None) [" comp.lang.go "] 12
       (saved (sample_article "<2@x>" None) [" comp.lang.go "] 11
          (saved (sample_article "<1@x>" None) [" comp.lang.go "] 10
             sample_store))) = [1; 2; 3].
Proof.
  assert (H : forall v, In v [" comp.lang.go "] ->
              exists g, In g (groups sample_store) /\ GroupName g = TrimSpace v).
  { intros v [<-|[]]. exists go_group. split; [now left|reflexivity]. }
  destruct (proj2 (C1_numbering (sample_article "<1@x>" None)
                     [" comp.lang.go "] sample_store 10) H) as (H1 & _ & H4).
  split; [exact H1|].
  exact (proj2 (proj2 (H4 go_group " comp.lang.go "
                         (sample_article "<2@x>" None)
                         (sample_article "<3@x>" None) 11 12
                         eq_refl eq_refl eq_refl))).
Defined.

(** C2 at the sample store, where comp.lang.go holds the numbers 1, 2, 3. *)
Lemma C2_GetArticleNumbers_witness :
  fst (GetArticleNumbers go_group 0 0 (healthy sample_store3 20)) =
    ([1; 2; 3], None) /\
  fst (GetArticleNumbers go_group (-1) 2 (healthy sample_store3 20)) =
    ([2], None) /\
  fst (GetArticleNumbers go_group 1 (-1) (healthy sample_store3 20)) =
    ([2; 3], None) /\
  fst (GetArticleNumbers go_group (-1) (-1) (healthy sample_store3 20)) =
    ([], None) /\
  fst (GetArticleNumbers go_group 1 3 (healthy sample_store3 20)) =
    ([2], None).
Proof.
  assert (Hnd : NoDup (group_numbers (ID go_group) sample_store3))
    by apply (wf_numbers _ sample_store3_wf).
  assert (Hpos : Forall (fun n => 1 <= n) (group_numbers (ID go_group) sample_store3)).
  { change (Forall (fun n => 1 <= n) [1; 2; 3]). repeat constructor; lia. }
  destruct (C2_GetArticleNumbers go_group sample_store3 20 Hnd Hpos)
    as (H1 & H2 & H3 & H4 & H5).
  split; [rewrite H1; reflexivity|].
  split; [rewrite (H2 2) by discriminate; reflexivity|].
  split; [rewrite (H3 1) by discriminate; reflexivity|].
  split; [rewrite H4; reflexivity|].
  rewrite (H5 1 3) by discriminate. reflexivity.
Defined.


(** C8 at the sample store: a root that does not exist, and root 2; and
    after a fourth save, of a header that is not JSON, that article as the
    root. *)
Lemma C8_GetThread_witness :
  GetThread sample_message_id go_group 9 (healthy sample_store3 20) =
    (([], None), healthy sample_store3 20) /\
  (exists rows,
    GetThread sample_message_id go_group 2 (healthy sample_store3 20) =
      ((map (fun am : ArticleRow * Membership => atg_article_number (snd am))
            rows, None),
       healthy sample_store3 20) /\
    NoDup rows) /\
  GetThread sample_message_id go_group 4 (healthy sample_store4 20) =
    (([], Some malformed_JSON), healthy sample_store4 20).
Proof.
  assert (HG : memberships_of (ID go_group) sample_store3 =
               [mkMembership 1 1 1; mkMembership 2 2 1; mkMembership 3 3 1])
    by reflexivity.
  assert (HG4 : memberships_of (ID go_group) sample_store4 =
               [mkMembership 1 1 1; mkMembership 2 2 1; mkMembership 3 3 1;
                mkMembership 4 4 1])
    by reflexivity.
  destruct (C8_GetThread sample_message_id go_group 9 sample_store3 20
              sample_store3_wf) as (_ & Hnone).
  destruct (C8_GetThread sample_message_id go_group 2 sample_store3 20
              sample_store3_wf) as (Hroot & _).
  destruct (C8_GetThread sample_message_id go_group 4 sample_store4 20
              (saved_wf _ _ _ _ sample_store3_wf)) as (Hbad & _).
  split; [|split].
  - apply Hnone. rewrite HG. intros m [<-|[<-|[<-|[]]]]; simpl; lia.
  - destruct (Hroot (mkMembership 2 2 1)
                    (mkArticleRow 2 11 (header_text "<2@x>") "body" None))
      as (Hjson & _).
    + rewrite HG. right. now left.
    + reflexivity.
    + right. now left.
    + reflexivity.
    + destruct (Hjson (Some "<2@x>") eq_refl) as (rows & Hres & _ & Hnd & _).
      exists rows. split; [exact Hres|exact Hnd].
  - destruct (Hbad (mkMembership 4 4 1)
                   (mkArticleRow 4 13 "Message-Id: <4@x>" "body" None))
      as (_ & Hfail).
    + rewrite HG4. do 3 right. now left.
    + reflexivity.
    + do 3 right. now left.
    + reflexivity.
    + apply Hfail. reflexivity.
Defined.

(** C6 at the sample store: an unknown name, and two names that resolve. *)
Lemma C6_SaveArticle_NoSuchGroup_witness :
  fst (SaveArticle (sample_article "<1@x>" None)
         [" comp.lang.go "; "no.such.group"] (healthy sample_store 10)) =
    Returns (Some (Errorf "no such newsgroup")) /\
  fst (SaveArticle (sample_article "<1@x>" None)
         [" comp.lang.go "; "alt.test"] (healthy sample_store 10)) =
    Returns None.
Proof.
  split.
  - apply (C6_SaveArticle_NoSuchGroup (sample_article "<1@x>" None)
             [" comp.lang.go "; "no.such.group"] sample_store 10).
    exists "no.such.group". split; [right; now left|].
    intros g [<-|[<-|[]]] E; vm_compute in E; discriminate E.
  - apply (proj2 (proj2 (C6_SaveArticle_NoSuchGroup
                           (sample_article "<1@x>" None)
                           [" comp.lang.go "; "alt.test"] sample_store 10))
                 [1; 2]).
    constructor; [exists go_group; split; reflexivity|].
    constructor; [exists alt_group; split; reflexivity|constructor].
Defined.

(** C5 at the sample store: the two failing saves and what they leave. *)
Lemma C5_SaveArticle_keeps_earlier_writes_witness :
  save_unknown_group =
    (Returns (Some (Errorf "no such newsgroup")),
     healthy (mkStore [go_group; alt_group]
                [mkArticleRow 1 10 (header_text "<1@x>") "body" None] [] [])
             10) /\
  save_locked_store =
    (Returns (Some (StoreError "database is locked")),
     mkWorld (mkStore [go_group; alt_group]
                [mkArticleRow 1 10 (header_text "<1@x>") "body" None]
                [mkMembership 1 1 1] [])
             [] 10).
Proof.
  split.
  - apply (C5_SaveArticle_keeps_earlier_writes (sample_article "<1@x>" None)
             ["comp.lang.go"; "no.such.group"] sample_store 10).
    exists "no.such.group". split; [right; now left|].
    intros g [<-|[<-|[]]] E; vm_compute in E; discriminate E.
  - apply (proj2 (C5_SaveArticle_keeps_earlier_writes
                    (sample_article "<1@x>" None)
                    ["comp.lang.go"; "alt.test"] sample_store 10)
                 [1] 2 [] "database is locked" []).
    reflexivity.
Defined.

(** * Further properties of the store operations *)

(** ** SaveArticle only appends *)

Lemma appended_refl (id : Z) (s : Store) : appended id s s.
Proof.
  unfold appended. split; [reflexivity|].
  split; [exists []; now rewrite app_nil_r|].
  split; exists []; (split; [now rewrite app_nil_r|constructor]).
Qed.

Lemma appended_trans (id : Z) (s1 s2 s3 : Store) :
  appended id s1 s2 -> appended id s2 s3 -> appended id s1 s3.
Proof.
  intros (G1 & (a1 & A1) & (m1 & M1 & F1) & (t1 & T1 & H1))
         (G2 & (a2 & A2) & (m2 & M2 & F2) & (t2 & T2 & H2)).
  unfold appended. split; [congruence|].
  split; [exists (a1 ++ a2); rewrite A2, A1; now rewrite app_assoc|].
  split.
  - exists (m1 ++ m2). split; [rewrite M2, M1; now rewrite app_assoc|].
    apply Forall_app; auto.
  - exists (t1 ++ t2). split; [rewrite T2, T1; now rewrite app_assoc|].
    apply Forall_app; auto.
Qed.

Lemma insert_memberships_appended (articleID : Z) (gids : list Z) :
  forall w, appended articleID (store w)
                     (store (snd (insert_memberships articleID gids w))).
Proof.
  induction gids as [|v rest IH]; intros w; simpl; [apply appended_refl|].
  destruct (db_Exec_store (insert_membership articleID v) w)
    as [(_ & Herr & Hs)|(id & _ & _ & Herr & Hs)];
    destruct (db_Exec (insert_membership articleID v) w) as [[res err] w1];
    simpl in *.
  - destruct err as [e|]; [|contradiction]. simpl. rewrite Hs.
    apply appended_refl.
  - subst err. eapply appended_trans; [|apply IH]. rewrite Hs.
    unfold appended; simpl. split; [reflexivity|].
    split; [exists []; now rewrite app_nil_r|]. split.
    + eexists. split; [reflexivity|]. repeat constructor.
    + exists []. split; [now rewrite app_nil_r|constructor].
Qed.

Lemma insert_attachments_appended (articleID : Z) (atts : list Attachment) :
  forall w, appended articleID (store w)
                     (store (snd (insert_attachments articleID atts w))).
Proof.
  induction atts as [|v rest IH]; intros w; simpl; [apply appended_refl|].
  destruct (db_Exec_store (insert_attachment articleID v) w)
    as [(_ & Herr & Hs)|(id & _ & _ & Herr & Hs)];
    destruct (db_Exec (insert_attachment articleID v) w) as [[res err] w1];
    simpl in *.
  - destruct err as [e|]; [|contradiction]. simpl. rewrite Hs.
    apply appended_refl.
  - subst err. eapply appended_trans; [|apply IH]. rewrite Hs.
    unfold appended; simpl. split; [reflexivity|].
    split; [exists []; now rewrite app_nil_r|]. split.
    + exists []. split; [now rewrite app_nil_r|constructor].
    + eexists. split; [reflexivity|]. repeat constructor.
Qed.

(** The tables after SaveArticle are the tables before with rows added. *)
Lemma SaveArticle_appended (a : Article) (names : list string) (w : World) :
  let id := next_rowid (map art_id (articles (store w))) in
  let s' := store (snd (SaveArticle a names w)) in
  appended id (store w) s' /\
  (articles s' = articles (store w) \/
   articles s' = articles (store w) ++
                 [mkArticleRow id (now w) (HeaderRaw a) (Body a) (Thread a)]).
Proof.
  intros id s'. unfold s', SaveArticle.
  destruct (db_Exec_store (insert_article (HeaderRaw a) (Body a) (Thread a)) w)
    as [(Hres & _ & Hs)|(id' & Hres & Hid & _ & Hs)];
    destruct (db_Exec (insert_article (HeaderRaw a) (Body a) (Thread a)) w)
      as [[res err] w1]; simpl in Hres, Hs; subst res.
  - simpl. rewrite Hs. split; [apply appended_refl|now left].
  - cbn [LastInsertId]. simpl in Hid. fold id in Hid. subst id'.
    assert (H1 : appended id (store w) (store w1)).
    { rewrite Hs. unfold appended; simpl. split; [reflexivity|].
      split; [eexists; reflexivity|].
      split; exists []; (split; [now rewrite app_nil_r|constructor]). }
    assert (A1 : articles (store w1) =
                 articles (store w) ++
                 [mkArticleRow id (now w) (HeaderRaw a) (Body a) (Thread a)])
      by (rewrite Hs; reflexivity).
    pose proof (resolve_groups_store names [] w1) as Hr.
    destruct (resolve_groups names [] w1) as [[gids|e] w2]; simpl in Hr.
    + pose proof (insert_memberships_appended id gids w2) as H2.
      pose proof (insert_attachments_appended id (Attachments a)
                    (snd (insert_memberships id gids w2))) as H3.
      assert (A2 : forall s2, appended id (store w2) s2 ->
                     articles s2 = articles (store w2) ->
                     appended id (store w) s2 /\
                     (articles s2 = articles (store w) \/
                      articles s2 = articles (store w) ++
                        [mkArticleRow id (now w) (HeaderRaw a) (Body a) (Thread a)])).
      { intros s2 Hap Ha. split.
        - eapply appended_trans; [exact H1|]. now rewrite <- Hr.
        - right. now rewrite Ha, Hr. }
      assert (Am : articles (store (snd (insert_memberships id gids w2))) =
                   articles (store w2)).
      { clear. revert w2. induction gids as [|v rest IH]; intros w2; simpl;
          [reflexivity|].
        destruct (db_Exec_store (insert_membership id v) w2)
          as [(_ & Herr & Hs)|(i & _ & _ & Herr & Hs)];
          destruct (db_Exec (insert_membership id v) w2) as [[res err] w3];
          simpl in *.
        - destruct err as [e|]; [|contradiction]. simpl. now rewrite Hs.
        - subst err. rewrite IH, Hs. reflexivity. }
      assert (At : forall w3, articles (store (snd (insert_attachments id (Attachments a) w3))) =
                   articles (store w3)).
      { clear. induction (Attachments a) as [|v rest IH]; intros w3; simpl;
          [reflexivity|].
        destruct (db_Exec_store (insert_attachment id v) w3)
          as [(_ & Herr & Hs)|(i & _ & _ & Herr & Hs)];
          destruct (db_Exec (insert_attachment id v) w3) as [[res err] w4];
          simpl in *.
        - destruct err as [e|]; [|contradiction]. simpl. now rewrite Hs.
        - subst err. rewrite IH, Hs. reflexivity. }
      specialize (At (snd (insert_memberships id gids w2))).
      destruct (insert_memberships id gids w2) as [[e|] w3]; simpl in *.
      * apply A2; assumption.
      * destruct (insert_attachments id (Attachments a) w3) as [[e|] w4];
          simpl in *; (apply A2; [eapply appended_trans; eassumption|congruence]).
    + simpl. rewrite Hr. split; [exact H1|now right].
Qed.

(** X1. Whatever the store answers, SaveArticle never changes the groups and
    never removes or alters a row: each table afterwards is the table before
    with rows added at its end; at most one article row is added, the one
    built from the article passed in, and every membership and attachment
    row added carries its ID. *)
Theorem SaveArticle_appends (a : Article) (names : list string) (w : World) :
  let id := next_rowid (map art_id (articles (store w))) in
  let s' := store (snd (SaveArticle a names w)) in
  appended id (store w) s' /\
  (articles s' = articles (store w) \/
   articles s' = articles (store w) ++
                 [mkArticleRow id (now w) (HeaderRaw a) (Body a) (Thread a)]).
Proof. exact (SaveArticle_appended a names w). Qed.

(** ** Names are looked up trimmed *)

Lemma TrimSpace_idempotent (s : string) : TrimSpace (TrimSpace s) = TrimSpace s.
Proof.
  destruct (TrimSpace_trimmed s) as (_ & _ & _ & _ & _ & Hf & Hb).
  unfold clean_front, clean_back in Hf, Hb.
  unfold TrimSpace at 1. rewrite Hf, Hb, rev_involutive.
  apply string_of_list_ascii_of_string.
Qed.

Lemma resolve_groups_trimmed (names : list string) :
  forall acc w,
    resolve_groups (map TrimSpace names) acc w = resolve_groups names acc w.
Proof.
  induction names as [|v rest IH]; intros acc w; simpl; [reflexivity|].
  rewrite TrimSpace_idempotent.
  destruct (GetGroup (TrimSpace v) w) as [[g err] w1].
  destruct err as [e|]; [reflexivity|]. apply IH.
Qed.

(** X2. White space around the group names makes no difference: whatever
    the store answers, SaveArticle with the names as given and SaveArticle
    with the names already trimmed return the same result and leave the
    same store. *)
Theorem SaveArticle_trimmed_names (a : Article) (names : list string) (w : World) :
  SaveArticle a (map TrimSpace names) w = SaveArticle a names w.
Proof.
  unfold SaveArticle.
  destruct (db_Exec (insert_article (HeaderRaw a) (Body a) (Thread a)) w)
    as [[res err] w1].
  destruct res as [r|]; [|reflexivity].
  now rewrite resolve_groups_trimmed.
Qed.

(** ** Errors of the store pass through SaveArticle *)

Lemma GetGroup_fault (name : string) (w : World) (code : string) :
  hd_error (faults w) = Some (Some code) ->
  GetGroup name w = ((zero_Group, Some (StoreError code)), later 1 (store w) w).
Proof.
  destruct w as [s fs t]. unfold GetGroup, db_Get, db_GetScan, next_fault, later.
  simpl. destruct fs as [|f fs]; simpl; intros H; inversion H; subst.
  reflexivity.
Qed.

Lemma resolve_groups_fault (pre : list string) (v : string) (post : list string)
  (code : string) :
  forall (acc ids : list Z) (w : World),
    quiet (List.length pre) w ->
    resolved_ids pre (store w) = Some ids ->
    nth_error (faults w) (List.length pre) = Some (Some code) ->
    resolve_groups (pre ++ v :: post) acc w =
      (inr (StoreError code), later (S (List.length pre)) (store w) w).
Proof.
  induction pre as [|u pre IH]; intros acc ids w Hq Hr Hf; simpl in *.
  - rewrite (GetGroup_fault _ w code); [reflexivity|].
    destruct (faults w); simpl in *; [discriminate|assumption].
  - change (S (List.length pre)) with (1 + List.length pre)%nat in Hq.
    destruct (quiet_add _ _ _ Hq) as [Hq1 Hq2].
    rewrite (GetGroup_quiet _ _ Hq1).
    destruct (lookup_group (TrimSpace u) (store w)) as [g|]; [|discriminate].
    destruct (resolved_ids pre (store w)) as [ids'|] eqn:E; [|discriminate].
    rewrite (IH (acc ++ [ID g]) ids' (later 1 (store w) w) (Hq2 _) E).
    + now rewrite later_later.
    + simpl. destruct (faults w); simpl in *; [discriminate|assumption].
Qed.

Lemma insert_attachments_fault (articleID : Z) (pre : list Attachment)
  (v : Attachment) (post : list Attachment) (code : string) :
  forall w, quiet (List.length pre) w ->
    nth_error (faults w) (List.length pre) = Some (Some code) ->
    insert_attachments articleID (pre ++ v :: post) w =
      (Some (StoreError code),
       later (S (List.length pre))
             (add_attachments articleID pre (now w) (store w)) w).
Proof.
  induction pre as [|u pre IH]; intros w Hq Hf; simpl in *.
  - rewrite (db_Exec_fault (insert_attachment articleID v) w code).
    + reflexivity.
    + destruct (faults w); simpl in *; [discriminate|assumption].
  - change (S (List.length pre)) with (1 + List.length pre)%nat in Hq.
    destruct (quiet_add _ _ _ Hq) as [Hq1 Hq2].
    rewrite (db_Exec_quiet _ _ Hq1). simpl.
    rewrite (IH _ (Hq2 _)).
    + simpl. rewrite later_later. reflexivity.
    + simpl. destruct (faults w); simpl in *; [discriminate|assumption].
Qed.

Lemma skipn_repeat_cons {A : Type} (k : nat) (x y : A) (rest : list A) :
  skipn (S k) (repeat x k ++ y :: rest) = rest.
Proof.
  rewrite skipn_app, repeat_length.
  rewrite skipn_all2 by (rewrite repeat_length; lia).
  replace (S k - k)%nat with 1%nat by lia. reflexivity.
Qed.

Lemma nth_error_repeat_cons {A : Type} (k : nat) (x y : A) (rest : list A) :
  nth_error (repeat x k ++ y :: rest) k = Some y.
Proof.
  rewrite nth_error_app2 by (rewrite repeat_length; lia).
  rewrite repeat_length, Nat.sub_diag. reflexivity.
Qed.

Lemma resolved_ids_length (names : list string) (s : Store) (ids : list Z) :
  resolved_ids names s = Some ids -> List.length ids = List.length names.
Proof.
  revert ids. induction names as [|v rest IH]; simpl; intros ids H.
  - now inversion H.
  - destruct (lookup_group (TrimSpace v) s); [|discriminate].
    destruct (resolved_ids rest s) as [ids'|]; [|discriminate].
    inversion H; subst. simpl. now rewrite (IH ids').
Qed.

(** X3. An error of the store during a group lookup is returned as it is,
    not as "no such newsgroup": when the store answers the article insert
    and the lookups of the names before [v] and rejects the lookup of [v],
    SaveArticle returns that error; the article row is in the store and no
    membership or attachment row has been added. *)
Theorem SaveArticle_lookup_error (a : Article) (pre : list string) (v : string)
  (post : list string) (ids : list Z) (s : Store) (code : string)
  (rest : list (option string)) (t : Z) :
  resolved_ids pre s = Some ids ->
  SaveArticle a (pre ++ v :: post)
    (mkWorld s (repeat None (1 + List.length pre) ++ Some code :: rest) t) =
    (Returns (Some (StoreError code)),
     mkWorld (fst (insert_article (HeaderRaw a) (Body a) (Thread a) t s)) rest t).
Proof.
  intros Hr. unfold SaveArticle.
  set (w := mkWorld s (repeat None (1 + List.length pre) ++ Some code :: rest) t).
  assert (Hq : quiet (1 + List.length pre) w) by apply quiet_repeat.
  destruct (quiet_add _ _ _ Hq) as [Hq1 Hq2].
  rewrite (db_Exec_quiet _ _ Hq1). cbv beta iota.
  set (s1 := fst (insert_article (HeaderRaw a) (Body a) (Thread a) (now w) (store w))).
  rewrite (resolve_groups_fault pre v post code [] ids (later 1 s1 w) (Hq2 s1)).
  - rewrite later_later. unfold later, w; cbn [faults now store].
    change (1 + S (List.length pre))%nat with (S (1 + List.length pre)).
    now rewrite skipn_repeat_cons.
  - cbn [store later]. rewrite <- Hr. now apply resolved_ids_groups.
  - unfold later, w; cbn [faults]. rewrite nth_error_skipn.
    cbn [Nat.add]. apply (nth_error_repeat_cons (S (List.length pre))).
Qed.

(** X4. When the store rejects an attachment insert, SaveArticle returns
    that error and keeps what it has written: the article row, every
    membership, and the attachments inserted before the rejected one. *)
Theorem SaveArticle_attachment_error (a : Article) (names : list string)
  (ids : list Z) (pre : list Attachment) (v : Attachment)
  (post : list Attachment) (s : Store) (code : string)
  (rest : list (option string)) (t : Z) :
  resolved_ids names s = Some ids ->
  Attachments a = pre ++ v :: post ->
  let id := next_rowid (map art_id (articles s)) in
  let s1 := fst (insert_article (HeaderRaw a) (Body a) (Thread a) t s) in
  SaveArticle a names
    (mkWorld s (repeat None (1 + List.length names + List.length names +
                             List.length pre) ++ Some code :: rest) t) =
    (Returns (Some (StoreError code)),
     mkWorld (add_attachments id pre t (add_memberships id ids t s1)) rest t).
Proof.
  intros Hr Ha id s1. unfold SaveArticle.
  set (k := (1 + List.length names + List.length names + List.length pre)%nat).
  set (w := mkWorld s (repeat None k ++ Some code :: rest) t).
  assert (Hlen := resolved_ids_length names s ids Hr).
  assert (Hq : quiet (1 + (List.length names + (List.length ids + List.length pre))) w).
  { replace (1 + (List.length names + (List.length ids + List.length pre)))%nat
      with k by (unfold k; lia). apply quiet_repeat. }
  destruct (quiet_add _ _ _ Hq) as [Hq1 Hq2].
  rewrite (db_Exec_quiet _ _ Hq1). cbv beta iota.
  change (fst (insert_article (HeaderRaw a) (Body a) (Thread a) (now w) (store w)))
    with s1.
  change (LastInsertId {| LastInsertId :=
            snd (insert_article (HeaderRaw a) (Body a) (Thread a) (now w) (store w)) |})
    with id.
  specialize (Hq2 s1). destruct (quiet_add _ _ _ Hq2) as [Hq3 Hq4].
  rewrite (resolve_groups_ok names [] ids _ Hq3)
    by (cbn [store later]; rewrite <- Hr; now apply resolved_ids_groups).
  cbn [app]. rewrite later_later. cbn [store later].
  specialize (Hq4 s1). rewrite later_later in Hq4.
  destruct (quiet_add _ _ _ Hq4) as [Hq5 Hq6].
  rewrite (insert_memberships_ok _ _ _ Hq5).
  rewrite later_later. cbn [store now later].
  change (now w) with t.
  set (s2 := add_memberships id ids t s1).
  specialize (Hq6 s2). rewrite later_later in Hq6.
  rewrite Ha.
  rewrite (insert_attachments_fault id pre v post code _ Hq6).
  - rewrite later_later. unfold later, w; cbn [faults now store].
    do 2 f_equal.
    replace (1 + List.length names + List.length ids + S (List.length pre))%nat
      with (S k) by (unfold k; lia).
    apply skipn_repeat_cons.
  - unfold later, w; cbn [faults]. rewrite nth_error_skipn.
    replace (1 + List.length names + List.length ids + List.length pre)%nat
      with k by (unfold k; lia).
    apply nth_error_repeat_cons.
Qed.

(** ** Stores built by SaveArticle: numbers without gaps *)

Lemma consecutive_snoc (from : Z) (k : nat) :
  consecutive from k ++ [from + Z.of_nat k] = consecutive from (S k).
Proof.
  revert from. induction k as [|k IH]; intros from.
  - simpl. now rewrite Z.add_0_r.
  - cbn [consecutive app]. f_equal.
    replace (from + Z.of_nat (S k)) with (from + 1 + Z.of_nat k) by lia.
    apply IH.
Qed.

Lemma consecutive_In (from : Z) (k : nat) (x : Z) :
  In x (consecutive from k) <-> from <= x < from + Z.of_nat k.
Proof.
  revert from. induction k as [|k IH]; intros from; simpl.
  - split; [intros []|lia].
  - rewrite IH. lia.
Qed.

Lemma consecutive_length (from : Z) (k : nat) :
  List.length (consecutive from k) = k.
Proof. revert from. induction k as [|k IH]; intros from; simpl; auto. Qed.

Lemma sql_max_consecutive (k : nat) :
  sql_max (consecutive 1 (S k)) = Some (Z.of_nat (S k)).
Proof.
  induction k as [|k IH]; [reflexivity|].
  rewrite <- consecutive_snoc. rewrite sql_max_snoc; [f_equal; lia|].
  apply Forall_forall. intros x Hx. apply consecutive_In in Hx. lia.
Qed.

Lemma sql_min_consecutive (from : Z) (k : nat) :
  sql_min (consecutive from (S k)) = Some from.
Proof.
  revert from. induction k as [|k IH]; intros from; [reflexivity|].
  change (consecutive from (S (S k)))
    with (from :: consecutive (from + 1) (S k)).
  cbn [sql_min]. rewrite IH. f_equal. lia.
Qed.

Lemma dense_nil : dense [].
Proof. intros gid. reflexivity. Qed.

Lemma dense_next (before : list Membership) (m : Membership) :
  dense before -> numbered_next before m -> dense (before ++ [m]).
Proof.
  intros Hd [H1 H2] gid. rewrite filter_app, map_app, length_app. simpl.
  destruct (Z.eqb_spec (atg_group_id m) gid) as [E|N]; simpl.
  - subst gid. specialize (Hd (atg_group_id m)).
    set (l := filter (fun x => atg_group_id x =? atg_group_id m) before) in *.
    rewrite Hd in H1, H2. rewrite Hd.
    replace (List.length l + 1)%nat with (S (List.length l)) by lia.
    rewrite <- consecutive_snoc. f_equal. f_equal.
    destruct (List.length l) as [|k] eqn:Ek.
    + simpl in H1. rewrite (H1 eq_refl). reflexivity.
    + rewrite (H2 (Z.of_nat (S k))); [lia| |].
      * apply consecutive_In. lia.
      * apply Forall_forall. intros x Hx. apply consecutive_In in Hx. lia.
  - rewrite !app_nil_r, Nat.add_0_r. apply Hd.
Qed.

Lemma dense_in_turn (news : list Membership) :
  forall before, dense before -> numbered_in_turn before news ->
                 dense (before ++ news).
Proof.
  induction news as [|m rest IH]; intros before Hd Hn; simpl in *.
  - now rewrite app_nil_r.
  - destruct Hn as [Hm Hrest].
    replace (before ++ m :: rest) with ((before ++ [m]) ++ rest)
      by (now rewrite <- app_assoc).
    apply IH; [now apply dense_next|exact Hrest].
Qed.

Lemma reachable_dense (s : Store) : reachable s -> dense (articles_to_groups s).
Proof.
  induction 1 as [gs|a names w Hr IH]; [apply dense_nil|].
  destruct (SaveArticle_rows a names w) as (news & Hn & Hturn).
  rewrite Hn. now apply dense_in_turn.
Qed.

Lemma reachable_wf (s : Store) : reachable s -> wf_store s.
Proof.
  induction 1 as [gs|a names w Hr IH]; [apply wf_empty_groups|].
  now apply SaveArticle_wf.
Qed.

Lemma reachable_saved (a : Article) (names : list string) (t : Z) (s : Store) :
  reachable s -> reachable (saved a names t s).
Proof. intros H. unfold saved. now apply (reach_save a names (healthy s t)). Qed.

Lemma sample_store3_reachable : reachable sample_store3.
Proof.
  unfold sample_store3. do 3 apply reachable_saved. apply reach_groups.
Qed.

(** X5. In a store that only SaveArticle has filled, whatever the store
    answered on the way, the numbers of every group are 1, 2, ..., n without
    a gap: GetArticleNumbers with (0,0) lists them in this order, the high
    water mark equals the article count, and the low water mark is 1 for a
    group with articles (0 for a group without). *)
Theorem reachable_numbers_without_gaps (s : Store) (g : Group) (t : Z) :
  reachable s ->
  let w := healthy s t in
  let n := List.length (memberships_of (ID g) s) in
  GetArticleNumbers g 0 0 w = ((consecutive 1 n, None), w) /\
  GetArticlesCount g w = ((Z.of_nat n, None), w) /\
  GetGroupHighWaterMark g w = ((Z.of_nat n, None), w) /\
  GetGroupLowWaterMark g w = ((if Nat.eqb n 0 then 0 else 1, None), w).
Proof.
  intros Hr w n. pose proof (reachable_dense s Hr (ID g)) as Hd.
  fold (memberships_of (ID g) s) in Hd. fold n in Hd.
  split; [|split; [reflexivity|split]].
  - unfold GetArticleNumbers. simpl. unfold w. rewrite db_Select_healthy.
    fold (memberships_of (ID g) s). now rewrite Hd.
  - unfold GetGroupHighWaterMark, db_Get, w.
    rewrite (db_GetScan_quiet _ _ _ _ (quiet_healthy 1 s t)), later_healthy.
    change (store (healthy s t)) with s. unfold group_numbers. rewrite Hd.
    destruct n as [|k]; [reflexivity|]. now rewrite sql_max_consecutive.
  - unfold GetGroupLowWaterMark, db_Get, w.
    rewrite (db_GetScan_quiet _ _ _ _ (quiet_healthy 1 s t)), later_healthy.
    change (store (healthy s t)) with s. unfold group_numbers. rewrite Hd.
    destruct n as [|k]; [reflexivity|]. now rewrite sql_min_consecutive.
Qed.

(** X5 at the sample store, where comp.lang.go holds three articles. *)
Lemma reachable_numbers_without_gaps_witness :
  GetArticleNumbers go_group 0 0 (healthy sample_store3 20) =
    (([1; 2; 3], None), healthy sample_store3 20) /\
  GetGroupHighWaterMark go_group (healthy sample_store3 20) =
    ((3, None), healthy sample_store3 20).
Proof.
  destruct (reachable_numbers_without_gaps sample_store3 go_group 20
              sample_store3_reachable) as (H1 & _ & H3 & _).
  split; [exact H1|exact H3].
Defined.

(** ** GetArticleByNumber *)

Lemma GetArticleByNumber_healthy (json_Unmarshal : string -> option Header)
  (g : Group) (num : Z) (s : Store) (t : Z) :
  GetArticleByNumber json_Unmarshal g num (healthy s t) =
    (match q_article_by_number num (ID g) s with
     | [] => (zero_Article, Some ErrNoRows)
     | r :: _ =>
         unmarshal_header json_Unmarshal
           (set_Attachments (set_ArticleNumber (scan_article r zero_Article) num)
                            (q_attachments (art_id r) s))
     end, healthy s t).
Proof.
  unfold GetArticleByNumber.
  rewrite (db_GetScan_quiet _ _ _ _ (quiet_healthy 1 s t)), later_healthy.
  change (store (healthy s t)) with s.
  destruct (q_article_by_number num (ID g) s) as [|r rs]; [reflexivity|].
  rewrite db_Select_healthy. reflexivity.
Qed.

Lemma unmarshal_header_spec (json_Unmarshal : string -> option Header)
  (x : Article) :
  snd (unmarshal_header json_Unmarshal x) =
    unmarshal_error json_Unmarshal (HeaderRaw x) /\
  ArticleID (fst (unmarshal_header json_Unmarshal x)) = ArticleID x /\
  CreatedAt (fst (unmarshal_header json_Unmarshal x)) = CreatedAt x /\
  HeaderRaw (fst (unmarshal_header json_Unmarshal x)) = HeaderRaw x /\
  Body (fst (unmarshal_header json_Unmarshal x)) = Body x /\
  Thread (fst (unmarshal_header json_Unmarshal x)) = Thread x /\
  ArticleNumber (fst (unmarshal_header json_Unmarshal x)) = ArticleNumber x /\
  Attachments (fst (unmarshal_header json_Unmarshal x)) = Attachments x /\
  (forall h, json_Unmarshal (HeaderRaw x) = Some h ->
             ArticleHeader (fst (unmarshal_header json_Unmarshal x)) = h).
Proof.
  unfold unmarshal_header, unmarshal_error.
  destruct (json_Unmarshal (HeaderRaw x)) as [h|]; cbn; repeat split;
    intros h' Hh'; congruence.
Qed.

(** The row the first query of GetArticleByNumber selects. *)
Lemma q_article_by_number_found (s : Store) (gid num : Z) (r : ArticleRow)
  (m : Membership) :
  wf_store s -> In (r, m) (joined s) -> atg_group_id m = gid ->
  atg_article_number m = num ->
  exists rest, q_article_by_number num gid s = r :: rest.
Proof.
  intros Hwf Hj Hg Hn. unfold q_article_by_number.
  set (F := filter (fun am => (atg_article_number (snd am) =? num) &&
                              (atg_group_id (snd am) =? gid)) (joined s)).
  assert (Hin : In (r, m) F).
  { apply filter_In. split; [exact Hj|]. simpl.
    now rewrite Hg, Hn, !Z.eqb_refl. }
  destruct F as [|[r' m'] rest] eqn:EF; [destruct Hin|].
  assert (Hin' : In (r', m') F) by (rewrite EF; now left).
  unfold F in Hin'. apply filter_In in Hin'. destruct Hin' as [Hj' Hc].
  simpl in Hc. apply andb_true_iff in Hc. destruct Hc as [Hc1 Hc2].
  apply Z.eqb_eq in Hc1, Hc2.
  destruct (same_number_same_row s gid r' r m' m Hwf Hj' Hj Hc2 Hg) as [-> _];
    [congruence|].
  simpl. eauto.
Qed.

Lemma q_article_by_number_none (s : Store) (gid num : Z) :
  (forall m, In m (memberships_of gid s) -> atg_article_number m <> num) ->
  q_article_by_number num gid s = [].
Proof.
  intros H. unfold q_article_by_number. rewrite filter_nil; [reflexivity|].
  intros [r m] Hin. simpl. apply In_joined in Hin.
  destruct (Z.eqb_spec (atg_article_number m) num) as [E|N]; [|reflexivity].
  destruct (Z.eqb_spec (atg_group_id m) gid) as [E'|N']; [|reflexivity].
  exfalso. apply (H m); [|exact E]. apply In_memberships_of. tauto.
Qed.

(** What GetArticleByNumber returns for a membership of the group. *)
Lemma GetArticleByNumber_found (json_Unmarshal : string -> option Header)
  (g : Group) (s : Store) (t : Z) (r : ArticleRow) (m : Membership) :
  wf_store s -> In (r, m) (joined s) -> atg_group_id m = ID g ->
  exists x,
    GetArticleByNumber json_Unmarshal g (atg_article_number m) (healthy s t) =
      ((x, unmarshal_error json_Unmarshal (art_header r)), healthy s t) /\
    holds_row x r /\
    ArticleNumber x = atg_article_number m /\
    Attachments x = q_attachments (art_id r) s /\
    (forall h, json_Unmarshal (art_header r) = Some h -> ArticleHeader x = h).
Proof.
  intros Hwf Hj Hg.
  destruct (q_article_by_number_found s (ID g) (atg_article_number m) r m
              Hwf Hj Hg eq_refl) as (rest & Hq).
  rewrite GetArticleByNumber_healthy, Hq.
  set (x0 := set_Attachments
               (set_ArticleNumber (scan_article r zero_Article)
                                  (atg_article_number m))
               (q_attachments (art_id r) s)).
  destruct (unmarshal_header_spec json_Unmarshal x0)
    as (He & H1 & H2 & H3 & H4 & H5 & H6 & H7 & H8).
  change (HeaderRaw x0) with (art_header r) in He, H8.
  exists (fst (unmarshal_header json_Unmarshal x0)).
  split; [|split; [|split; [|split]]].
  - rewrite <- He. now destruct (unmarshal_header json_Unmarshal x0).
  - unfold holds_row. rewrite H1, H2, H3, H4, H5. repeat split.
  - now rewrite H6.
  - now rewrite H7.
  - exact H8.
Qed.

(** X6. In a well-formed store that answers, GetArticleByNumber on a number
    held by a membership of the group returns the article of that
    membership with ArticleNumber set to the number asked for and with the
    attachments stored for the article (and the error of parsing its
    header, if any); on a number no membership of the group holds it fails
    with sql.ErrNoRows and returns the zero article. *)
Theorem GetArticleByNumber_lookup (json_Unmarshal : string -> option Header)
  (g : Group) (num : Z) (s : Store) (t : Z) :
  wf_store s ->
  let w := healthy s t in
  (forall m, In m (memberships_of (ID g) s) -> atg_article_number m = num ->
     exists r x,
       In r (articles s) /\ art_id r = atg_article_id m /\
       GetArticleByNumber json_Unmarshal g num w =
         ((x, unmarshal_error json_Unmarshal (art_header r)), w) /\
       holds_row x r /\ ArticleNumber x = num /\
       Attachments x =
         map attachment_of_row
             (filter (fun a => att_article_id a =? art_id r)
                     (attachments_articles_mapping s)) /\
       (forall h, json_Unmarshal (art_header r) = Some h -> ArticleHeader x = h)) /\
  ((forall m, In m (memberships_of (ID g) s) -> atg_article_number m <> num) ->
   GetArticleByNumber json_Unmarshal g num w = ((zero_Article, Some ErrNoRows), w)).
Proof.
  intros Hwf w. split.
  - intros m Hm Hnum. apply In_memberships_of in Hm. destruct Hm as [Hm Hg].
    destruct (wf_memberships s Hwf m Hm) as (r & Hr & Hid).
    assert (Hj : In (r, m) (joined s)) by (apply In_joined; auto).
    destruct (GetArticleByNumber_found json_Unmarshal g s t r m Hwf Hj Hg)
      as (x & Hx & Hrow & Hn & Ha & Hh).
    exists r, x. rewrite Hnum in Hx, Hn.
    repeat split; try assumption; apply Hrow.
  - intros Hnone. unfold w. rewrite GetArticleByNumber_healthy.
    now rewrite (q_article_by_number_none s (ID g) num Hnone).
Qed.

(** X6 at the sample store: number 2 of comp.lang.go, and a number it does
    not hold. *)
Lemma GetArticleByNumber_lookup_witness :
  GetArticleByNumber sample_Unmarshal go_group 9 (healthy sample_store3 20) =
    ((zero_Article, Some ErrNoRows), healthy sample_store3 20) /\
  exists r x,
    In r (articles sample_store3) /\ art_id r = 2 /\
    GetArticleByNumber sample_Unmarshal go_group 2 (healthy sample_store3 20) =
      ((x, unmarshal_error sample_Unmarshal (art_header r)),
       healthy sample_store3 20) /\
    ArticleNumber x = 2.
Proof.
  assert (HG : memberships_of (ID go_group) sample_store3 =
               [mkMembership 1 1 1; mkMembership 2 2 1; mkMembership 3 3 1])
    by reflexivity.
  destruct (GetArticleByNumber_lookup sample_Unmarshal go_group 9 sample_store3
              20 sample_store3_wf) as (_ & Hnone).
  destruct (GetArticleByNumber_lookup sample_Unmarshal go_group 2 sample_store3
              20 sample_store3_wf) as (Hfound & _).
  split.
  - apply Hnone. rewrite HG. intros m [<-|[<-|[<-|[]]]]; simpl; lia.
  - destruct (Hfound (mkMembership 2 2 1)) as (r & x & Hr & Hid & Hx & _ & Hn & _).
    + rewrite HG. right. now left.
    + reflexivity.
    + exists r, x. auto.
Defined.

(** ** Saving an article, then reading it back *)

(** The four tables after a save in which every name resolves. *)
Lemma saved_store (a : Article) (names : list string) (ids : list Z)
  (s : Store) (t : Z) :
  resolved_ids names s = Some ids ->
  let id := next_rowid (map art_id (articles s)) in
  groups (saved a names t s) = groups s /\
  articles (saved a names t s) =
    articles s ++ [mkArticleRow id t (HeaderRaw a) (Body a) (Thread a)] /\
  (exists news,
     articles_to_groups (saved a names t s) = articles_to_groups s ++ news /\
     map atg_group_id news = ids /\
     Forall (fun m => atg_article_id m = id) news /\
     numbered_in_turn (articles_to_groups s) news) /\
  attachments_articles_mapping (saved a names t s) =
    attachments_articles_mapping s ++
    map (fun v => mkAttachmentRow id (ContentType v) (FileName v)) (Attachments a).
Proof.
  intros Hr id. unfold saved.
  rewrite (SaveArticle_healthy_ok a names ids s t Hr).
  cbn [snd store healthy]. fold id.
  set (s1 := fst (insert_article (HeaderRaw a) (Body a) (Thread a) t s)).
  destruct (add_attachments_tables id (Attachments a) t (add_memberships id ids t s1))
    as (Hg & Ha & Hm & Ht).
  destruct (add_memberships_tables id ids t s1)
    as (Hg1 & Ha1 & Ht1 & news & Hn & Hrest).
  rewrite Hg, Hg1, Ha, Ha1, Hm, Ht, Ht1.
  split; [reflexivity|]. split; [reflexivity|].
  split; [exists news; split; [exact Hn|exact Hrest]|reflexivity].
Qed.

Lemma fresh_article_no_membership (s : Store) :
  wf_store s ->
  filter (fun m => atg_article_id m =? next_rowid (map art_id (articles s)))
         (articles_to_groups s) = [].
Proof.
  intros Hwf. apply filter_nil. intros m Hm.
  destruct (wf_memberships s Hwf m Hm) as (r & Hr & Hid).
  apply Z.eqb_neq. intros E.
  apply (next_rowid_fresh (map art_id (articles s))).
  rewrite <- E, <- Hid. now apply in_map.
Qed.

Lemma fresh_article_no_attachment (s : Store) :
  attachments_of_articles s ->
  filter (fun r => att_article_id r =? next_rowid (map art_id (articles s)))
         (attachments_articles_mapping s) = [].
Proof.
  intros Hat. apply filter_nil. intros r Hr.
  apply Z.eqb_neq. intros E.
  apply (next_rowid_fresh (map art_id (articles s))).
  rewrite <- E. now apply Hat.
Qed.

(** The attachments read back for the article just saved. *)
Lemma q_attachments_saved (a : Article) (names : list string) (ids : list Z)
  (s : Store) (t : Z) :
  attachments_of_articles s ->
  resolved_ids names s = Some ids ->
  q_attachments (next_rowid (map art_id (articles s))) (saved a names t s) =
    Attachments a.
Proof.
  intros Hat Hr. unfold q_attachments.
  destruct (saved_store a names ids s t Hr) as (_ & _ & _ & Ht). rewrite Ht.
  rewrite filter_app, (fresh_article_no_attachment s Hat). cbn [app].
  generalize (Attachments a). intros l.
  induction l as [|[c f] rest IH]; [reflexivity|].
  cbn [map filter att_article_id]. rewrite Z.eqb_refl. cbn [map].
  rewrite IH. reflexivity.
Qed.

(** The membership a save adds to a group it names: the next number. *)
Lemma saved_membership (a : Article) (names : list string) (ids : list Z)
  (s : Store) (t gid : Z) :
  resolved_ids names s = Some ids -> In gid ids ->
  In (mkMembership (next_rowid (map art_id (articles s)))
                   (next_article_number gid s) gid)
     (articles_to_groups (saved a names t s)).
Proof.
  intros Hr Hin.
  pose proof (group_numbers_saved a names ids s t gid Hr) as Hn.
  destruct (saved_store a names ids s t Hr) as (_ & _ & (news & Hm & _ & Hid & _) & _).
  assert (Hk : exists k, List.length (filter (fun v => v =? gid) ids) = S k).
  { assert (H : In gid (filter (fun v => v =? gid) ids))
      by (apply filter_In; split; [exact Hin|apply Z.eqb_refl]).
    destruct (filter (fun v => v =? gid) ids); [destruct H|simpl; eauto]. }
  destruct Hk as (k & Hk). rewrite Hk in Hn. cbn [consecutive] in Hn.
  assert (Hx : In (next_article_number gid s) (group_numbers gid (saved a names t s)))
    by (rewrite Hn; apply in_or_app; right; now left).
  unfold group_numbers in Hx. apply in_map_iff in Hx.
  destruct Hx as (m & Hnum & Hmem). apply In_memberships_of in Hmem.
  destruct Hmem as [Hmem Hg]. rewrite Hm in Hmem.
  apply in_app_or in Hmem. destruct Hmem as [Hold|Hnew].
  - exfalso. pose proof (next_article_number_gt gid s) as Hgt.
    rewrite Forall_forall in Hgt.
    assert (Ho : In (atg_article_number m) (group_numbers gid s)).
    { unfold group_numbers. apply in_map. apply In_memberships_of. auto. }
    specialize (Hgt _ Ho). simpl in Hgt. lia.
  - rewrite Forall_forall in Hid. specialize (Hid m Hnew). simpl in Hid.
    rewrite Hm. apply in_or_app. right.
    destruct m as [i n g']; simpl in *. now subst.
Qed.

(** X7. Round trip through a group: after a successful save on a
    well-formed store whose attachment rows belong to stored articles,
    GetArticleByNumber on a group the save named, at the number that was
    next in that group, returns the saved article: its raw header, body,
    thread and attachments as passed in, the creation time of the save,
    the number asked for, and the parsed header. *)
Theorem SaveArticle_then_GetArticleByNumber
  (json_Unmarshal : string -> option Header) (a : Article)
  (names : list string) (ids : list Z) (g : Group) (s : Store) (t t' : Z) :
  wf_store s -> attachments_of_articles s ->
  resolved_ids names s = Some ids -> In (ID g) ids ->
  exists x,
    GetArticleByNumber json_Unmarshal g (next_article_number (ID g) s)
      (healthy (saved a names t s) t') =
      ((x, unmarshal_error json_Unmarshal (HeaderRaw a)),
       healthy (saved a names t s) t') /\
    HeaderRaw x = HeaderRaw a /\ Body x = Body a /\ Thread x = Thread a /\
    CreatedAt x = t /\ ArticleNumber x = next_article_number (ID g) s /\
    Attachments x = Attachments a /\
    (forall h, json_Unmarshal (HeaderRaw a) = Some h -> ArticleHeader x = h).
Proof.
  intros Hwf Hat Hr Hin.
  set (id := next_rowid (map art_id (articles s))).
  set (r := mkArticleRow id t (HeaderRaw a) (Body a) (Thread a)).
  set (m := mkMembership id (next_article_number (ID g) s) (ID g)).
  destruct (saved_store a names ids s t Hr) as (_ & Ha & _ & _).
  assert (Hj : In (r, m) (joined (saved a names t s))).
  { apply In_joined. split; [|split].
    - rewrite Ha. apply in_or_app. right. now left.
    - now apply (saved_membership a names ids s t (ID g)).
    - reflexivity. }
  destruct (GetArticleByNumber_found json_Unmarshal g (saved a names t s) t' r m
              (saved_wf a names t s Hwf) Hj eq_refl)
    as (x & Hx & (_ & Hc & Hh & Hb & Ht) & Hn & Hatt & Hp).
  exists x. subst r m.
  cbn [art_id art_created_at art_header art_body art_thread atg_article_number]
    in Hx, Hc, Hh, Hb, Ht, Hn, Hatt, Hp.
  subst id. rewrite (q_attachments_saved a names ids s t Hat Hr) in Hatt.
  repeat split; assumption.
Qed.

(** X7 at the sample store: an article with one attachment saved into
    comp.lang.go comes back as number 1. *)
Lemma SaveArticle_then_GetArticleByNumber_witness :
  exists x,
    GetArticleByNumber sample_Unmarshal go_group 1
      (healthy (saved (mkArticle 0 0 (header_text "<1@x>") [] "body" None 0
                                 [mkAttachment "image/png" "f1.png"])
                      [" comp.lang.go"] 10 sample_store) 20) =
      ((x, None),
       healthy (saved (mkArticle 0 0 (header_text "<1@x>") [] "body" None 0
                                 [mkAttachment "image/png" "f1.png"])
                      [" comp.lang.go"] 10 sample_store) 20) /\
    Body x = "body" /\
    Attachments x = [mkAttachment "image/png" "f1.png"].
Proof.
  destruct (SaveArticle_then_GetArticleByNumber sample_Unmarshal
              (mkArticle 0 0 (header_text "<1@x>") [] "body" None 0
                         [mkAttachment "image/png" "f1.png"])
              [" comp.lang.go"] [1] go_group sample_store 10 20)
    as (x & Hx & _ & Hb & _ & _ & _ & Ha & _).
  - apply wf_empty_groups.
  - intros r [].
  - reflexivity.
  - now left.
  - exists x. split; [exact Hx|]. split; [exact Hb|exact Ha].
Defined.

(** ** GetArticle *)

Lemma GetArticle_healthy (json_extract_message_id : string -> extracted)
  (json_Unmarshal : string -> option Header) (messageID : string)
  (s : Store) (t : Z) :
  GetArticle json_extract_message_id json_Unmarshal messageID (healthy s t) =
    (match q_article_by_message_id json_extract_message_id messageID
             (articles s) with
     | ([], Some e) => (zero_Article, Some e)
     | ([], None) => (zero_Article, Some ErrNoRows)
     | (r :: _, _) =>
         match q_number_by_article (art_id r) s with
         | [] => (scan_article r zero_Article, Some ErrNoRows)
         | n :: _ =>
             unmarshal_header json_Unmarshal
               (set_Attachments
                  (set_ArticleNumber (scan_article r zero_Article) n)
                  (q_attachments (art_id r) s))
         end
     end, healthy s t).
Proof.
  unfold GetArticle, db_GetScanRun.
  change (next_fault (healthy s t)) with (@None string, healthy s t).
  cbv beta iota. change (store (healthy s t)) with s.
  destruct (q_article_by_message_id _ _ (articles s)) as [[|r rs] [e|]];
    try reflexivity.
  - unfold db_Get.
    rewrite (db_GetScan_quiet _ _ _ _ (quiet_healthy 1 s t)), later_healthy.
    change (store (healthy s t)) with s. cbn [ArticleID scan_article].
    destruct (q_number_by_article (art_id r) s) as [|n ns]; [reflexivity|].
    rewrite db_Select_healthy. reflexivity.
  - unfold db_Get.
    rewrite (db_GetScan_quiet _ _ _ _ (quiet_healthy 1 s t)), later_healthy.
    change (store (healthy s t)) with s. cbn [ArticleID scan_article].
    destruct (q_number_by_article (art_id r) s) as [|n ns]; [reflexivity|].
    rewrite db_Select_healthy. reflexivity.
Qed.

(** The statement of GetArticle over rows of which none has the Message-Id
    and all hold JSON finds nothing and does not fail. *)
Lemma q_article_by_message_id_none
  (json_extract_message_id : string -> extracted) (mid : string)
  (rows : list ArticleRow) :
  (forall r, In r rows ->
     exists v, json_extract_message_id (art_header r) = Extracted v /\
               v <> Some mid) ->
  q_article_by_message_id json_extract_message_id mid rows = ([], None).
Proof.
  induction rows as [|r rest IH]; intros H; [reflexivity|].
  cbn [q_article_by_message_id].
  destruct (H r (or_introl eq_refl)) as (v & Hv & Hne). rewrite Hv.
  rewrite IH by (intros r' Hr'; apply H; now right).
  destruct (sql_eq v (Some mid)) eqn:E; [|reflexivity].
  apply sql_eq_Some in E. contradiction.
Qed.

Lemma q_article_by_message_id_app
  (json_extract_message_id : string -> extracted) (mid : string)
  (l1 l2 : list ArticleRow) :
  q_article_by_message_id json_extract_message_id mid l1 = ([], None) ->
  q_article_by_message_id json_extract_message_id mid (l1 ++ l2) =
    q_article_by_message_id json_extract_message_id mid l2.
Proof.
  induction l1 as [|r rest IH]; intros H; [reflexivity|].
  cbn [app q_article_by_message_id] in *.
  destruct (json_extract_message_id (art_header r)) as [|v]; [discriminate|].
  destruct (q_article_by_message_id json_extract_message_id mid rest)
    as [l e] eqn:E.
  destruct (sql_eq v (Some mid)); [discriminate|].
  inversion H; subst. rewrite (IH eq_refl).
  now destruct (q_article_by_message_id json_extract_message_id mid l2).
Qed.

Lemma numbered_next_number (s : Store) (m : Membership) :
  numbered_next (articles_to_groups s) m ->
  atg_article_number m = next_article_number (atg_group_id m) s.
Proof.
  intros [H1 H2]. unfold next_article_number, group_numbers, memberships_of.
  destruct (sql_max _) as [mx|] eqn:E; simpl.
  - destruct (sql_max_spec _ _ E) as [Hin Hall]. now apply H2.
  - apply sql_max_None in E. now apply H1.
Qed.

(** The article table after a save on a store that answers: the new row is
    there whether or not the names resolve. *)
Lemma saved_articles (a : Article) (names : list string) (s : Store) (t : Z) :
  articles (saved a names t s) =
    articles s ++ [mkArticleRow (next_rowid (map art_id (articles s))) t
                                (HeaderRaw a) (Body a) (Thread a)].
Proof.
  destruct (resolved_ids names s) as [ids|] eqn:Hr.
  - now destruct (saved_store a names ids s t Hr) as (_ & Ha & _).
  - unfold saved. now rewrite (SaveArticle_healthy_unknown a names s t Hr).
Qed.

(** The rows of the saved article found by its Message-Id. *)
Lemma message_id_saved (json_extract_message_id : string -> extracted)
  (a : Article) (names : list string) (ids : list Z) (s : Store) (t : Z)
  (mid : string) :
  resolved_ids names s = Some ids ->
  json_extract_message_id (HeaderRaw a) = Extracted (Some mid) ->
  (forall r, In r (articles s) ->
     exists v, json_extract_message_id (art_header r) = Extracted v /\
               v <> Some mid) ->
  q_article_by_message_id json_extract_message_id mid
    (articles (saved a names t s)) =
    ([mkArticleRow (next_rowid (map art_id (articles s))) t
                   (HeaderRaw a) (Body a) (Thread a)], None).
Proof.
  intros Hr Hmid Hnew.
  destruct (saved_store a names ids s t Hr) as (_ & Ha & _ & _). rewrite Ha.
  rewrite q_article_by_message_id_app
    by (now apply q_article_by_message_id_none).
  cbn [q_article_by_message_id art_header]. rewrite Hmid.
  cbn [sql_eq]. now rewrite String.eqb_refl.
Qed.

(** X8. Round trip through the Message-Id: after a successful save that
    names at least one group, on a well-formed store in which every header
    is JSON and no article has the Message-Id of the new one, GetArticle on
    that Message-Id returns the saved article (raw header, body, thread,
    attachments, the parsed header) with the number it got in the first
    group named. *)
Theorem SaveArticle_then_GetArticle
  (json_extract_message_id : string -> extracted)
  (json_Unmarshal : string -> option Header) (a : Article)
  (names : list string) (gid : Z) (ids : list Z) (mid : string)
  (s : Store) (t t' : Z) :
  wf_store s -> attachments_of_articles s ->
  resolved_ids names s = Some (gid :: ids) ->
  json_extract_message_id (HeaderRaw a) = Extracted (Some mid) ->
  (forall r, In r (articles s) ->
     exists v, json_extract_message_id (art_header r) = Extracted v /\
               v <> Some mid) ->
  exists x,
    GetArticle json_extract_message_id json_Unmarshal mid
      (healthy (saved a names t s) t') =
      ((x, unmarshal_error json_Unmarshal (HeaderRaw a)),
       healthy (saved a names t s) t') /\
    HeaderRaw x = HeaderRaw a /\ Body x = Body a /\ Thread x = Thread a /\
    ArticleNumber x = next_article_number gid s /\
    Attachments x = Attachments a /\
    (forall h, json_Unmarshal (HeaderRaw a) = Some h -> ArticleHeader x = h).
Proof.
  intros Hwf Hat Hr Hmid Hnew.
  rewrite GetArticle_healthy.
  rewrite (message_id_saved json_extract_message_id a names (gid :: ids) s t mid
             Hr Hmid Hnew).
  cbn [art_id].
  destruct (saved_store a names (gid :: ids) s t Hr)
    as (_ & _ & (news & Hm & Hg & Hid & Hturn) & _).
  destruct news as [|m0 rest]; [discriminate|].
  simpl in Hg. inversion Hg as [[Hg0 Hgrest]]. clear Hg.
  inversion Hid as [|? ? Hid0 _]; subst. simpl in Hturn. destruct Hturn as [Hn0 _].
  apply numbered_next_number in Hn0.
  assert (Hq : exists ns, q_number_by_article
                            (next_rowid (map art_id (articles s)))
                            (saved a names t s) =
                          next_article_number (atg_group_id m0) s :: ns).
  { unfold q_number_by_article. rewrite Hm, filter_app.
    rewrite (fresh_article_no_membership s Hwf). cbn [app filter].
    rewrite Hid0, Z.eqb_refl. cbn [map]. rewrite Hn0. eauto. }
  destruct Hq as (ns & Hq). rewrite Hq.
  rewrite (q_attachments_saved a names (atg_group_id m0 :: map atg_group_id rest)
             s t Hat Hr).
  set (x0 := set_Attachments _ (Attachments a)).
  destruct (unmarshal_header_spec json_Unmarshal x0)
    as (He & _ & _ & H3 & H4 & H5 & H6 & H7 & H8).
  exists (fst (unmarshal_header json_Unmarshal x0)).
  split; [|repeat split; assumption].
  change (HeaderRaw x0) with (HeaderRaw a) in He.
  rewrite <- He. now destruct (unmarshal_header json_Unmarshal x0).
Qed.

(** X9. GetArticle without a row to return, in a well-formed store that
    answers, in which every header is JSON and no article has the
    Message-Id asked for: the call fails with sql.ErrNoRows and returns the
    zero article.  It needs a membership too: after a successful save of an
    article with that Message-Id that names no group, the article is
    stored, but GetArticle fails with sql.ErrNoRows (returning the row it
    found).  And it needs JSON in every row it reads: after a save of an
    article whose header is not JSON, whatever groups it names, the call
    fails with the store's error "malformed JSON" and returns the zero
    article. *)
Theorem GetArticle_not_found
  (json_extract_message_id : string -> extracted)
  (json_Unmarshal : string -> option Header) (a : Article) (mid : string)
  (s : Store) (t t' : Z) :
  wf_store s ->
  (forall r, In r (articles s) ->
     exists v, json_extract_message_id (art_header r) = Extracted v /\
               v <> Some mid) ->
  GetArticle json_extract_message_id json_Unmarshal mid (healthy s t') =
    ((zero_Article, Some ErrNoRows), healthy s t') /\
  (json_extract_message_id (HeaderRaw a) = Extracted (Some mid) ->
   fst (SaveArticle a [] (healthy s t)) = Returns None /\
   In (mkArticleRow (next_rowid (map art_id (articles s))) t
                    (HeaderRaw a) (Body a) (Thread a))
      (articles (saved a [] t s)) /\
   exists x,
     GetArticle json_extract_message_id json_Unmarshal mid
       (healthy (saved a [] t s) t') =
       ((x, Some ErrNoRows), healthy (saved a [] t s) t') /\
     HeaderRaw x = HeaderRaw a /\ Body x = Body a) /\
  (json_extract_message_id (HeaderRaw a) = Malformed ->
   forall names,
     GetArticle json_extract_message_id json_Unmarshal mid
       (healthy (saved a names t s) t') =
       ((zero_Article, Some malformed_JSON), healthy (saved a names t s) t')).
Proof.
  intros Hwf Hnew. split; [|split].
  - rewrite GetArticle_healthy.
    now rewrite (q_article_by_message_id_none _ _ _ Hnew).
  - intros Hmid.
    assert (Hr : resolved_ids [] s = Some []) by reflexivity.
    split; [now rewrite (SaveArticle_healthy_ok a [] [] s t Hr)|].
    destruct (saved_store a [] [] s t Hr)
      as (_ & Ha & (news & Hm & Hg & _) & _).
    split; [rewrite Ha; apply in_or_app; right; now left|].
    rewrite GetArticle_healthy.
    rewrite (message_id_saved json_extract_message_id a [] [] s t mid
               Hr Hmid Hnew).
    cbn [art_id].
    destruct news; [|discriminate]. rewrite app_nil_r in Hm.
    unfold q_number_by_article. rewrite Hm.
    rewrite (fresh_article_no_membership s Hwf). cbn [map].
    eexists. split; [reflexivity|]. split; reflexivity.
  - intros Hbad names. rewrite GetArticle_healthy.
    rewrite saved_articles.
    rewrite q_article_by_message_id_app
      by (now apply q_article_by_message_id_none).
    cbn [q_article_by_message_id art_header]. now rewrite Hbad.
Qed.

(** X8 at the sample store: a fourth article, cross-posted, is found by its
    Message-Id with the number it has in the first group named. *)
Lemma SaveArticle_then_GetArticle_witness :
  exists x,
    GetArticle sample_message_id sample_Unmarshal "<4@x>"
      (healthy (saved (sample_article "<4@x>" None)
                      ["alt.test"; "comp.lang.go"] 13 sample_store3) 20) =
      ((x, None),
       healthy (saved (sample_article "<4@x>" None)
                      ["alt.test"; "comp.lang.go"] 13 sample_store3) 20) /\
    ArticleNumber x = 2.
Proof.
  destruct (SaveArticle_then_GetArticle sample_message_id sample_Unmarshal
              (sample_article "<4@x>" None) ["alt.test"; "comp.lang.go"]
              2 [1] "<4@x>" sample_store3 13 20)
    as (x & Hx & _ & _ & _ & Hn & _).
  - exact sample_store3_wf.
  - intros r Hr. vm_compute in Hr. destruct Hr.
  - reflexivity.
  - reflexivity.
  - intros r Hr. vm_compute in Hr.
    destruct Hr as [<-|[<-|[<-|[]]]];
      (eexists; split; [vm_compute; reflexivity|discriminate]).
  - exists x. split; [exact Hx|exact Hn].
Defined.

(** X9 at the sample store: a Message-Id no article has; an article saved
    with no group name; and the same lookup after the save of a header that
    is not JSON. *)
Lemma GetArticle_not_found_witness :
  GetArticle sample_message_id sample_Unmarshal "<4@x>"
    (healthy sample_store3 20) =
    ((zero_Article, Some ErrNoRows), healthy sample_store3 20) /\
  (exists x,
    GetArticle sample_message_id sample_Unmarshal "<4@x>"
      (healthy (saved (sample_article "<4@x>" None) [] 13 sample_store3) 20) =
      ((x, Some ErrNoRows),
       healthy (saved (sample_article "<4@x>" None) [] 13 sample_store3) 20) /\
    Body x = "body") /\
  GetArticle sample_message_id sample_Unmarshal "<4@x>"
    (healthy sample_store4 20) =
    ((zero_Article, Some malformed_JSON), healthy sample_store4 20).
Proof.
  assert (Hnew : forall r, In r (articles sample_store3) ->
            exists v, sample_message_id (art_header r) = Extracted v /\
                      v <> Some "<4@x>").
  { intros r Hr. vm_compute in Hr.
    destruct Hr as [<-|[<-|[<-|[]]]];
      (eexists; split; [vm_compute; reflexivity|discriminate]). }
  split; [|split].
  - exact (proj1 (GetArticle_not_found sample_message_id sample_Unmarshal
                    zero_Article "<4@x>" sample_store3 13 20
                    sample_store3_wf Hnew)).
  - destruct (proj1 (proj2 (GetArticle_not_found sample_message_id
                              sample_Unmarshal (sample_article "<4@x>" None)
                              "<4@x>" sample_store3 13 20
                              sample_store3_wf Hnew)) eq_refl)
      as (_ & _ & x & Hx & _ & Hb).
    exists x. split; [exact Hx|exact Hb].
  - exact (proj2 (proj2 (GetArticle_not_found sample_message_id
                           sample_Unmarshal
                           (mkArticle 0 0 "Message-Id: <4@x>" [] "body" None 0 [])
                           "<4@x>" sample_store3 13 20
                           sample_store3_wf Hnew))
                 eq_refl ["comp.lang.go"]).
Defined.

(** ** Attachment rows belong to stored articles *)

Lemma insert_memberships_attachments (articleID : Z) (gids : list Z) :
  forall w,
    attachments_articles_mapping
      (store (snd (insert_memberships articleID gids w))) =
      attachments_articles_mapping (store w) /\
    articles (store (snd (insert_memberships articleID gids w))) =
      articles (store w).
Proof.
  induction gids as [|v rest IH]; intros w; simpl; [auto|].
  destruct (db_Exec_store (insert_membership articleID v) w)
    as [(_ & Herr & Hs)|(id & _ & _ & Herr & Hs)];
    destruct (db_Exec (insert_membership articleID v) w) as [[res err] w1];
    simpl in *.
  - destruct err as [e|]; [|contradiction]. simpl. now rewrite Hs.
  - subst err. destruct (IH w1) as [H1 H2]. rewrite H1, H2, Hs. auto.
Qed.

Lemma insert_attachments_of_articles (articleID : Z) (atts : list Attachment) :
  forall w, attachments_of_articles (store w) ->
            In articleID (map art_id (articles (store w))) ->
            attachments_of_articles
              (store (snd (insert_attachments articleID atts w))).
Proof.
  induction atts as [|v rest IH]; intros w Hat Hid; simpl; [auto|].
  destruct (db_Exec_store (insert_attachment articleID v) w)
    as [(_ & Herr & Hs)|(id & _ & _ & Herr & Hs)];
    destruct (db_Exec (insert_attachment articleID v) w) as [[res err] w1];
    simpl in *.
  - destruct err as [e|]; [|contradiction]. simpl. now rewrite Hs.
  - subst err. apply IH; rewrite Hs; simpl; [|exact Hid].
    intros r Hr. simpl in Hr. apply in_app_or in Hr.
    destruct Hr as [Hr|[<-|[]]]; [now apply Hat|exact Hid].
Qed.

(** Whatever the store answers, SaveArticle leaves every attachment row
    with a stored article. *)
Lemma SaveArticle_attachments_of_articles (a : Article) (names : list string)
  (w : World) :
  attachments_of_articles (store w) ->
  attachments_of_articles (store (snd (SaveArticle a names w))).
Proof.
  intros Hat. unfold SaveArticle.
  destruct (db_Exec_store (insert_article (HeaderRaw a) (Body a) (Thread a)) w)
    as [(Hres & _ & Hs)|(id & Hres & Hid & _ & Hs)];
    destruct (db_Exec (insert_article (HeaderRaw a) (Body a) (Thread a)) w)
      as [[res err] w1]; simpl in Hres, Hs; subst res.
  - simpl. now rewrite Hs.
  - cbn [LastInsertId].
    assert (Hat1 : attachments_of_articles (store w1)).
    { rewrite Hs. intros r Hr. simpl in *. rewrite map_app. apply in_or_app.
      left. now apply Hat. }
    assert (Hin : In id (map art_id (articles (store w1)))).
    { rewrite Hs, Hid. simpl. rewrite map_app. apply in_or_app. right.
      now left. }
    pose proof (resolve_groups_store names [] w1) as Hr.
    destruct (resolve_groups names [] w1) as [[gids|e] w2]; simpl in Hr.
    + destruct (insert_memberships_attachments id gids w2) as [Ht Ha].
      assert (Hat3 : attachments_of_articles
                       (store (snd (insert_memberships id gids w2)))).
      { intros r Hr'. rewrite Ht in Hr'. rewrite Ha, Hr. apply Hat1.
        now rewrite <- Hr. }
      assert (Hin3 : In id (map art_id
                (articles (store (snd (insert_memberships id gids w2))))))
        by (now rewrite Ha, Hr).
      pose proof (insert_attachments_of_articles id (Attachments a) _ Hat3 Hin3)
        as Hat4.
      destruct (insert_memberships id gids w2) as [[e|] w3]; simpl in *;
        [exact Hat3|].
      destruct (insert_attachments id (Attachments a) w3) as [[e|] w4];
        exact Hat4.
    + simpl. now rewrite Hr.
Qed.

Lemma reachable_attachments (s : Store) :
  reachable s -> attachments_of_articles s.
Proof.
  induction 1 as [gs|a names w Hr IH]; [intros r []|].
  now apply SaveArticle_attachments_of_articles.
Qed.

(** X10. Whatever the store answers, SaveArticle keeps the store
    well-formed (article IDs distinct, every membership of a stored
    article, numbers distinct within a group and at least 1) and keeps
    every attachment row with a stored article; a store with groups only
    has both properties, so every store SaveArticle builds has them. *)
Theorem SaveArticle_keeps_invariants (a : Article) (names : list string)
  (w : World) :
  (wf_store (store w) -> wf_store (store (snd (SaveArticle a names w)))) /\
  (attachments_of_articles (store w) ->
   attachments_of_articles (store (snd (SaveArticle a names w)))) /\
  (forall s, reachable s -> wf_store s /\ attachments_of_articles s).
Proof.
  split; [apply SaveArticle_wf|].
  split; [apply SaveArticle_attachments_of_articles|].
  intros s Hr. split; [now apply reachable_wf|now apply reachable_attachments].
Qed.

(** ** Range and neighbour queries do not load attachments *)

Lemma unmarshal_header_attachments (json_Unmarshal : string -> option Header)
  (x : Article) :
  Attachments (fst (unmarshal_header json_Unmarshal x)) = Attachments x.
Proof.
  unfold unmarshal_header. now destruct (json_Unmarshal (HeaderRaw x)).
Qed.

Lemma populate_attachments (json_Unmarshal : string -> option Header)
  (l : list Article) :
  forall w, Forall (fun x => Attachments x = []) l ->
            Forall (fun x => Attachments x = [])
                   (fst (fst (populate json_Unmarshal l w))).
Proof.
  induction l as [|x rest IH]; intros w Hl; simpl; [constructor|].
  inversion Hl as [|? ? Hx Hrest]; subst.
  destruct (db_Get (q_number_by_article (ArticleID x)) (ArticleNumber x) w)
    as [[n err] w1].
  destruct err as [e|]; [constructor|].
  pose proof (unmarshal_header_attachments json_Unmarshal (set_ArticleNumber x n))
    as Hu.
  destruct (unmarshal_header json_Unmarshal (set_ArticleNumber x n)) as [x' [e|]];
    [constructor|].
  specialize (IH w1 Hrest).
  destruct (populate json_Unmarshal rest w1) as [[rest' [e|]] w2];
    [constructor|].
  simpl in *. constructor; [now rewrite Hu|exact IH].
Qed.

Lemma number_and_header_attachments (json_Unmarshal : string -> option Header)
  (q : Store -> list ArticleRow) (w : World) :
  Attachments
    (fst (fst (number_and_header json_Unmarshal
                 (db_GetScan q scan_article zero_Article w)))) = [].
Proof.
  assert (H0 : Attachments (fst (fst (db_GetScan q scan_article zero_Article w))) = []).
  { unfold db_GetScan. destruct (next_fault w) as [[code|] w1]; [reflexivity|].
    destruct (q (store w1)); reflexivity. }
  unfold number_and_header.
  destruct (db_GetScan q scan_article zero_Article w) as [[x [e|]] w1];
    [exact H0|].
  simpl in H0.
  destruct (db_Get (q_number_by_article (ArticleID x)) (ArticleNumber x) w1)
    as [[n [e|]] w2]; [exact H0|].
  simpl. rewrite unmarshal_header_attachments. exact H0.
Qed.

(** X11. GetArticlesByRange, GetLastArticleByNum and GetNextArticleByNum
    never read the attachment table: whatever the store holds and answers,
    every article they return has an empty attachment list. *)
Theorem range_and_neighbours_without_attachments
  (json_Unmarshal : string -> option Header) (g : Group) (a : Article)
  (low high : Z) (w : World) :
  Forall (fun x => Attachments x = [])
         (fst (fst (GetArticlesByRange json_Unmarshal g low high w))) /\
  Attachments (fst (fst (GetLastArticleByNum json_Unmarshal g a w))) = [] /\
  Attachments (fst (fst (GetNextArticleByNum json_Unmarshal g a w))) = [].
Proof.
  split; [|split; apply number_and_header_attachments].
  unfold GetArticlesByRange.
  destruct (db_Select (q_articles_by_range low high (ID g)) w)
    as [[rows [e|]] w1]; [constructor|].
  apply populate_attachments.
  apply Forall_forall. intros x Hx. apply in_map_iff in Hx.
  destruct Hx as (r & <- & _). reflexivity.
Qed.

(** ** GetNewThreads: pages of root articles *)

Lemma wrap64_small (z : Z) : - 2 ^ 63 <= z < 2 ^ 63 -> wrap64 z = z.
Proof.
  intros H. unfold wrap64. rewrite Z.mod_small; lia.
Qed.

Lemma GetNewThreads_healthy (g : Group) (perPage pageNum : Z) (s : Store) (t : Z) :
  GetNewThreads g perPage pageNum (healthy s t) =
    ((map (fun am => atg_article_number (snd am))
          (limit_offset perPage (wrap64 (perPage * pageNum))
                        (q_root_rows (ID g) s)), None), healthy s t).
Proof. reflexivity. Qed.

Lemma firstn_plus {A : Type} (a b : nat) (l : list A) :
  firstn (a + b) l = firstn a l ++ firstn b (skipn a l).
Proof.
  revert l. induction a as [|a IH]; intros l; [reflexivity|].
  destruct l as [|x l]; simpl; [now rewrite firstn_nil|].
  now rewrite IH.
Qed.

(** Cutting a list into [n] pages of [k] rows and putting them together. *)
Lemma pages_concat {A : Type} (k n : nat) (l : list A) :
  List.concat (map (fun p => firstn k (skipn (p * k) l)) (seq 0 n)) =
    firstn (n * k) l.
Proof.
  induction n as [|n IH]; [reflexivity|].
  rewrite seq_S, map_app, List.concat_app, IH. simpl.
  rewrite app_nil_r. rewrite (Nat.add_comm k (n * k)).
  now rewrite firstn_plus.
Qed.

(** X12. Paging through the root articles: with a positive page size, and
    as long as the offsets stay in Go's int, the pages 0, 1, ..., n-1 put
    together are the first n*perPage root articles of the full listing
    (the one a negative page size returns), in its order, with no row
    repeated or skipped; once n*perPage reaches its length they are the
    full listing. *)
Theorem GetNewThreads_pages (g : Group) (perPage : Z) (n : nat)
  (s : Store) (t : Z) :
  0 < perPage -> Z.of_nat n * perPage < 2 ^ 63 ->
  let page p := fst (fst (GetNewThreads g perPage (Z.of_nat p) (healthy s t))) in
  let listing := fst (fst (GetNewThreads g (-1) 0 (healthy s t))) in
  List.concat (map page (seq 0 n)) = firstn (n * Z.to_nat perPage) listing /\
  ((List.length listing <= n * Z.to_nat perPage)%nat ->
   List.concat (map page (seq 0 n)) = listing).
Proof.
  intros Hpos Hmax page listing.
  assert (Hlist : listing = map (fun am => atg_article_number (snd am))
                                (q_root_rows (ID g) s)).
  { unfold listing. rewrite GetNewThreads_healthy. reflexivity. }
  assert (Hpage : forall p, In p (seq 0 n) ->
            page p = firstn (Z.to_nat perPage)
                            (skipn (p * Z.to_nat perPage) listing)).
  { intros p Hp. apply in_seq in Hp. unfold page.
    rewrite GetNewThreads_healthy. cbn [fst]. rewrite Hlist.
    rewrite wrap64_small by nia.
    unfold limit_offset.
    destruct (Z.ltb_spec perPage 0) as [C|_]; [lia|].
    rewrite skipn_map, firstn_map. do 3 f_equal.
    rewrite Z2Nat.inj_mul by lia. rewrite Nat2Z.id. lia. }
  assert (H1 : List.concat (map page (seq 0 n)) =
               firstn (n * Z.to_nat perPage) listing).
  { rewrite <- pages_concat. f_equal. now apply map_ext_in. }
  split; [exact H1|].
  intros Hlen. rewrite H1. now apply firstn_all2.
Qed.

(** X12 at the sample store: two pages of two cover the three root
    articles of comp.lang.go, newest first. *)
Lemma GetNewThreads_pages_witness :
  fst (fst (GetNewThreads go_group 2 0 (healthy sample_store3 20))) ++
  fst (fst (GetNewThreads go_group 2 1 (healthy sample_store3 20))) ++ [] =
  fst (fst (GetNewThreads go_group (-1) 0 (healthy sample_store3 20))).
Proof.
  apply (GetNewThreads_pages go_group 2 2 sample_store3 20); [lia|lia|].
  vm_compute. lia.
Defined.

Lemma limit_offset_not_positive {R : Type} (n m : Z) (l : list R) :
  m <= 0 -> limit_offset n m l = limit_offset n 0 l.
Proof.
  intros H. unfold limit_offset.
  replace (Z.to_nat m) with 0%nat by lia. reflexivity.
Qed.

(** X13. The offset sent to the store is perPage*pageNum computed in Go's
    int. Whenever it is not positive (page 0, a product that wraps around
    to a negative int, a negative page size with a page number that is not
    negative) the store skips nothing and the call returns what page 0
    returns; and with a negative page size that is the full listing. *)
Theorem GetNewThreads_offset_not_positive (g : Group) (perPage pageNum : Z)
  (w : World) :
  wrap64 (perPage * pageNum) <= 0 ->
  GetNewThreads g perPage pageNum w = GetNewThreads g perPage 0 w /\
  (perPage < 0 ->
   GetNewThreads g perPage pageNum w = GetNewThreads g (-1) 0 w).
Proof.
  intros H.
  assert (E : forall l : list (ArticleRow * Membership),
            limit_offset perPage (wrap64 (perPage * pageNum)) l =
            limit_offset perPage (wrap64 (perPage * 0)) l).
  { intros l. rewrite Z.mul_0_r. change (wrap64 0) with 0.
    now apply limit_offset_not_positive. }
  split.
  - unfold GetNewThreads, db_Select.
    destruct (next_fault w) as [[code|] w1]; [reflexivity|]. now rewrite E.
  - intros Hneg. unfold GetNewThreads, db_Select.
    destruct (next_fault w) as [[code|] w1]; [reflexivity|]. rewrite E.
    rewrite Z.mul_0_r. change (wrap64 (-1 * 0)) with 0. change (wrap64 0) with 0.
    unfold limit_offset.
    destruct (Z.ltb_spec perPage 0) as [_|C]; [reflexivity|lia].
Qed.

(** X13 where the product wraps: page 2^31 of pages of 2^32 rows is page 0. *)
Lemma GetNewThreads_offset_not_positive_witness :
  GetNewThreads go_group (2 ^ 32) (2 ^ 31) (healthy sample_store3 20) =
  GetNewThreads go_group (2 ^ 32) 0 (healthy sample_store3 20).
Proof.
  refine (proj1 (GetNewThreads_offset_not_positive go_group (2 ^ 32) (2 ^ 31)
                   (healthy sample_store3 20) _)).
  vm_compute. discriminate.
Defined.

(** ** Roots and replies *)

Lemma In_firstn {A : Type} (n : nat) (l : list A) (x : A) :
  In x (firstn n l) -> In x l.
Proof.
  intros H. rewrite <- (firstn_skipn n l). apply in_or_app. now left.
Qed.

Lemma In_skipn {A : Type} (n : nat) (l : list A) (x : A) :
  In x (skipn n l) -> In x l.
Proof.
  intros H. rewrite <- (firstn_skipn n l). apply in_or_app. now right.
Qed.

Lemma limit_offset_In {R : Type} (n m : Z) (l : list R) (x : R) :
  In x (limit_offset n m l) -> In x l.
Proof.
  unfold limit_offset. intros H.
  destruct (n <? 0).
  - eapply In_skipn; exact H.
  - apply In_firstn in H. eapply In_skipn; exact H.
Qed.

(** A number GetNewThreads returns belongs to a root article of the group. *)
Lemma GetNewThreads_In (g : Group) (perPage pageNum : Z) (w : World) (n : Z) :
  In n (fst (fst (GetNewThreads g perPage pageNum w))) ->
  exists r m, In (r, m) (joined (store w)) /\ atg_group_id m = ID g /\
              art_thread r = None /\ atg_article_number m = n.
Proof.
  unfold GetNewThreads, db_Select.
  assert (Hs : store (snd (next_fault w)) = store w).
  { unfold next_fault. destruct w as [s fs t]; simpl. now destruct fs. }
  destruct (next_fault w) as [[code|] w1]; simpl in *; [intros []|].
  rewrite Hs. intros H. apply in_map_iff in H. destruct H as ([r m] & Hn & Hin).
  apply limit_offset_In in Hin. unfold q_root_rows in Hin.
  apply (order_by_In _ Z.geb) in Hin.
  apply filter_In in Hin. destruct Hin as [Hj Hc]. simpl in Hc, Hn.
  apply andb_true_iff in Hc. destruct Hc as [Hg Ht]. apply Z.eqb_eq in Hg.
  exists r, m. repeat split; auto. now destruct (art_thread r).
Qed.

(** A number GetThread returns belongs to an article of the group that has
    a thread. *)
Lemma GetThread_In (json_extract_message_id : string -> extracted)
  (g : Group) (threadNum : Z) (w : World) (n : Z) :
  In n (fst (fst (GetThread json_extract_message_id g threadNum w))) ->
  exists r m, In (r, m) (joined (store w)) /\ atg_group_id m = ID g /\
              art_thread r <> None /\ atg_article_number m = n.
Proof.
  unfold GetThread, db_SelectRun.
  assert (Hs : store (snd (next_fault w)) = store w).
  { unfold next_fault. destruct w as [s fs t]; simpl. now destruct fs. }
  destruct (next_fault w) as [[code|] w1]; simpl in *; [intros []|].
  rewrite Hs. unfold q_thread.
  destruct (root_message_id json_extract_message_id (ID g) threadNum (store w))
    as [|mid]; [intros []|].
  cbn [fst]. intros H. apply in_map_iff in H. destruct H as ([r m] & Hn & Hin).
  unfold q_thread_rows in Hin. apply (order_by_In _ Z.leb) in Hin.
  apply filter_In in Hin. destruct Hin as [Hj Hc]. simpl in Hc, Hn.
  apply andb_true_iff in Hc. destruct Hc as [Hg Ht]. apply Z.eqb_eq in Hg.
  exists r, m. repeat split; auto.
  intros E. rewrite E in Ht. discriminate.
Qed.

(** X14. In a well-formed store, whatever the store answers, no article
    number is both a root listed by GetNewThreads and a reply listed by
    GetThread, for any page and any root number; and every number either
    call returns is a number of the group. *)
Theorem roots_and_replies_apart
  (json_extract_message_id : string -> extracted) (g : Group)
  (perPage pageNum threadNum : Z) (w : World) (n : Z) :
  wf_store (store w) ->
  (In n (fst (fst (GetNewThreads g perPage pageNum w))) ->
   In n (group_numbers (ID g) (store w)) /\
   ~ In n (fst (fst (GetThread json_extract_message_id g threadNum w)))) /\
  (In n (fst (fst (GetThread json_extract_message_id g threadNum w))) ->
   In n (group_numbers (ID g) (store w))).
Proof.
  intros Hwf.
  assert (Hnum : forall r m, In (r, m) (joined (store w)) ->
            atg_group_id m = ID g -> atg_article_number m = n ->
            In n (group_numbers (ID g) (store w))).
  { intros r m Hj Hg Hn. unfold group_numbers. rewrite <- Hn.
    apply in_map. apply In_memberships_of. apply In_joined in Hj. tauto. }
  split.
  - intros H1. apply GetNewThreads_In in H1.
    destruct H1 as (r1 & m1 & Hj1 & Hg1 & Ht1 & Hn1).
    split; [now apply (Hnum r1 m1)|].
    intros H2. apply GetThread_In in H2.
    destruct H2 as (r2 & m2 & Hj2 & Hg2 & Ht2 & Hn2).
    destruct (same_number_same_row (store w) (ID g) r1 r2 m1 m2 Hwf Hj1 Hj2
                Hg1 Hg2) as [-> _]; [congruence|contradiction].
  - intros H2. apply GetThread_In in H2.
    destruct H2 as (r2 & m2 & Hj2 & Hg2 & _ & Hn2). now apply (Hnum r2 m2).
Qed.

(** X14 at the sample store: 3 is a reply to 2 in comp.lang.go, so it is
    not listed as a root. *)
Lemma roots_and_replies_apart_witness :
  In 2 (group_numbers 1 sample_store3) /\
  ~ In 2 (fst (fst (GetThread sample_message_id go_group 2
                      (healthy sample_store3 20)))).
Proof.
  apply (roots_and_replies_apart sample_message_id go_group (-1) 0 2
           (healthy sample_store3 20) 2 sample_store3_wf).
  vm_compute. auto.
Defined.

(** ** GetNewArticlesSince *)

Lemma GetNewArticlesSince_healthy
  (json_extract_message_id : string -> extracted) (timestamp : Z)
  (s : Store) (t : Z) :
  GetNewArticlesSince json_extract_message_id timestamp (healthy s t) =
    (message_ids_of json_extract_message_id
       (filter (fun r => art_created_at r >? timestamp) (articles s)),
     healthy s t).
Proof.
  unfold GetNewArticlesSince, message_ids_of. rewrite db_SelectRun_healthy.
  destruct (extract_message_ids _ _) as [vals err].
  now destruct (scan_strings vals) as [l [e|]].
Qed.

Lemma message_ids_of_text (json_extract_message_id : string -> extracted)
  (r : ArticleRow) (rest : list ArticleRow) (x : string) :
  json_extract_message_id (art_header r) = Extracted (Some x) ->
  message_ids_of json_extract_message_id (r :: rest) =
    (x :: fst (message_ids_of json_extract_message_id rest),
     snd (message_ids_of json_extract_message_id rest)).
Proof.
  intros H. unfold message_ids_of. cbn [extract_message_ids]. rewrite H.
  destruct (extract_message_ids json_extract_message_id rest) as [vals err].
  cbn [scan_strings]. now destruct (scan_strings vals) as [l [e|]].
Qed.

(** A listing that succeeded is a prefix of the listing of more rows. *)
Lemma message_ids_of_app (json_extract_message_id : string -> extracted)
  (l1 l2 : list ArticleRow) (old : list string) :
  message_ids_of json_extract_message_id l1 = (old, None) ->
  message_ids_of json_extract_message_id (l1 ++ l2) =
    (old ++ fst (message_ids_of json_extract_message_id l2),
     snd (message_ids_of json_extract_message_id l2)).
Proof.
  revert old. induction l1 as [|r l1 IH]; intros old H.
  - vm_compute in H. inversion H; subst. cbn [app].
    now destruct (message_ids_of json_extract_message_id l2).
  - destruct (json_extract_message_id (art_header r)) as [|[x|]] eqn:E.
    + unfold message_ids_of in H. cbn [extract_message_ids] in H.
      rewrite E in H. discriminate.
    + rewrite (message_ids_of_text _ r l1 x E) in H.
      cbn [app]. rewrite (message_ids_of_text _ r (l1 ++ l2) x E).
      destruct (message_ids_of json_extract_message_id l1) as [l e] eqn:E1.
      inversion H; subst. rewrite (IH l eq_refl). reflexivity.
    + unfold message_ids_of in H. cbn [extract_message_ids] in H.
      rewrite E in H.
      destruct (extract_message_ids json_extract_message_id l1).
      discriminate.
Qed.

(** X15. GetNewArticlesSince after a save, on a store that answers: if the
    listing for a timestamp succeeded before the save, then after a save at
    time t of an article with a Message-Id the listing is the old one with
    that Message-Id added at the end when the timestamp is before t, and
    the old one unchanged otherwise (an article created exactly at the
    timestamp is not listed). This holds also when the save failed on an
    unknown group name. *)
Theorem SaveArticle_then_GetNewArticlesSince
  (json_extract_message_id : string -> extracted) (a : Article)
  (names : list string) (mid : string) (old : list string)
  (s : Store) (timestamp t t' : Z) :
  datetime_range timestamp ->
  json_extract_message_id (HeaderRaw a) = Extracted (Some mid) ->
  fst (GetNewArticlesSince json_extract_message_id timestamp (healthy s t')) =
    (old, None) ->
  GetNewArticlesSince json_extract_message_id timestamp
    (healthy (saved a names t s) t') =
    ((if timestamp <? t then old ++ [mid] else old, None),
     healthy (saved a names t s) t').
Proof.
  intros _ Hmid Hold. rewrite GetNewArticlesSince_healthy in *.
  cbn [fst] in Hold.
  rewrite saved_articles, filter_app.
  rewrite (message_ids_of_app _ _ _ old Hold).
  cbn [filter art_created_at]. rewrite Z.gtb_ltb.
  destruct (timestamp <? t); cbv iota.
  - rewrite (message_ids_of_text json_extract_message_id
               (mkArticleRow (next_rowid (map art_id (articles s))) t
                             (HeaderRaw a) (Body a) (Thread a)) [] mid Hmid).
    reflexivity.
  - cbn [message_ids_of extract_message_ids scan_strings fst snd].
    now rewrite app_nil_r.
Qed.

(** X15 at the sample store: a fourth article saved at time 13, asked for
    since 11. *)
Lemma SaveArticle_then_GetNewArticlesSince_witness :
  GetNewArticlesSince sample_message_id 11
    (healthy (saved (sample_article "<4@x>" None) ["no.such.group"] 13
                    sample_store3) 20) =
    ((["<3@x>"; "<4@x>"], None),
     healthy (saved (sample_article "<4@x>" None) ["no.such.group"] 13
                    sample_store3) 20).
Proof.
  apply (SaveArticle_then_GetNewArticlesSince sample_message_id
           (sample_article "<4@x>" None) ["no.such.group"] "<4@x>" ["<3@x>"]
           sample_store3 11 13 20).
  - unfold datetime_range. lia.
  - reflexivity.
  - reflexivity.
Defined.

(** ** Groups *)

Lemma GetGroup_healthy (name : string) (s : Store) (t : Z) :
  GetGroup name (healthy s t) =
    (match lookup_group name s with
     | Some g => (g, None)
     | None => (zero_Group, Some ErrNoRows)
     end, healthy s t).
Proof.
  rewrite (GetGroup_quiet _ _ (quiet_healthy 1 s t)). now rewrite later_healthy.
Qed.

Lemma lookup_group_unique (gs : list Group) (g : Group) :
  NoDup (map GroupName gs) -> In g gs ->
  hd_error (filter (fun x => String.eqb (GroupName x) (GroupName g)) gs) = Some g.
Proof.
  induction gs as [|x rest IH]; intros Hnd Hin; [destruct Hin|].
  simpl in Hnd. apply NoDup_cons_iff in Hnd. destruct Hnd as [Hx Hnd].
  simpl. destruct (String.eqb_spec (GroupName x) (GroupName g)) as [E|N].
  - destruct Hin as [->|Hin]; [reflexivity|].
    exfalso. apply Hx. rewrite E. now apply in_map.
  - destruct Hin as [->|Hin]; [contradiction|]. now apply IH.
Qed.

(** X16. Listing and lookup agree: on a store that answers, ListGroups
    returns every group; when the names are distinct, GetGroup on the name
    of any listed group returns that group; and GetGroup on a name no
    listed group has fails with sql.ErrNoRows and returns the zero group. *)
Theorem ListGroups_then_GetGroup (s : Store) (t : Z) :
  ListGroups (healthy s t) = ((groups s, None), healthy s t) /\
  (NoDup (map GroupName (groups s)) ->
   forall g, In g (fst (fst (ListGroups (healthy s t)))) ->
             GetGroup (GroupName g) (healthy s t) = ((g, None), healthy s t)) /\
  (forall name,
     (forall g, In g (fst (fst (ListGroups (healthy s t)))) ->
                GroupName g <> name) ->
     GetGroup name (healthy s t) = ((zero_Group, Some ErrNoRows), healthy s t)).
Proof.
  split; [reflexivity|]. split.
  - intros Hnd g Hin. rewrite GetGroup_healthy. unfold lookup_group.
    now rewrite (lookup_group_unique (groups s) g Hnd Hin).
  - intros name Hno. rewrite GetGroup_healthy.
    now rewrite (proj2 (lookup_group_None name s) Hno).
Qed.

(** X17. GetNewGroupsSince, on a store that answers, returns groups that
    ListGroups returns, each created strictly after the timestamp; a later
    timestamp never adds a group to the answer; and SaveArticle, whatever
    the store answers, changes neither listing. *)
Theorem GetNewGroupsSince_listing (ts1 ts2 : Z) (s : Store) (t : Z) :
  datetime_range ts1 -> datetime_range ts2 -> ts1 <= ts2 ->
  (forall g, In g (fst (fst (GetNewGroupsSince ts2 (healthy s t)))) ->
     In g (fst (fst (GetNewGroupsSince ts1 (healthy s t)))) /\
     In g (fst (fst (ListGroups (healthy s t)))) /\
     ts2 < GroupCreatedAt g) /\
  (forall a names w,
     store w = s ->
     GetNewGroupsSince ts1 (healthy (store (snd (SaveArticle a names w))) t) =
       (fst (GetNewGroupsSince ts1 (healthy s t)),
        healthy (store (snd (SaveArticle a names w))) t) /\
     fst (ListGroups (healthy (store (snd (SaveArticle a names w))) t)) =
       fst (ListGroups (healthy s t))).
Proof.
  intros _ _ Hle. split.
  - intros g Hin. unfold GetNewGroupsSince, ListGroups in *.
    rewrite db_Select_healthy in *. cbn [fst] in *.
    apply filter_In in Hin. destruct Hin as [Hin Hc].
    rewrite Z.gtb_ltb in Hc. apply Z.ltb_lt in Hc.
    split; [|split; [exact Hin|exact Hc]].
    apply filter_In. split; [exact Hin|]. rewrite Z.gtb_ltb. apply Z.ltb_lt. lia.
  - intros a names w <-.
    destruct (SaveArticle_appended a names w) as ((Hg & _) & _).
    unfold GetNewGroupsSince, ListGroups. rewrite !db_Select_healthy.
    cbn [fst]. rewrite Hg. split; reflexivity.
Qed.

(** X17 at the sample store: both groups are newer than 99, only alt.test
    is newer than 100. *)
Lemma GetNewGroupsSince_listing_witness :
  In alt_group (fst (fst (GetNewGroupsSince 99 (healthy sample_store3 20)))) /\
  In alt_group (fst (fst (ListGroups (healthy sample_store3 20)))) /\
  100 < GroupCreatedAt alt_group.
Proof.
  apply (GetNewGroupsSince_listing 99 100 sample_store3 20);
    try (unfold datetime_range; lia).
  vm_compute. auto.
Defined.

(** ** Counting after a save *)

(** X18. On a store that answers, a successful save adds to each group as
    many articles as names resolve to it: GetArticlesCount grows by that
    number, so a group named twice holds the article twice, under two
    numbers, and a group not named keeps its count and its numbers. *)
Theorem SaveArticle_then_GetArticlesCount (a : Article) (names : list string)
  (ids : list Z) (g : Group) (s : Store) (t t' : Z) :
  resolved_ids names s = Some ids ->
  let k := List.length (filter (fun v => v =? ID g) ids) in
  fst (fst (GetArticlesCount g (healthy (saved a names t s) t'))) =
    fst (fst (GetArticlesCount g (healthy s t'))) + Z.of_nat k /\
  group_numbers (ID g) (saved a names t s) =
    group_numbers (ID g) s ++ consecutive (next_article_number (ID g) s) k.
Proof.
  intros Hr k.
  pose proof (group_numbers_saved a names ids s t (ID g) Hr) as Hn. fold k in Hn.
  split; [|exact Hn].
  unfold GetArticlesCount, db_Get.
  rewrite !(db_GetScan_quiet _ _ _ _ (quiet_healthy 1 _ _)).
  cbn [fst store healthy].
  assert (Hlen : forall s0, List.length (memberships_of (ID g) s0) =
                            List.length (group_numbers (ID g) s0))
    by (intros s0; unfold group_numbers; now rewrite length_map).
  rewrite !Hlen, Hn, length_app, consecutive_length. lia.
Qed.

(** X18 at the sample store: comp.lang.go named twice. *)
Lemma SaveArticle_then_GetArticlesCount_witness :
  fst (fst (GetArticlesCount go_group
              (healthy (saved (sample_article "<4@x>" None)
                              ["comp.lang.go"; " comp.lang.go "] 13
                              sample_store3) 20))) =
    fst (fst (GetArticlesCount go_group (healthy sample_store3 20))) + 2 /\
  group_numbers 1 (saved (sample_article "<4@x>" None)
                         ["comp.lang.go"; " comp.lang.go "] 13 sample_store3) =
    [1; 2; 3; 4; 5].
Proof.
  exact (SaveArticle_then_GetArticlesCount (sample_article "<4@x>" None)
           ["comp.lang.go"; " comp.lang.go "] [1; 1] go_group sample_store3
           13 20 eq_refl).
Defined.

(** ** Forward, then back *)

(** X19. In a well-formed store that answers, let two memberships of the
    group hold numbers with no number of the group between them, and let
    the first membership row of the second one's article be that
    membership (as for an article posted to this group only). Then
    GetNextArticleByNum from the first number returns the second article
    carrying its number in the group, and GetLastArticleByNum from the
    article returned leads back to the article of the first membership. *)
Theorem next_then_last (json_Unmarshal : string -> option Header)
  (g : Group) (a : Article) (m1 m2 : Membership) (s : Store) (t : Z) :
  wf_store s ->
  In m1 (memberships_of (ID g) s) -> In m2 (memberships_of (ID g) s) ->
  atg_article_number m1 < atg_article_number m2 ->
  (forall m, In m (memberships_of (ID g) s) ->
             atg_article_number m <= atg_article_number m1 \/
             atg_article_number m2 <= atg_article_number m) ->
  hd_error (q_number_by_article (atg_article_id m2) s) =
    Some (atg_article_number m2) ->
  ArticleNumber a = atg_article_number m1 ->
  let w := healthy s t in
  exists x y,
    fst (fst (GetNextArticleByNum json_Unmarshal g a w)) = x /\
    ArticleID x = atg_article_id m2 /\
    ArticleNumber x = atg_article_number m2 /\
    fst (fst (GetLastArticleByNum json_Unmarshal g x w)) = y /\
    ArticleID y = atg_article_id m1 /\
    snd (fst (GetLastArticleByNum json_Unmarshal g x w)) <> Some ErrNoRows.
Proof.
  intros Hwf H1 H2 Hlt Hgap Hfirst Ha w.
  apply In_memberships_of in H1. destruct H1 as [H1 G1].
  apply In_memberships_of in H2. destruct H2 as [H2 G2].
  destruct (wf_memberships s Hwf m1 H1) as (r1 & Hr1 & Hid1).
  destruct (wf_memberships s Hwf m2 H2) as (r2 & Hr2 & Hid2).
  assert (Hq2 : q_next_article (ArticleNumber a) (ID g) s = [r2]).
  { apply (first_row Z.leb (fun x => x >? ArticleNumber a) s (ID g) r2 m2);
      [apply Z.leb_refl|apply leb_trans|apply leb_total| |exact Hwf|
       |exact G2| |].
    - intros x y. rewrite !Z.leb_le. lia.
    - apply In_joined. auto.
    - rewrite Z.gtb_ltb. apply Z.ltb_lt. lia.
    - intros m' Hm' Hp. rewrite Z.gtb_ltb in Hp. apply Z.ltb_lt in Hp.
      rewrite Z.leb_le. destruct (Hgap m' Hm'); lia. }
  destruct (number_and_header_row json_Unmarshal
              (q_next_article (ArticleNumber a) (ID g)) s t r2 m2 Hq2 H2
              (eq_sym Hid2)) as (x & Hx & Hrow2 & Hnum2 & _).
  assert (Hxid : ArticleID x = atg_article_id m2)
    by (rewrite (proj1 Hrow2); exact Hid2).
  assert (Hxn : ArticleNumber x = atg_article_number m2).
  { rewrite Hxid, Hfirst in Hnum2. now inversion Hnum2. }
  assert (Hq1 : q_last_article (ArticleNumber x) (ID g) s = [r1]).
  { apply (first_row Z.geb (fun z => z <? ArticleNumber x) s (ID g) r1 m1);
      [apply geb_refl|apply geb_trans|apply geb_total| |exact Hwf|
       |exact G1| |].
    - intros u v. rewrite !Z.geb_leb, !Z.leb_le. lia.
    - apply In_joined. auto.
    - apply Z.ltb_lt. lia.
    - intros m' Hm' Hp. apply Z.ltb_lt in Hp.
      rewrite Z.geb_leb, Z.leb_le. destruct (Hgap m' Hm'); lia. }
  destruct (number_and_header_row json_Unmarshal
              (q_last_article (ArticleNumber x) (ID g)) s t r1 m1 Hq1 H1
              (eq_sym Hid1)) as (y & Hy & Hrow1 & _).
  exists x, y. unfold GetNextArticleByNum, GetLastArticleByNum, w.
  rewrite Hx, Hy. cbn [fst snd].
  repeat split; try assumption.
  - rewrite (proj1 Hrow1). exact Hid1.
  - unfold unmarshal_error. destruct (json_Unmarshal (art_header r1)); discriminate.
Qed.

(** X19 at the sample store: from number 2 of comp.lang.go to number 3 and
    back. *)
Lemma next_then_last_witness :
  exists x y,
    fst (fst (GetNextArticleByNum sample_Unmarshal go_group
                (set_ArticleNumber zero_Article 2) (healthy sample_store3 20))) = x /\
    ArticleID x = 3 /\ ArticleNumber x = 3 /\
    fst (fst (GetLastArticleByNum sample_Unmarshal go_group x
                (healthy sample_store3 20))) = y /\
    ArticleID y = 2.
Proof.
  assert (HG : memberships_of (ID go_group) sample_store3 =
               [mkMembership 1 1 1; mkMembership 2 2 1; mkMembership 3 3 1])
    by reflexivity.
  destruct (next_then_last sample_Unmarshal go_group
              (set_ArticleNumber zero_Article 2)
              (mkMembership 2 2 1) (mkMembership 3 3 1) sample_store3 20)
    as (x & y & H1 & H2 & H3 & H4 & H5 & _).
  - exact sample_store3_wf.
  - rewrite HG. right. now left.
  - rewrite HG. right. right. now left.
  - simpl. lia.
  - rewrite HG. intros m [<-|[<-|[<-|[]]]]; simpl; lia.
  - reflexivity.
  - reflexivity.
  - exists x, y. auto.
Defined.

(** X3 at the sample store: the lookup of the second name is rejected. *)
Lemma SaveArticle_lookup_error_witness :
  SaveArticle (sample_article "<1@x>" None) ["comp.lang.go"; "alt.test"]
    (mkWorld sample_store [None; None; Some "database is locked"] 10) =
    (Returns (Some (StoreError "database is locked")),
     mkWorld (mkStore [go_group; alt_group]
                [mkArticleRow 1 10 (header_text "<1@x>") "body" None] [] [])
             [] 10).
Proof.
  exact (SaveArticle_lookup_error (sample_article "<1@x>" None)
           ["comp.lang.go"] "alt.test" [] [1] sample_store
           "database is locked" [] 10 eq_refl).
Defined.

(** X4 at the sample store: two attachments, the second insert rejected. *)
Lemma SaveArticle_attachment_error_witness :
  SaveArticle (mkArticle 0 0 (header_text "<1@x>") [] "body" None 0
                 [mkAttachment "image/png" "f1.png";
                  mkAttachment "text/plain" "f2.txt"])
    ["comp.lang.go"]
    (mkWorld sample_store [None; None; None; None; Some "disk full"] 10) =
    (Returns (Some (StoreError "disk full")),
     mkWorld (mkStore [go_group; alt_group]
                [mkArticleRow 1 10 (header_text "<1@x>") "body" None]
                [mkMembership 1 1 1]
                [mkAttachmentRow 1 "image/png" "f1.png"])
             [] 10).
Proof.
  exact (SaveArticle_attachment_error
           (mkArticle 0 0 (header_text "<1@x>") [] "body" None 0
              [mkAttachment "image/png" "f1.png";
               mkAttachment "text/plain" "f2.txt"])
           ["comp.lang.go"] [1] [mkAttachment "image/png" "f1.png"]
           (mkAttachment "text/plain" "f2.txt") [] sample_store "disk full"
           [] 10 eq_refl eq_refl).
Defined.

(** ** Errors and empty ranges of the read operations *)

(** X20. When the store rejects the first call of a read operation, the
    operation returns the store's error with an empty (or zero) value and
    asks nothing more; GetArticleNumbers does so for every pair of bounds,
    (-1,-1) included, since that pair is answered by a query too. *)
Theorem reads_return_store_error (json_extract_message_id : string -> extracted)
  (json_Unmarshal : string -> option Header) (g : Group) (a : Article)
  (low high n : Z) (name mid : string) (s : Store) (code : string)
  (rest : list (option string)) (t : Z) :
  let w := mkWorld s (Some code :: rest) t in
  let w' := mkWorld s rest t in
  let e := Some (StoreError code) in
  ListGroups w = (([], e), w') /\
  GetNewGroupsSince n w = (([], e), w') /\
  GetGroup name w = ((zero_Group, e), w') /\
  GetArticlesCount g w = ((0, e), w') /\
  GetGroupHighWaterMark g w = ((0, e), w') /\
  GetGroupLowWaterMark g w = ((0, e), w') /\
  GetArticleNumbers g low high w = (([], e), w') /\
  GetArticle json_extract_message_id json_Unmarshal mid w = ((zero_Article, e), w') /\
  GetArticleByNumber json_Unmarshal g n w = ((zero_Article, e), w') /\
  GetLastArticleByNum json_Unmarshal g a w = ((zero_Article, e), w') /\
  GetNextArticleByNum json_Unmarshal g a w = ((zero_Article, e), w') /\
  GetArticlesByRange json_Unmarshal g low high w = (([], e), w') /\
  GetNewArticlesSince json_extract_message_id n w = (([], e), w') /\
  GetNewThreads g low high w = (([], e), w') /\
  GetThread json_extract_message_id g n w = (([], e), w').
Proof.
  intros w w' e. repeat split; try reflexivity.
  unfold GetArticleNumbers.
  destruct ((high =? 0) && (low =? 0)); [reflexivity|].
  destruct ((low =? -1) && negb (high =? 0)) eqn:E2; [reflexivity|].
  destruct (negb (low =? 0) && (high =? -1)) eqn:E3; [reflexivity|].
  destruct ((low =? -1) && (high =? -1)) eqn:E4; [|reflexivity].
  exfalso. apply andb_true_iff in E4. destruct E4 as [L H].
  rewrite L in E2. apply Z.eqb_eq in H. subst high. discriminate.
Qed.

Lemma populate_all_error (json_Unmarshal : string -> option Header) (s : Store)
  (l : list Article) :
  Forall (fun x => q_number_by_article (ArticleID x) s <> []) l ->
  (exists x, In x l /\ json_Unmarshal (HeaderRaw x) = None) ->
  populate_all json_Unmarshal s l = inr UnmarshalError.
Proof.
  induction l as [|x rest IH]; intros Hl (y & Hy & Hp); [destruct Hy|].
  inversion Hl as [|? ? Hx Hrest]; subst. simpl. unfold populate1.
  destruct (q_number_by_article (ArticleID x) s) as [|n ns]; [contradiction|].
  destruct (json_Unmarshal (HeaderRaw x)) as [h|] eqn:E; [|reflexivity].
  destruct Hy as [->|Hy]; [congruence|].
  rewrite (IH Hrest); [reflexivity|eauto].
Qed.

(** X21. GetArticlesByRange on a store that answers: a range with low above
    high returns no article and no error; and one article of the range
    whose header does not parse makes the whole call fail with the parse
    error and return no article at all. *)
Theorem GetArticlesByRange_empty_and_failed
  (json_Unmarshal : string -> option Header) (g : Group) (low high : Z)
  (s : Store) (t : Z) :
  (high < low ->
   GetArticlesByRange json_Unmarshal g low high (healthy s t) =
     (([], None), healthy s t)) /\
  (forall r m,
     In r (articles s) -> In m (memberships_of (ID g) s) ->
     atg_article_id m = art_id r ->
     low <= atg_article_number m <= high ->
     json_Unmarshal (art_header r) = None ->
     GetArticlesByRange json_Unmarshal g low high (healthy s t) =
       (([], Some UnmarshalError), healthy s t)).
Proof.
  split.
  - intros Hlt. rewrite GetArticlesByRange_healthy.
    unfold q_articles_by_range. rewrite filter_nil; [reflexivity|].
    intros [r m] _. simpl.
    destruct (Z.geb_spec (atg_article_number m) low) as [H1|H1];
      [|reflexivity].
    destruct (Z.leb_spec (atg_article_number m) high) as [H2|H2];
      [lia|reflexivity].
  - intros r m Hr Hm Hid Hrange Hparse.
    apply In_memberships_of in Hm. destruct Hm as [Hm Hg].
    rewrite GetArticlesByRange_healthy.
    rewrite populate_all_error; [reflexivity| |].
    + apply Forall_forall. intros x Hx. apply in_map_iff in Hx.
      destruct Hx as (r' & Ex & Hr'). subst x. unfold q_articles_by_range in Hr'.
      apply in_map_iff in Hr'. destruct Hr' as ([r'' m''] & E & Hin).
      simpl in E. subst r''. apply (order_by_In _ Z.leb) in Hin.
      apply filter_In in Hin. destruct Hin as [Hj _].
      apply In_joined in Hj. destruct Hj as (_ & Hm'' & Hid'').
      destruct (number_lookup_found s m'' Hm'') as (n & ns & Hn).
      cbn [ArticleID scan_article]. rewrite <- Hid''. rewrite Hn. discriminate.
    + exists (scan_article r zero_Article). split; [|exact Hparse].
      apply (in_map (fun r0 => scan_article r0 zero_Article)).
      unfold q_articles_by_range.
      apply in_map_iff. exists (r, m). split; [reflexivity|].
      apply (order_by_In _ Z.leb). apply filter_In.
      split; [apply In_joined; auto|]. simpl.
      rewrite Hg, Z.eqb_refl, andb_true_r. apply andb_true_iff.
      rewrite Z.geb_leb. split; apply Z.leb_le; lia.
Qed.

(** X16 at the sample store. *)
Lemma ListGroups_then_GetGroup_witness :
  GetGroup "alt.test" (healthy sample_store3 20) =
    ((alt_group, None), healthy sample_store3 20) /\
  GetGroup "alt.tes" (healthy sample_store3 20) =
    ((zero_Group, Some ErrNoRows), healthy sample_store3 20).
Proof.
  destruct (ListGroups_then_GetGroup sample_store3 20) as (_ & H1 & H2).
  split.
  - apply (H1 ltac:(vm_compute; repeat constructor; simpl; intuition discriminate)
              alt_group).
    vm_compute. auto.
  - apply H2. intros g Hg. vm_compute in Hg.
    destruct Hg as [<-|[<-|[]]]; vm_compute; discriminate.
Defined.

(** X21 at a store holding one article whose header is not JSON. *)
Lemma GetArticlesByRange_empty_and_failed_witness :
  GetArticlesByRange sample_Unmarshal go_group 3 1 (healthy sample_store3 20) =
    (([], None), healthy sample_store3 20) /\
  GetArticlesByRange sample_Unmarshal go_group 1 4
    (healthy (saved (mkArticle 0 0 "Message-Id: <4@x>" [] "body" None 0 [])
                    ["comp.lang.go"] 13 sample_store3) 20) =
    (([], Some UnmarshalError),
     healthy (saved (mkArticle 0 0 "Message-Id: <4@x>" [] "body" None 0 [])
                    ["comp.lang.go"] 13 sample_store3) 20).
Proof.
  split.
  - apply (GetArticlesByRange_empty_and_failed sample_Unmarshal go_group 3 1
             sample_store3 20). lia.
  - apply (proj2 (GetArticlesByRange_empty_and_failed sample_Unmarshal go_group
                    1 4 _ 20)
                 (mkArticleRow 4 13 "Message-Id: <4@x>" "body" None)
                 (mkMembership 4 4 1)).
    + vm_compute. auto 10.
    + vm_compute. auto 10.
    + reflexivity.
    + simpl. lia.
    + reflexivity.
Defined.

(** ** GetArticleNumbers with a zero on one side *)

(** X22. A zero on one side only does not mean "unset". With the numbers of
    the group counted from 1, on a store that answers: (0, h) for a bound h
    (neither 0 nor -1) lists the numbers below h; (l, 0) for a bound l,
    (0, -1) and (-1, 0) list nothing. *)
Theorem GetArticleNumbers_one_zero (g : Group) (s : Store) (t : Z) :
  Forall (fun n => 1 <= n) (group_numbers (ID g) s) ->
  let w := healthy s t in
  (forall h, h <> 0 -> h <> -1 ->
     GetArticleNumbers g 0 h w =
       ((filter (fun n => n <? h) (group_numbers (ID g) s), None), w)) /\
  (forall l, l <> 0 -> l <> -1 ->
     GetArticleNumbers g l 0 w = (([], None), w)) /\
  GetArticleNumbers g 0 (-1) w = (([], None), w) /\
  GetArticleNumbers g (-1) 0 w = (([], None), w).
Proof.
  intros Hpos w.
  assert (Hsel : forall p : Z -> bool,
            map atg_article_number
                (filter (fun m => (atg_group_id m =? ID g) && p (atg_article_number m))
                        (articles_to_groups s)) =
            filter p (group_numbers (ID g) s))
    by (intros p; apply map_filter_and).
  assert (Hnone : forall p : Z -> bool,
            (forall n, 1 <= n -> p n = false) ->
            filter p (group_numbers (ID g) s) = []).
  { intros p Hp. apply filter_nil. intros n Hn.
    rewrite Forall_forall in Hpos. apply Hp. now apply Hpos. }
  split; [|split; [|split]].
  - intros h H0 H1. unfold GetArticleNumbers.
    destruct (Z.eqb_spec h 0) as [C|_]; [contradiction|].
    destruct (Z.eqb_spec h (-1)) as [C|_]; [contradiction|]. simpl.
    unfold w. rewrite db_Select_healthy.
    rewrite (filter_ext _ (fun m => (atg_group_id m =? ID g) &&
               ((atg_article_number m >? 0) && (atg_article_number m <? h))))
      by (intros m; now rewrite andb_assoc).
    rewrite (Hsel (fun n => (n >? 0) && (n <? h))). do 2 f_equal.
    apply filter_ext_in. intros n Hn. rewrite Forall_forall in Hpos.
    specialize (Hpos n Hn). simpl in Hpos.
    destruct (Z.gtb_spec n 0); [reflexivity|lia].
  - intros l H0 H1. unfold GetArticleNumbers.
    destruct (Z.eqb_spec l 0) as [C|_]; [contradiction|].
    destruct (Z.eqb_spec l (-1)) as [C|_]; [contradiction|]. simpl.
    unfold w. rewrite db_Select_healthy.
    rewrite (filter_ext _ (fun m => (atg_group_id m =? ID g) &&
               ((atg_article_number m >? l) && (atg_article_number m <? 0))))
      by (intros m; now rewrite andb_assoc).
    rewrite (Hsel (fun n => (n >? l) && (n <? 0))), Hnone; [reflexivity|].
    intros n Hn. destruct (Z.ltb_spec n 0); [lia|now rewrite andb_false_r].
  - unfold GetArticleNumbers. simpl. unfold w. rewrite db_Select_healthy.
    rewrite (filter_ext _ (fun m => (atg_group_id m =? ID g) &&
               ((atg_article_number m >? 0) && (atg_article_number m <? -1))))
      by (intros m; now rewrite andb_assoc).
    rewrite (Hsel (fun n => (n >? 0) && (n <? -1))), Hnone; [reflexivity|].
    intros n Hn. destruct (Z.ltb_spec n (-1)); [lia|now rewrite andb_false_r].
  - unfold GetArticleNumbers. simpl. unfold w. rewrite db_Select_healthy.
    rewrite (filter_ext _ (fun m => (atg_group_id m =? ID g) &&
               ((atg_article_number m >? -1) && (atg_article_number m <? 0))))
      by (intros m; now rewrite andb_assoc).
    rewrite (Hsel (fun n => (n >? -1) && (n <? 0))), Hnone; [reflexivity|].
    intros n Hn. destruct (Z.ltb_spec n 0); [lia|now rewrite andb_false_r].
Qed.

(** X22 at the sample store, where comp.lang.go holds 1, 2, 3. *)
Lemma GetArticleNumbers_one_zero_witness :
  GetArticleNumbers go_group 0 3 (healthy sample_store3 20) =
    (([1; 2], None), healthy sample_store3 20) /\
  GetArticleNumbers go_group 1 0 (healthy sample_store3 20) =
    (([], None), healthy sample_store3 20).
Proof.
  assert (Hpos : Forall (fun n => 1 <= n) (group_numbers (ID go_group) sample_store3)).
  { change (Forall (fun n => 1 <= n) [1; 2; 3]). repeat constructor; lia. }
  destruct (GetArticleNumbers_one_zero go_group sample_store3 20 Hpos)
    as (H1 & H2 & _).
  split.
  - rewrite (H1 3) by discriminate. reflexivity.
  - apply H2; discriminate.
Defined.

(** ** Watermarks never go back *)

Lemma in_turn_above (news : list Membership) (gid : Z) :
  forall cur,
    numbered_in_turn cur news ->
    Forall (fun n => Forall (fun o => o < n)
                       (map atg_article_number
                            (filter (fun m => atg_group_id m =? gid) cur)))
           (map atg_article_number
                (filter (fun m => atg_group_id m =? gid) news)).
Proof.
  induction news as [|m rest IH]; intros cur Hn; simpl in *; [constructor|].
  destruct Hn as [[H1 H2] Hrest].
  assert (Hr : Forall (fun n => Forall (fun o => o < n)
                         (map atg_article_number
                              (filter (fun x => atg_group_id x =? gid) cur)))
                 (map atg_article_number
                      (filter (fun x => atg_group_id x =? gid) rest))).
  { eapply Forall_impl; [|exact (IH _ Hrest)]. intros n Hall.
    rewrite filter_app, map_app in Hall. apply Forall_app in Hall. tauto. }
  destruct (Z.eqb_spec (atg_group_id m) gid) as [E|N]; [|exact Hr].
  simpl. constructor; [|exact Hr]. subst gid.
  set (ns := map atg_article_number
               (filter (fun x => atg_group_id x =? atg_group_id m) cur)) in *.
  destruct (sql_max ns) as [mx|] eqn:Emx.
  - destruct (sql_max_spec _ _ Emx) as [Hin Hub].
    rewrite (H2 mx Hin Hub).
    eapply Forall_impl; [|exact Hub]. simpl; intros; lia.
  - apply sql_max_None in Emx. rewrite Emx. constructor.
Qed.

Lemma sql_max_app_ge (l l' : list Z) (m : Z) :
  sql_max l = Some m -> exists m', sql_max (l ++ l') = Some m' /\ m <= m'.
Proof.
  revert m. induction l as [|x r IH]; intros m H; simpl in *; [discriminate|].
  destruct (sql_max r) as [mr|] eqn:Er.
  - inversion H; subst. destruct (IH mr eq_refl) as (m' & Hm' & Hle).
    rewrite Hm'. eexists. split; [reflexivity|lia].
  - inversion H; subst. apply sql_max_None in Er. subst r. simpl.
    destruct (sql_max l') as [ml|]; eexists; (split; [reflexivity|lia]).
Qed.

Lemma sql_min_app_above (l l' : list Z) (m : Z) :
  sql_min l = Some m ->
  Forall (fun n => Forall (fun o => o < n) l) l' ->
  sql_min (l ++ l') = Some m.
Proof.
  intros Hm Hab. destruct (sql_min_spec _ _ Hm) as [Hin Hlow].
  destruct (sql_min (l ++ l')) as [m'|] eqn:E.
  - destruct (sql_min_spec _ _ E) as [Hin' Hlow']. f_equal.
    rewrite Forall_forall in Hlow, Hlow'.
    assert (m' <= m) by (apply Hlow'; apply in_or_app; now left).
    apply in_app_or in Hin'. destruct Hin' as [Ho|Hn].
    + specialize (Hlow _ Ho). simpl in *. lia.
    + rewrite Forall_forall in Hab. specialize (Hab _ Hn).
      rewrite Forall_forall in Hab. specialize (Hab _ Hin). simpl in *. lia.
  - apply sql_min_None in E. destruct l; [discriminate|discriminate].
Qed.

(** X23. Whatever the store answers during a save into a well-formed store,
    the water marks and the count of every group, read afterwards, never go
    back: the count and the high water mark do not decrease, and the low
    water mark of a group that had articles does not change. *)
Theorem SaveArticle_watermarks_monotone (a : Article) (names : list string)
  (g : Group) (w : World) (t : Z) :
  wf_store (store w) ->
  let before := healthy (store w) t in
  let after := healthy (store (snd (SaveArticle a names w))) t in
  fst (fst (GetArticlesCount g before)) <= fst (fst (GetArticlesCount g after)) /\
  fst (fst (GetGroupHighWaterMark g before)) <=
    fst (fst (GetGroupHighWaterMark g after)) /\
  (0 < fst (fst (GetArticlesCount g before)) ->
   fst (fst (GetGroupLowWaterMark g after)) =
     fst (fst (GetGroupLowWaterMark g before))).
Proof.
  intros Hwf before after.
  destruct (SaveArticle_rows a names w) as (news & Hn & Hturn).
  pose proof (in_turn_above news (ID g) _ Hturn) as Hab.
  pose proof (SaveArticle_wf a names w Hwf) as Hwf'.
  set (s' := store (snd (SaveArticle a names w))) in *.
  set (old := group_numbers (ID g) (store w)).
  set (added := map atg_article_number
                    (filter (fun m => atg_group_id m =? ID g) news)) in *.
  assert (Hnew : group_numbers (ID g) s' = old ++ added).
  { unfold group_numbers, memberships_of. rewrite Hn, filter_app, map_app.
    reflexivity. }
  assert (Hc : forall s0 u, fst (fst (GetArticlesCount g (healthy s0 u))) =
                            Z.of_nat (List.length (group_numbers (ID g) s0))).
  { intros s0 u. unfold group_numbers. rewrite length_map. reflexivity. }
  assert (Hh : forall s0 u, fst (fst (GetGroupHighWaterMark g (healthy s0 u))) =
                            COALESCE (sql_max (group_numbers (ID g) s0)) 0)
    by reflexivity.
  assert (Hl : forall s0 u, fst (fst (GetGroupLowWaterMark g (healthy s0 u))) =
                            COALESCE (sql_min (group_numbers (ID g) s0)) 0)
    by reflexivity.
  unfold before, after. rewrite !Hc, !Hh, !Hl, Hnew. fold old.
  split; [rewrite length_app; lia|]. split.
  - destruct (sql_max old) as [m|] eqn:Em.
    + destruct (sql_max_app_ge old added m Em) as (m' & Hm' & Hle).
      rewrite Hm'. exact Hle.
    + apply sql_max_None in Em. rewrite Em. cbn [app COALESCE].
      destruct (sql_max added) as [m'|] eqn:Em'; [|simpl; lia].
      destruct (sql_max_spec _ _ Em') as [Hin _]. simpl.
      assert (Hp : In m' (group_numbers (ID g) s'))
        by (rewrite Hnew; apply in_or_app; now right).
      unfold group_numbers in Hp. apply in_map_iff in Hp.
      destruct Hp as (x & <- & Hx). apply In_memberships_of in Hx.
      pose proof (wf_positive s' Hwf') as Hpos. rewrite Forall_forall in Hpos.
      specialize (Hpos x (proj1 Hx)). simpl in Hpos. lia.
  - intros Hcount. destruct (sql_min old) as [m|] eqn:Em.
    + now rewrite (sql_min_app_above old added m Em Hab).
    + apply sql_min_None in Em. rewrite Em in Hcount. simpl in Hcount. lia.
Qed.

(** X23 at the sample store, for a save whose second membership insert the
    store rejects. *)
Lemma SaveArticle_watermarks_monotone_witness :
  fst (fst (GetGroupHighWaterMark go_group (healthy sample_store3 20))) <=
  fst (fst (GetGroupHighWaterMark go_group
    (healthy (store (snd (SaveArticle (sample_article "<4@x>" None)
                            ["comp.lang.go"; "alt.test"]
                            (mkWorld sample_store3
                                     [None; None; None; None; Some "locked"] 13))))
             20))).
Proof.
  apply (SaveArticle_watermarks_monotone (sample_article "<4@x>" None)
           ["comp.lang.go"; "alt.test"] go_group
           (mkWorld sample_store3 [None; None; None; None; Some "locked"] 13) 20).
  exact sample_store3_wf.
Defined.

(** ** A saved article shows up in the thread listings *)

(** The row and the membership a save adds for a group it names. *)
Lemma saved_joined (a : Article) (names : list string) (ids : list Z)
  (s : Store) (t gid : Z) :
  resolved_ids names s = Some ids -> In gid ids ->
  In (mkArticleRow (next_rowid (map art_id (articles s))) t
                   (HeaderRaw a) (Body a) (Thread a),
      mkMembership (next_rowid (map art_id (articles s)))
                   (next_article_number gid s) gid)
     (joined (saved a names t s)).
Proof.
  intros Hr Hin. apply In_joined. split; [|split].
  - rewrite saved_articles. apply in_or_app. right. now left.
  - now apply (saved_membership a names ids s t gid).
  - reflexivity.
Qed.

(** X24. On a store that answers, after a successful save into a group of a
    well-formed store: an article saved without a thread is in the full
    listing of GetNewThreads for that group, and an article saved with the
    Message-Id of an article of the group as its thread is in GetThread
    for that article's number; in both cases under the number that was
    next in the group. *)
Theorem saved_article_listed (json_extract_message_id : string -> extracted)
  (a : Article) (names : list string) (ids : list Z) (g : Group)
  (s : Store) (t t' : Z) :
  wf_store s -> resolved_ids names s = Some ids -> In (ID g) ids ->
  let s' := saved a names t s in
  (Thread a = None ->
   In (next_article_number (ID g) s)
      (fst (fst (GetNewThreads g (-1) 0 (healthy s' t'))))) /\
  (forall rm ra mid,
     In rm (memberships_of (ID g) s) -> In ra (articles s) ->
     art_id ra = atg_article_id rm ->
     json_extract_message_id (art_header ra) = Extracted (Some mid) ->
     Thread a = Some mid ->
     In (next_article_number (ID g) s)
        (fst (fst (GetThread json_extract_message_id g (atg_article_number rm)
                     (healthy s' t'))))).
Proof.
  intros Hwf Hr Hin s'.
  pose proof (saved_joined a names ids s t (ID g) Hr Hin) as Hj.
  fold s' in Hj.
  set (r := mkArticleRow (next_rowid (map art_id (articles s))) t
                         (HeaderRaw a) (Body a) (Thread a)) in *.
  set (m := mkMembership (next_rowid (map art_id (articles s)))
                         (next_article_number (ID g) s) (ID g)) in *.
  split.
  - intros Hroot. rewrite GetNewThreads_healthy. cbn [fst].
    change (limit_offset (-1) (wrap64 (-1 * 0)) (q_root_rows (ID g) s'))
      with (q_root_rows (ID g) s').
    apply (in_map (fun am => atg_article_number (snd am)) _ (r, m)).
    unfold q_root_rows. apply (order_by_In _ Z.geb). apply filter_In.
    split; [exact Hj|]. simpl. rewrite Z.eqb_refl, Hroot. reflexivity.
  - intros rm ra mid Hrm Hra Hid Hmid Hth.
    apply In_memberships_of in Hrm. destruct Hrm as [Hrm Hg].
    assert (Hwf' : wf_store s') by (now apply saved_wf).
    assert (Hjr : In (ra, rm) (joined s')).
    { apply In_joined. split; [|split; [|exact (eq_sym Hid)]].
      - unfold s'. rewrite saved_articles. apply in_or_app. now left.
      - destruct (saved_store a names ids s t Hr) as (_ & _ & (news & Hn & _) & _).
        unfold s'. rewrite Hn. apply in_or_app. now left. }
    pose proof (root_header_found s' (ID g) (atg_article_number rm) ra rm
                  Hwf' Hjr Hg eq_refl) as Hroot.
    unfold GetThread. rewrite db_SelectRun_healthy.
    unfold q_thread, root_message_id. rewrite Hroot, Hmid. cbn [fst].
    apply (in_map (fun am => atg_article_number (snd am)) _ (r, m)).
    unfold q_thread_rows. apply (order_by_In _ Z.leb). apply filter_In.
    split; [exact Hj|]. simpl. rewrite Z.eqb_refl. simpl.
    rewrite Hth. simpl. apply String.eqb_refl.
Qed.

(** X24 at the sample store: a second reply to article 2 of comp.lang.go. *)
Lemma saved_article_listed_witness :
  In 4 (fst (fst (GetThread sample_message_id go_group 2
                    (healthy (saved (sample_article "<4@x>" (Some "<2@x>"))
                                    ["comp.lang.go"] 13 sample_store3) 20)))).
Proof.
  apply (proj2 (saved_article_listed sample_message_id
                  (sample_article "<4@x>" (Some "<2@x>")) ["comp.lang.go"] [1]
                  go_group sample_store3 13 20 sample_store3_wf eq_refl
                  (or_introl eq_refl))
               (mkMembership 2 2 1)
               (mkArticleRow 2 11 (header_text "<2@x>") "body" None) "<2@x>").
  - vm_compute. auto.
  - vm_compute. auto.
  - reflexivity.
  - reflexivity.
  - reflexivity.
Defined.
